(** * simagent: the UI state synchronisation and action engine of main.go

    A shallow embedding of the functions of [main.go] that normalise an
    accessibility snapshot, resolve selectors, decide focus trust, reconcile
    typed text and sample UI stability, together with the properties the
    specification states about them; and of the functions around them, the
    fallback pickers, the submission and verification of text, the condition
    waiter, the flow runner and the coordinate transform, with properties
    read off the code.

    Conventions of the embedding.
    - A Go [string] is the sequence of its Unicode code points, that is what
      [[]rune(s)] yields; [string(rs)] is the way back.  [rune] is [Z].
    - Go's [int] is [Z].
    - A [float64] coordinate is an exact rational ([Q]); rounding, infinities
      and NaN are outside the model.  [math.Hypot dx dy] is a square root and
      is kept squared ([hypotSq]); the constants it is compared with are
      squared as well, which preserves every comparison between
      non-negative numbers.
    - An effectful call (a tap, a snapshot, a sample) is an argument of the
      model: the function that gives the result of each successive call.
    - The functions of Go's standard library that rest on the Unicode case
      tables or on the parsing of floating-point numerals are the fields of
      the class [GoLib]; the theorems hold for every instance. *)

From Stdlib Require Import ZArith QArith Qminmax List Bool String Ascii DecimalString.
From Stdlib Require Import Lia Lqa Permutation Sorted FinFun Qabs Qround.
Import ListNotations.

Set Implicit Arguments.
Set Warnings "-register-all".

(* ================================================================= *)
(** ** Go strings *)

Definition rune := Z.
Definition gostring := list rune.

(** A string literal of the source, as its code points (ASCII literals). *)
Definition str (s : string) : gostring :=
  List.map (fun a => Z.of_nat (nat_of_ascii a)) (list_ascii_of_string s).

Fixpoint streq (a b : gostring) : bool :=
  match a, b with
  | [], [] => true
  | x :: a', y :: b' => (x =? y)%Z && streq a' b'
  | _, _ => false
  end.

Definition isEmpty (s : gostring) : bool :=
  match s with [] => true | _ => false end.

(** Lexicographic [<] on strings (Go compares bytes; on valid UTF-8 the order
    of the encodings is the order of the code point sequences). *)
Fixpoint strlt (a b : gostring) : bool :=
  match a, b with
  | _, [] => false
  | [], _ :: _ => true
  | x :: a', y :: b' => (x <? y)%Z || ((x =? y)%Z && strlt a' b')
  end.

(* ================================================================= *)
(** ** Raw snapshots and the standard library *)

(** The dynamic values [decodeJSONOrWrap] produces (a [json.Decoder] with
    [UseNumber]): nil, bool, [json.Number], string, [[]any] and
    [map[string]any].  A map is the list of its entries in the order in which
    a [range] over it happens to visit them; Go fixes no such order, so every
    order of the list is a possible run. *)
Inductive any : Type :=
| VNil
| VBool (b : bool)
| VNumber (n : gostring)
| VString (s : gostring)
| VSlice (l : list any)
| VMap (m : list (gostring * any)).

(** Functions of Go's standard library that the program calls and that rest on
    the Unicode case tables or on floating-point parsing. *)
Class GoLib := {
  (** [unicode.ToLower] *)
  unicode_ToLower : rune -> rune;
  (** two runes that [strings.EqualFold] takes as equal (simple case folding) *)
  unicode_FoldEq : rune -> rune -> bool;
  (** [strconv.ParseFloat s 64] and [json.Number.Float64]; [None] is an error *)
  strconv_ParseFloat : gostring -> option Q
}.

Module unicode.

(** [unicode.IsSpace]: the Latin-1 cases of the switch, then the
    White_Space table above Latin-1. *)
Definition IsSpace (r : rune) : bool :=
  if ((0 <=? r) && (r <=? 255))%Z then
    ((r =? 9) || (r =? 10) || (r =? 11) || (r =? 12) || (r =? 13)
     || (r =? 32) || (r =? 133) || (r =? 160))%Z
  else
    ((r =? 5760) || ((8192 <=? r) && (r <=? 8202)) || (r =? 8232)
     || (r =? 8233) || (r =? 8239) || (r =? 8287) || (r =? 12288))%Z.

End unicode.

Module strings.

Fixpoint TrimLeftSpace (s : gostring) : gostring :=
  match s with
  | [] => []
  | r :: rest => if unicode.IsSpace r then TrimLeftSpace rest else s
  end.

Definition TrimRightSpace (s : gostring) : gostring :=
  rev (TrimLeftSpace (rev s)).

(** [strings.TrimSpace]: leading and trailing white space removed. *)
Definition TrimSpace (s : gostring) : gostring :=
  TrimRightSpace (TrimLeftSpace s).

Fixpoint HasPrefix (s prefix : gostring) : bool :=
  match prefix, s with
  | [], _ => true
  | p :: prefix', c :: s' => (c =? p)%Z && HasPrefix s' prefix'
  | _ :: _, [] => false
  end.

(** [strings.Contains s substr]. *)
Fixpoint Contains (s substr : gostring) : bool :=
  HasPrefix s substr
  || match s with
     | [] => false
     | _ :: s' => Contains s' substr
     end.

(** [strings.Join parts sep]. *)
Fixpoint Join (parts : list gostring) (sep : gostring) : gostring :=
  match parts with
  | [] => []
  | [p] => p
  | p :: rest => p ++ sep ++ Join rest sep
  end.

(** [strings.ToLower]: [unicode.ToLower] on every rune. *)
Definition ToLower `{GoLib} (s : gostring) : gostring :=
  List.map unicode_ToLower s.

(** [strings.EqualFold]: rune by rune, equal or equal under case folding. *)
Fixpoint EqualFold `{GoLib} (s t : gostring) : bool :=
  match s, t with
  | [], [] => true
  | sr :: s', tr :: t' => ((sr =? tr)%Z || unicode_FoldEq sr tr) && EqualFold s' t'
  | _, _ => false
  end.

End strings.

(* ================================================================= *)
(** ** Text reconciliation: typedMissingSuffix *)

Definition isIgnoredCompareRune (r : rune) : bool := unicode.IsSpace r.

(** The loop of [comparableRunesWithMap], started at index [i]: the retained
    runes and, for each of them, its index in the original slice. *)
Fixpoint comparableRunesWithMapFrom (i : Z) (runes : list rune)
  : list rune * list Z :=
  match runes with
  | [] => ([], [])
  | r :: rest =>
      let '(comparable, indexMap) := comparableRunesWithMapFrom (i + 1) rest in
      if isIgnoredCompareRune r then (comparable, indexMap)
      else (r :: comparable, i :: indexMap)
  end.

Definition comparableRunesWithMap (runes : list rune) : list rune * list Z :=
  comparableRunesWithMapFrom 0 runes.

(** [for i := 0; i < len(observedComparable); i++] of [typedMissingSuffix]:
    [false] as soon as two runes at the same position differ.  It runs only
    when the observed slice is not the longer one. *)
Fixpoint comparablePrefixLoop (observedComparable intendedComparable : list rune)
  : bool :=
  match observedComparable, intendedComparable with
  | [], _ => true
  | o :: os, c :: cs => if negb (o =? c)%Z then false else comparablePrefixLoop os cs
  | _ :: _, [] => false
  end.

Definition len {A} (l : list A) : Z := Z.of_nat (List.length l).

(** [typedMissingSuffix]; [None] stands for a run-time panic (an index out of
    range), which the theorems below show never happens. *)
Definition typedMissingSuffix (intended observed : gostring)
  : option (gostring * bool) :=
  let intendedRunes := intended in
  let observedRunes := observed in
  let '(intendedComparable, intendedMap) := comparableRunesWithMap intendedRunes in
  let '(observedComparable, _) := comparableRunesWithMap observedRunes in
  if (len observedComparable >? len intendedComparable)%Z then Some ([], false)
  else if negb (comparablePrefixLoop observedComparable intendedComparable)
  then Some ([], false)
  else if (len observedComparable =? len intendedComparable)%Z then Some ([], true)
  else
    match nth_error intendedMap (List.length observedComparable) with
    | None => None
    | Some start =>
        if ((start <? 0) || (start >? len intendedRunes))%Z then Some ([], false)
        else Some (skipn (Z.to_nat start) intendedRunes, true)
    end.

(** The specification's words: the string with its white space stripped, and
    the original index of the [k]-th retained character. *)
Definition stripSpace (s : gostring) : gostring :=
  filter (fun r => negb (unicode.IsSpace r)) s.

Fixpoint originalIndex (s : gostring) (k : nat) : nat :=
  match s with
  | [] => 0
  | r :: rest =>
      if unicode.IsSpace r then S (originalIndex rest k)
      else match k with
           | O => O
           | S k' => S (originalIndex rest k')
           end
  end.

Definition isPrefixOf (p s : gostring) : Prop := exists rest, s = p ++ rest.

(* ================================================================= *)
(** ** Data model *)

Module FrameRect.
Record t := mk { X : Q; Y : Q; W : Q; H : Q; Unit : gostring }.
(** The zero value [FrameRect{}]. *)
Definition zero : t := mk 0 0 0 0 [].
End FrameRect.

Module FramePoint.
Record t := mk { X : Q; Y : Q; Unit : gostring }.
Definition zero : t := mk 0 0 [].
End FramePoint.

Module ElementSource.
Record t := mk { Tool : gostring; Method : gostring }.
Definition zero : t := mk [] [].
End ElementSource.

Module Element.
Record t := mk {
  Index : Z;
  ID : gostring;
  Role : gostring;
  Label : gostring;
  Value : gostring;
  NearbyLabel : gostring;
  Enabled : bool;
  Focused : bool;
  Visible : bool;
  Offscreen : bool;
  Frame : FrameRect.t;
  Center : FramePoint.t;
  Source : ElementSource.t;
  order : Z
}.

(** The zero value [Element{}]. *)
Definition zero : t :=
  mk 0 [] [] [] [] [] false false false false
     FrameRect.zero FramePoint.zero ElementSource.zero 0.

Definition setIndex (e : t) (i : Z) : t :=
  mk i (ID e) (Role e) (Label e) (Value e) (NearbyLabel e) (Enabled e)
     (Focused e) (Visible e) (Offscreen e) (Frame e) (Center e) (Source e)
     (order e).

Definition setNearbyLabel (e : t) (l : gostring) : t :=
  mk (Index e) (ID e) (Role e) (Label e) (Value e) l (Enabled e)
     (Focused e) (Visible e) (Offscreen e) (Frame e) (Center e) (Source e)
     (order e).

Definition setVisibility (e : t) (vo : bool * bool) : t :=
  mk (Index e) (ID e) (Role e) (Label e) (Value e) (NearbyLabel e) (Enabled e)
     (Focused e) (fst vo) (snd vo) (Frame e) (Center e) (Source e) (order e).

Definition setOrder (e : t) (o : Z) : t :=
  mk (Index e) (ID e) (Role e) (Label e) (Value e) (NearbyLabel e) (Enabled e)
     (Focused e) (Visible e) (Offscreen e) (Frame e) (Center e) (Source e) o.

Definition setCenter (e : t) (c : FramePoint.t) : t :=
  mk (Index e) (ID e) (Role e) (Label e) (Value e) (NearbyLabel e) (Enabled e)
     (Focused e) (Visible e) (Offscreen e) (Frame e) c (Source e) (order e).
End Element.

Module Transform.
Record screen := mkScreen { W : Q; H : Q; Unit : gostring }.
Record screenshot := mkScreenshot { PxW : Z; PxH : Z; PxUnit : gostring }.
Record safeArea := mkSafeArea {
  Top : Q; Bottom : Q; Left : Q; Right : Q; SafeUnit : gostring }.
Record t := mk {
  Screen : screen; Screenshot : screenshot; Scale : Q; SafeArea : safeArea }.
End Transform.

(** The values stored in [AppError.Details] by the modelled functions.  A
    [time.Duration] stored through its [String] method is kept as the
    duration (in nanoseconds). *)
Inductive detail : Type :=
| DString (s : gostring)
| DInt (n : Z)
| DStrings (l : list gostring)
| DDuration (d : Z)
| DMap (m : list (gostring * detail)).

Module AppError.
Record t := mk {
  Code : gostring;
  Message : gostring;
  Details : list (gostring * detail)
}.
End AppError.

(** A Go result pair [(T, error)]. *)
Inductive result (A : Type) : Type :=
| Ok (a : A)
| Err (e : AppError.t).
Arguments Ok {A} a.
Arguments Err {A} e.

Module frameOptions.
Record t := mk {
  InteractiveOnly : bool;
  StableSamples : Z;
  StableInterval : Z;
  Order : gostring;
  MinArea : Q;
  IncludeRoles : list (gostring * bool);
  ExcludeRoles : list (gostring * bool)
}.
End frameOptions.

Module candidateNode.
Record t := mk { Path : gostring; Order : Z; Map : list (gostring * any) }.
End candidateNode.

Module elementSnapshot.
Record t := mk { Elements : list Element.t; AllCount : Z; InteractiveCount : Z }.
End elementSnapshot.

Module frameUISample.
Record t := mk {
  Raw : any;
  Elements : list Element.t;
  AllCount : Z;
  InteractiveCount : Z;
  Hash : gostring
}.
End frameUISample.

(* ================================================================= *)
(** ** Helpers of the Go runtime *)

(** [m[k]] with its presence flag. *)
Fixpoint mapGet {V} (m : list (gostring * V)) (k : gostring) : option V :=
  match m with
  | [] => None
  | (k', v) :: rest => if streq k' k then Some v else mapGet rest k
  end.

(** [m[k]] on a [map[string]bool]: [false] when the key is missing. *)
Definition mapGetBool (m : list (gostring * bool)) (k : gostring) : bool :=
  match mapGet m k with Some b => b | None => false end.

(** [%d] of an [int]. *)
Definition itoa (n : Z) : gostring := str (NilZero.string_of_int (Z.to_int n)).

Definition Qltb (a b : Q) : bool := negb (Qle_bool b a).

(** [math.MaxFloat64]. *)
Definition MaxFloat64 : Q := inject_Z (2 ^ 1024 - 2 ^ 971).

(** The square of [math.Hypot dx dy]. *)
Definition hypotSq (dx dy : Q) : Q := dx * dx + dy * dy.

(** [sort.Slice]: the insertion sort Go runs on short slices; each element in
    turn sinks leftwards while it is less than its left neighbour
    ([insertionSortLessFunc]).  [sort.Slice] is not stable and switches to
    pattern-defeating quicksort on longer slices; the properties proved below
    use only that the result is sorted and a permutation of the input. *)
Fixpoint sinkLeft {A} (less : A -> A -> bool) (x : A) (revPrefix : list A)
  : list A :=
  match revPrefix with
  | [] => [x]
  | y :: rest => if less x y then y :: sinkLeft less x rest else x :: revPrefix
  end.

Definition sortSlice {A} (less : A -> A -> bool) (data : list A) : list A :=
  rev (fold_left (fun revPrefix x => sinkLeft less x revPrefix) data []).

(** [l[i] = v] on a slice; nothing happens out of range (the modelled code
    never writes out of range). *)
Fixpoint updateAt {A} (i : nat) (v : A) (l : list A) : list A :=
  match l, i with
  | [], _ => []
  | _ :: rest, O => v :: rest
  | x :: rest, S i' => x :: updateAt i' v rest
  end.

(** [fmt.Sprint] on a decoded JSON value: [<nil>], [true]/[false], the text of
    a number, a string as it is, [[a b]] for a slice and [map[k:v k:v]] with
    the keys sorted for a map. *)
Fixpoint fmtSprint (v : any) : gostring :=
  match v with
  | VNil => str "<nil>"
  | VBool true => str "true"
  | VBool false => str "false"
  | VNumber n => n
  | VString s => s
  | VSlice l =>
      str "[" ++ strings.Join (List.map fmtSprint l) (str " ") ++ str "]"
  | VMap m =>
      let entries :=
        (fix go (m : list (gostring * any)) : list (gostring * gostring) :=
           match m with
           | [] => []
           | (k, child) :: rest => (k, fmtSprint child) :: go rest
           end) m in
      let sorted := sortSlice (fun a b => strlt (fst a) (fst b)) entries in
      str "map["
      ++ strings.Join (List.map (fun kv => fst kv ++ str ":" ++ snd kv) sorted)
           (str " ")
      ++ str "]"
  end.

(** [strconv.ParseBool]. *)
Definition parseBool (s : gostring) : option bool :=
  if existsb (streq s)
       [str "1"; str "t"; str "T"; str "TRUE"; str "true"; str "True"]
  then Some true
  else if existsb (streq s)
            [str "0"; str "f"; str "F"; str "FALSE"; str "false"; str "False"]
  then Some false
  else None.

(* ================================================================= *)
(** ** Tree normalizer *)

Section Normalizer.
Context `{GoLib}.

Definition interactiveRoleHints : list gostring :=
  [str "button"; str "textfield"; str "securetextfield"; str "switch";
   str "slider"; str "cell"; str "link"].

Definition textInputRoleHints : list gostring :=
  [str "textfield"; str "securetextfield"; str "searchfield"; str "textarea";
   str "textview"].

Definition isInteractiveRole (role : gostring) : bool :=
  let r := strings.ToLower (strings.TrimSpace role) in
  if isEmpty r then false
  else existsb (fun hint => strings.Contains r hint) interactiveRoleHints.

Definition isTextInputRole (role : gostring) : bool :=
  let r := strings.ToLower (strings.TrimSpace role) in
  if isEmpty r then false
  else existsb (fun hint => strings.Contains r hint) textInputRoleHints.

Definition isSecureTextInputRole (role : gostring) : bool :=
  strings.Contains (strings.ToLower (strings.TrimSpace role)) (str "securetextfield").

(** [getFloatAny]; the dynamic types [float64], [float32], [int] and [int64]
    of its switch do not occur in decoded JSON, where every number is a
    [json.Number]. *)
Fixpoint getFloatAny (m : list (gostring * any)) (keys : list gostring)
  : option Q :=
  match keys with
  | [] => None
  | k :: rest =>
      match mapGet m k with
      | None => getFloatAny m rest
      | Some (VNumber n) =>
          match strconv_ParseFloat n with
          | Some f => Some f
          | None => getFloatAny m rest
          end
      | Some (VString s) =>
          match strconv_ParseFloat (strings.TrimSpace s) with
          | Some f => Some f
          | None => getFloatAny m rest
          end
      | Some _ => getFloatAny m rest
      end
  end.

Definition rectFromAny (v : any) : option FrameRect.t :=
  match v with
  | VMap mapVal =>
      match getFloatAny mapVal [str "x"; str "left"; str "originX"],
            getFloatAny mapVal [str "y"; str "top"; str "originY"],
            getFloatAny mapVal [str "w"; str "width"],
            getFloatAny mapVal [str "h"; str "height"] with
      | Some x, Some y, Some w, Some h =>
          Some (FrameRect.mk x y w h (str "pt"))
      | _, _, _, _ => None
      end
  | _ => None
  end.

(** [m[k]] as a value: nil when the key is missing. *)
Definition mapIndex (m : list (gostring * any)) (k : gostring) : any :=
  match mapGet m k with Some v => v | None => VNil end.

Definition findRect (m : list (gostring * any)) : option FrameRect.t :=
  match rectFromAny (mapIndex m (str "frame")) with
  | Some rect => Some rect
  | None =>
      match rectFromAny (mapIndex m (str "bounds")) with
      | Some rect => Some rect
      | None =>
          match rectFromAny (mapIndex m (str "rect")) with
          | Some rect => Some rect
          | None => rectFromAny (VMap m)
          end
      end
  end.

Fixpoint firstString (m : list (gostring * any)) (keys : list gostring)
  : gostring :=
  match keys with
  | [] => []
  | k :: rest =>
      match mapGet m k with
      | Some v =>
          let s := strings.TrimSpace (fmtSprint v) in
          if negb (isEmpty s) && negb (streq s (str "<nil>")) then s
          else firstString m rest
      | None => firstString m rest
      end
  end.

Fixpoint firstBoolWithDefault (m : list (gostring * any)) (keys : list gostring)
  (fallback : bool) : bool :=
  match keys with
  | [] => fallback
  | k :: rest =>
      match mapGet m k with
      | Some (VBool typed) => typed
      | Some (VString typed) =>
          match parseBool (strings.TrimSpace typed) with
          | Some parsed => parsed
          | None => firstBoolWithDefault m rest fallback
          end
      | _ => firstBoolWithDefault m rest fallback
      end
  end.

(** [walkCandidates]: the counter [*order] and the slice [*out] are the state
    passed along. *)
Fixpoint walkCandidates (v : any) (path : gostring)
  (st : Z * list candidateNode.t) : Z * list candidateNode.t :=
  match v with
  | VMap typed =>
      let order := (fst st + 1)%Z in
      let out := snd st ++ [candidateNode.mk path order typed] in
      (fix fields (m : list (gostring * any)) (st : Z * list candidateNode.t) :=
         match m with
         | [] => st
         | (k, child) :: rest =>
             let next := path ++ str "/" ++ k in
             fields rest (walkCandidates child next st)
         end) typed (order, out)
  | VSlice typed =>
      (fix items (l : list any) (i : Z) (st : Z * list candidateNode.t) :=
         match l with
         | [] => st
         | child :: rest =>
             let next := path ++ str "/" ++ itoa i in
             items rest (i + 1)%Z (walkCandidates child next st)
         end) typed 0%Z st
  | _ => st
  end.

Definition elementFromCandidate (node : candidateNode.t) : option Element.t :=
  match findRect (candidateNode.Map node) with
  | None => None
  | Some rect =>
      if Qle_bool (FrameRect.W rect) 0 || Qle_bool (FrameRect.H rect) 0 then None
      else
        let m := candidateNode.Map node in
        let id := firstString m [str "id"; str "identifier"; str "uid";
                                 str "axPath"; str "path";
                                 str "accessibilityIdentifier"] in
        let id := if isEmpty id then str "axpath:" ++ candidateNode.Path node
                  else id in
        let role := firstString m [str "role"; str "type"; str "elementType";
                                   str "axRole"; str "roleDescription";
                                   str "AXRole"; str "wdType"] in
        let label := firstString m [str "label"; str "name"; str "title";
                                    str "placeholder"; str "accessibilityLabel";
                                    str "axLabel"; str "AXLabel"; str "wdLabel"] in
        let value := firstString m [str "value"; str "text"; str "axValue";
                                    str "AXValue"; str "displayValue";
                                    str "wdValue"; str "selectedText"] in
        let label := if isEmpty label && negb (isEmpty value) then value
                     else label in
        let enabled := firstBoolWithDefault m [str "enabled"; str "isEnabled"] true in
        let focused := firstBoolWithDefault m [str "focused"; str "isFocused";
                                               str "hasFocus"; str "AXFocused"]
                         false in
        Some (Element.mk 0 id role label value [] enabled focused true false rect
                (FramePoint.mk (FrameRect.X rect + FrameRect.W rect / 2)
                   (FrameRect.Y rect + FrameRect.H rect / 2) (str "pt"))
                (ElementSource.mk (str "idb") (str "describe-all")) 0)
  end.

(** The loop of [inferScreenRect] over the elements: [(minX, minY, maxX, maxY)]. *)
Definition boundsStep (acc : Q * Q * Q * Q) (e : Element.t) : Q * Q * Q * Q :=
  let '(minX, minY, maxX, maxY) := acc in
  let f := Element.Frame e in
  if Qle_bool (FrameRect.W f) 0 || Qle_bool (FrameRect.H f) 0 then acc
  else
    let minX := if Qltb (FrameRect.X f) minX then FrameRect.X f else minX in
    let minY := if Qltb (FrameRect.Y f) minY then FrameRect.Y f else minY in
    let maxX := if Qltb maxX (FrameRect.X f + FrameRect.W f)
                then FrameRect.X f + FrameRect.W f else maxX in
    let maxY := if Qltb maxY (FrameRect.Y f + FrameRect.H f)
                then FrameRect.Y f + FrameRect.H f else maxY in
    (minX, minY, maxX, maxY).

Definition inferScreenRect (rawUI : any) (elements : list Element.t)
  : FrameRect.t :=
  let fromRoot :=
    match rawUI with
    | VMap root =>
        match findRect root with
        | Some rect =>
            if Qltb 0 (FrameRect.W rect) && Qltb 0 (FrameRect.H rect)
            then Some rect else None
        | None => None
        end
    | _ => None
    end in
  match fromRoot with
  | Some rect => rect
  | None =>
      let '(minX, minY, maxX, maxY) :=
        fold_left boundsStep elements (MaxFloat64, MaxFloat64, 0, 0) in
      if Qeq_bool minX MaxFloat64 || Qeq_bool minY MaxFloat64
         || Qle_bool maxX minX || Qle_bool maxY minY
      then FrameRect.zero
      else FrameRect.mk minX minY (maxX - minX) (maxY - minY) (str "pt")
  end.

Definition classifyVisibility (rect screen : FrameRect.t) : bool * bool :=
  if Qle_bool (FrameRect.W rect) 0 || Qle_bool (FrameRect.H rect) 0
  then (false, true)
  else if Qle_bool (FrameRect.W screen) 0 || Qle_bool (FrameRect.H screen) 0
  then (true, false)
  else
    let screenRight := FrameRect.X screen + FrameRect.W screen in
    let screenBottom := FrameRect.Y screen + FrameRect.H screen in
    let rectRight := FrameRect.X rect + FrameRect.W rect in
    let rectBottom := FrameRect.Y rect + FrameRect.H rect in
    let interLeft := Qmax (FrameRect.X rect) (FrameRect.X screen) in
    let interTop := Qmax (FrameRect.Y rect) (FrameRect.Y screen) in
    let interRight := Qmin rectRight screenRight in
    let interBottom := Qmin rectBottom screenBottom in
    if Qle_bool interRight interLeft || Qle_bool interBottom interTop
    then (false, true)
    else
      let offscreen :=
        Qltb (FrameRect.X rect) (FrameRect.X screen)
        || Qltb (FrameRect.Y rect) (FrameRect.Y screen)
        || Qltb screenRight rectRight || Qltb screenBottom rectBottom in
      (true, offscreen).

(** The inner loop of [addNearbyLabels] for the element at index [i]:
    [(bestIdx, bestScore)], the score being the squared distance. *)
Definition nearbyStep (i : nat) (ei : Element.t) (acc : Z * Q)
  (jej : nat * Element.t) : Z * Q :=
  let '(j, ej) := jej in
  if Nat.eqb i j then acc
  else
    let label := strings.TrimSpace (Element.Label ej) in
    if isEmpty label || negb (Element.Visible ej) then acc
    else
      let dx := FramePoint.X (Element.Center ei) - FramePoint.X (Element.Center ej) in
      let dy := FramePoint.Y (Element.Center ei) - FramePoint.Y (Element.Center ej) in
      let distance := hypotSq dx dy in
      if Qltb (220 * 220) distance then acc
      else if Qltb distance (snd acc) then (Z.of_nat j, distance)
      else acc.

Definition enumerate {A} (l : list A) : list (nat * A) :=
  combine (seq 0 (List.length l)) l.

Definition nearbyBest (elements : list Element.t) (i : nat) (ei : Element.t)
  : Z * Q :=
  fold_left (nearbyStep i ei) (enumerate elements)
    ((-1)%Z, MaxFloat64 * MaxFloat64).

(** One round of the outer loop of [addNearbyLabels]. *)
Definition addNearbyLabelsStep (elements : list Element.t) (i : nat)
  : list Element.t :=
  match nth_error elements i with
  | None => elements
  | Some ei =>
      if negb (isEmpty (strings.TrimSpace (Element.Label ei))) then elements
      else
        let bestIdx := fst (nearbyBest elements i ei) in
        if (bestIdx >=? 0)%Z then
          match nth_error elements (Z.to_nat bestIdx) with
          | Some eb =>
              updateAt i (Element.setNearbyLabel ei (Element.Label eb)) elements
          | None => elements
          end
        else elements
  end.

Definition addNearbyLabels (elements : list Element.t) : list Element.t :=
  fold_left addNearbyLabelsStep (seq 0 (List.length elements)) elements.

(** The first loop of [normalizeElements]: the filters, the two counters and
    the discovery order. *)
Definition filterStep (opts : frameOptions.t)
  (st : list Element.t * Z * Z) (node : candidateNode.t)
  : list Element.t * Z * Z :=
  let '(allCandidates, allCount, interactiveCount) := st in
  match elementFromCandidate node with
  | None => st
  | Some elem =>
      if Qltb (FrameRect.W (Element.Frame elem) * FrameRect.H (Element.Frame elem))
              (frameOptions.MinArea opts)
      then st
      else
        let roleKey := strings.ToLower (strings.TrimSpace (Element.Role elem)) in
        if (len (frameOptions.IncludeRoles opts) >? 0)%Z
           && negb (mapGetBool (frameOptions.IncludeRoles opts) roleKey)
        then st
        else if mapGetBool (frameOptions.ExcludeRoles opts) roleKey then st
        else if negb (Element.Enabled elem) then st
        else
          let allCount := (allCount + 1)%Z in
          let isInteractive := isInteractiveRole (Element.Role elem) in
          let interactiveCount :=
            if isInteractive then (interactiveCount + 1)%Z else interactiveCount in
          if frameOptions.InteractiveOnly opts && negb isInteractive
          then (allCandidates, allCount, interactiveCount)
          else (allCandidates ++ [Element.setOrder elem (candidateNode.Order node)],
                allCount, interactiveCount)
  end.

Definition lessReading (a b : Element.t) : bool :=
  if negb (Qeq_bool (FramePoint.Y (Element.Center a)) (FramePoint.Y (Element.Center b)))
  then Qltb (FramePoint.Y (Element.Center a)) (FramePoint.Y (Element.Center b))
  else if negb (Qeq_bool (FramePoint.X (Element.Center a))
                  (FramePoint.X (Element.Center b)))
  then Qltb (FramePoint.X (Element.Center a)) (FramePoint.X (Element.Center b))
  else strlt (Element.ID a) (Element.ID b).

Definition lessStable (a b : Element.t) : bool :=
  strlt (Element.ID a) (Element.ID b).

Definition lessZ (a b : Element.t) : bool :=
  (Element.order a <? Element.order b)%Z.

(** [for i := range allCandidates { allCandidates[i].Index = i + 1 }], from
    index [i] on. *)
Fixpoint assignIndexFrom (i : Z) (l : list Element.t) : list Element.t :=
  match l with
  | [] => []
  | e :: rest => Element.setIndex e (i + 1)%Z :: assignIndexFrom (i + 1)%Z rest
  end.

(** [normalizeElements] up to the assignment of the indices. *)
Definition indexedCandidates (rawUI : any) (opts : frameOptions.t)
  : list Element.t * Z * Z :=
  let nodes := snd (walkCandidates rawUI [] (0%Z, [])) in
  let '(allCandidates, allCount, interactiveCount) :=
    fold_left (filterStep opts) nodes ([], 0%Z, 0%Z) in
  let screenRect := inferScreenRect rawUI allCandidates in
  let allCandidates :=
    List.map (fun e => Element.setVisibility e
                         (classifyVisibility (Element.Frame e) screenRect))
      allCandidates in
  let allCandidates :=
    if streq (frameOptions.Order opts) (str "reading")
    then sortSlice lessReading allCandidates
    else if streq (frameOptions.Order opts) (str "stable")
    then sortSlice lessStable allCandidates
    else if streq (frameOptions.Order opts) (str "z")
    then sortSlice lessZ allCandidates
    else allCandidates in
  (assignIndexFrom 0 allCandidates, allCount, interactiveCount).

Definition normalizeElements (rawUI : any) (opts : frameOptions.t)
  : list Element.t * Z * Z :=
  let '(allCandidates, allCount, interactiveCount) :=
    indexedCandidates rawUI opts in
  (addNearbyLabels allCandidates, allCount, interactiveCount).

End Normalizer.

(* ================================================================= *)
(** ** Errors *)

Definition usageError (msg : gostring) : AppError.t :=
  AppError.mk (str "USAGE") msg [].

Definition notFoundError (msg : gostring) : AppError.t :=
  AppError.mk (str "ELEMENT_NOT_FOUND") msg [].

(** [details[k] = v] on a [map[string]any]. *)
Fixpoint mapSet {V} (m : list (gostring * V)) (k : gostring) (v : V)
  : list (gostring * V) :=
  match m with
  | [] => [(k, v)]
  | (k', v') :: rest =>
      if streq k' k then (k, v) :: rest else (k', v') :: mapSet rest k v
  end.

(** [wrapAppErrCode], on an error that is already an [AppError]. *)
Definition wrapAppErrCode (appErr : AppError.t) (code msg : gostring)
  : AppError.t :=
  if streq (AppError.Code appErr) code then appErr
  else
    let details := AppError.Details appErr in
    let details := mapSet details (str "causeCode") (DString (AppError.Code appErr)) in
    let details :=
      mapSet details (str "causeMessage") (DString (AppError.Message appErr)) in
    AppError.mk code msg details.

(** [renderError]. *)
Definition renderError (appErr : AppError.t) : detail :=
  let out := [(str "code", DString (AppError.Code appErr));
              (str "message", DString (AppError.Message appErr))] in
  if (len (AppError.Details appErr) >? 0)%Z
  then DMap (out ++ [(str "details", DMap (AppError.Details appErr))])
  else DMap out.

(* ================================================================= *)
(** ** Selector resolver *)

Module candidate.
Record t := mk { Element : Element.t; Score : Z }.
End candidate.

Section Selectors.
Context `{GoLib}.

Definition pickElement (elements : list Element.t) (index : Z) (id : gostring)
  : result Element.t :=
  if (index >=? 0)%Z then
    match find (fun e => (Element.Index e =? index)%Z) elements with
    | Some e => Ok e
    | None => Err (notFoundError (str "element index not found: " ++ itoa index))
    end
  else if negb (isEmpty id) then
    match find (fun e => streq (Element.ID e) id) elements with
    | Some e => Ok e
    | None => Err (notFoundError (str "element id not found: " ++ id))
    end
  else Err (usageError (str "index or id is required")).

Definition countElementSelectors (index : Z) (id label contains : gostring) : Z :=
  let count := 0%Z in
  let count := if (index >=? 0)%Z then (count + 1)%Z else count in
  let count := if negb (isEmpty (strings.TrimSpace id)) then (count + 1)%Z else count in
  let count :=
    if negb (isEmpty (strings.TrimSpace label)) then (count + 1)%Z else count in
  let count :=
    if negb (isEmpty (strings.TrimSpace contains)) then (count + 1)%Z else count in
  count.

Definition elementText (elem : Element.t) : gostring :=
  let parts := [strings.TrimSpace (Element.Label elem);
                strings.TrimSpace (Element.Value elem);
                strings.TrimSpace (Element.NearbyLabel elem);
                strings.TrimSpace (Element.Role elem)] in
  strings.ToLower (strings.Join parts (str " ")).

(** The body of the loop of [pickElementByText] for one element: its
    candidate, or [None] where the loop [continue]s. *)
Definition scoreCandidate (exactLabel partial : gostring) (elem : Element.t)
  : option candidate.t :=
  if negb (Element.Enabled elem) then None
  else
    let score := 0%Z in
    let afterLabel :=
      if negb (isEmpty exactLabel) then
        let hitLabel :=
          strings.EqualFold (strings.TrimSpace (Element.Label elem)) exactLabel in
        let hitValue :=
          strings.EqualFold (strings.TrimSpace (Element.Value elem)) exactLabel in
        let hitNearby :=
          strings.EqualFold (strings.TrimSpace (Element.NearbyLabel elem))
            exactLabel in
        let score := if hitLabel then (score + 90)%Z else score in
        let score := if hitValue then (score + 75)%Z else score in
        let score := if hitNearby then (score + 55)%Z else score in
        let exactHit := hitLabel || hitValue || hitNearby in
        if negb exactHit then None else Some score
      else Some score in
    match afterLabel with
    | None => None
    | Some score =>
        let afterPartial :=
          if negb (isEmpty partial) then
            let text := strings.ToLower (elementText elem) in
            if negb (strings.Contains text partial) then None
            else Some (score + 45)%Z
          else Some score in
        match afterPartial with
        | None => None
        | Some score =>
            let score := if Element.Visible elem then (score + 24)%Z else score in
            let score :=
              if negb (Element.Offscreen elem) then (score + 10)%Z else score in
            let score :=
              if isInteractiveRole (Element.Role elem) then (score + 15)%Z
              else score in
            let score :=
              if negb (isEmpty (strings.TrimSpace (Element.Label elem)))
              then (score + 8)%Z else score in
            Some (candidate.mk elem score)
        end
    end.

Fixpoint collectCandidates (exactLabel partial : gostring)
  (elements : list Element.t) : list candidate.t :=
  match elements with
  | [] => []
  | elem :: rest =>
      match scoreCandidate exactLabel partial elem with
      | Some c => c :: collectCandidates exactLabel partial rest
      | None => collectCandidates exactLabel partial rest
      end
  end.

(** The [less] of the [sort.Slice] call of [pickElementByText]. *)
Definition candidateLess (a b : candidate.t) : bool :=
  if negb (candidate.Score a =? candidate.Score b)%Z
  then (candidate.Score a >? candidate.Score b)%Z
  else (Element.Index (candidate.Element a) <? Element.Index (candidate.Element b))%Z.

Definition pickElementByText (elements : list Element.t)
  (exactLabel partial : gostring) : result Element.t :=
  let exactLabel := strings.ToLower (strings.TrimSpace exactLabel) in
  let partial := strings.ToLower (strings.TrimSpace partial) in
  let candidates := collectCandidates exactLabel partial elements in
  if (len candidates =? 0)%Z then
    if negb (isEmpty exactLabel)
    then Err (notFoundError (str "element label not found: " ++ exactLabel))
    else Err (notFoundError (str "element text not found: " ++ partial))
  else
    match sortSlice candidateLess candidates with
    | c :: _ => Ok (candidate.Element c)
    | [] => Err (notFoundError [])
    end.

Definition pickElementBySelectors (elements : list Element.t) (index : Z)
  (id label contains : gostring) : result Element.t :=
  let label := strings.TrimSpace label in
  let contains := strings.TrimSpace contains in
  let id := strings.TrimSpace id in
  let n := countElementSelectors index id label contains in
  if (n =? 0)%Z then
    Err (usageError (str "selector is required: --index|--id|--label|--contains"))
  else if (n =? 1)%Z then
    if (index >=? 0)%Z || negb (isEmpty id) then pickElement elements index id
    else pickElementByText elements label contains
  else
    Err (usageError (str "choose only one selector: --index|--id|--label|--contains")).

(** The element lookup of [cmdUI]'s [swipe] case: the start point of the
    swipe.  [loaded] is what [loadElementsAndTransform] returns for the [--from] path; the
    command reads it twice, and both reads are taken to return the same. *)
Definition swipeStart (index : Z) (id : gostring)
  (loaded : result (list Element.t * Transform.t)) : result (Q * Q) :=
  let startX := 196 in
  let startY := 426 in
  let '(startX, startY) :=
    match loaded with
    | Ok (_, transform) =>
        let startX :=
          if Qltb 0 (Transform.W (Transform.Screen transform))
          then Transform.W (Transform.Screen transform) / 2 else startX in
        let startY :=
          if Qltb 0 (Transform.H (Transform.Screen transform))
          then Transform.H (Transform.Screen transform) / 2 else startY in
        (startX, startY)
    | Err _ => (startX, startY)
    end in
  if (index >=? 0)%Z || negb (isEmpty id) then
    match loaded with
    | Err err => Err err
    | Ok (elements, _) =>
        match pickElement elements index id with
        | Err err => Err err
        | Ok elem =>
            Ok (FramePoint.X (Element.Center elem), FramePoint.Y (Element.Center elem))
        end
    end
  else Ok (startX, startY).

End Selectors.

(* ================================================================= *)
(** ** Focus controller *)

(** The variables of the loop of [focusElementWithRetry]. *)
Module focusLoop.
Record t := mk {
  target : Element.t;
  focusPoint : FramePoint.t;
  lastReason : gostring;
  lastSnapshot : option elementSnapshot.t;
  lastErr : option AppError.t
}.
End focusLoop.

Section Focus.
Context `{GoLib}.

Definition focusPointForElement (elem : Element.t) : FramePoint.t :=
  if negb (isTextInputRole (Element.Role elem)) then Element.Center elem
  else if Qle_bool (FrameRect.W (Element.Frame elem)) 0 then Element.Center elem
  else
    let inset := Qmax 8 (Qmin (FrameRect.W (Element.Frame elem) * (2 # 10)) 28) in
    let x := FrameRect.X (Element.Frame elem) + inset in
    let maxX :=
      FrameRect.X (Element.Frame elem) + FrameRect.W (Element.Frame elem) - 8 in
    let x := if Qltb maxX x then FramePoint.X (Element.Center elem) else x in
    FramePoint.mk x (FramePoint.Y (Element.Center elem)) (str "pt").

(** The second loop of [findBestVerificationTarget]:
    [(best, found, bestScore)], the score being the squared distance. *)
Definition nearestTextInputStep (focused : Element.t)
  (acc : Element.t * bool * Q) (elem : Element.t) : Element.t * bool * Q :=
  let '(best, found, bestScore) := acc in
  if negb (isTextInputRole (Element.Role elem)) then acc
  else
    let dx := FramePoint.X (Element.Center elem) - FramePoint.X (Element.Center focused) in
    let dy := FramePoint.Y (Element.Center elem) - FramePoint.Y (Element.Center focused) in
    let score := hypotSq dx dy in
    if Qltb score bestScore then (elem, true, score) else acc.

Definition findBestVerificationTarget (elements : list Element.t)
  (focused : Element.t) : Element.t * bool :=
  let byID :=
    if negb (isEmpty (strings.TrimSpace (Element.ID focused)))
    then find (fun elem => streq (Element.ID elem) (Element.ID focused)) elements
    else None in
  match byID with
  | Some elem => (elem, true)
  | None =>
      let '(best, found, _) :=
        fold_left (nearestTextInputStep focused) elements
          (Element.zero, false, MaxFloat64 * MaxFloat64) in
      (best, found)
  end.

(** The loop of [canTrustFocus], [hasFocused] being its flag so far. *)
Fixpoint canTrustFocusLoop (elements : list Element.t) (target : Element.t)
  (hasFocused : bool) : bool :=
  match elements with
  | [] => negb hasFocused
  | elem :: rest =>
      if negb (Element.Focused elem) then canTrustFocusLoop rest target hasFocused
      else
        let dx := FramePoint.X (Element.Center elem) - FramePoint.X (Element.Center target) in
        let dy := FramePoint.Y (Element.Center elem) - FramePoint.Y (Element.Center target) in
        if isEmpty (strings.TrimSpace (Element.ID target))
           && Qle_bool (hypotSq dx dy) (24 * 24)
        then true
        else if streq (Element.ID elem) (Element.ID target) then true
        else canTrustFocusLoop rest target true
  end.

Definition canTrustFocus (elements : list Element.t) (target : Element.t) : bool :=
  canTrustFocusLoop elements target false.

(** What the simulator answers to one attempt of [focusElementWithRetry]: the
    tap fails, or the tap succeeds and the snapshot fails, or both succeed. *)
Inductive attemptOutcome : Type :=
| TapFailed (err : AppError.t)
| SnapshotFailed (err : AppError.t)
| Snapshot (snapshot : elementSnapshot.t).

Definition focusFailure (elem : Element.t) (retries : Z) (st : focusLoop.t)
  : AppError.t :=
  let details := [(str "selectorId", DString (strings.TrimSpace (Element.ID elem)));
                  (str "attempts", DInt retries)] in
  let details :=
    if negb (isEmpty (strings.TrimSpace (focusLoop.lastReason st)))
    then mapSet details (str "reason") (DString (focusLoop.lastReason st))
    else details in
  let details :=
    match focusLoop.lastErr st with
    | Some err => mapSet details (str "lastError") (renderError err)
    | None => details
    end in
  let details :=
    match focusLoop.lastSnapshot st with
    | Some snapshot =>
        mapSet details (str "interactive")
          (DInt (elementSnapshot.InteractiveCount snapshot))
    | None => details
    end in
  AppError.mk (str "TYPE_FOCUS_FAILED")
    (str "failed to verify focus target after retries") details.

(** The loop of [focusElementWithRetry]: [remaining] attempts are left, the
    next one being number [attempt]; [world attempt] is the simulator's
    answer to it.  The settle delay is not modelled. *)
Fixpoint focusAttempts (world : Z -> attemptOutcome) (elem : Element.t)
  (retries : Z) (remaining : nat) (attempt : Z) (st : focusLoop.t)
  : result Element.t :=
  match remaining with
  | O => Err (focusFailure elem retries st)
  | S remaining' =>
      let next := focusAttempts world elem retries remaining' (attempt + 1)%Z in
      match world attempt with
      | TapFailed err =>
          next (focusLoop.mk (focusLoop.target st) (focusLoop.focusPoint st)
                  (focusLoop.lastReason st) (focusLoop.lastSnapshot st)
                  (Some (wrapAppErrCode err (str "IDB_UI_FAILED")
                           (str "focus tap failed"))))
      | SnapshotFailed err =>
          next (focusLoop.mk (focusLoop.target st) (focusLoop.focusPoint st)
                  (focusLoop.lastReason st) (focusLoop.lastSnapshot st) (Some err))
      | Snapshot snapshot =>
          let '(matched, ok) :=
            findBestVerificationTarget (elementSnapshot.Elements snapshot)
              (focusLoop.target st) in
          if negb ok then
            next (focusLoop.mk (focusLoop.target st) (focusLoop.focusPoint st)
                    (str "target element not found after tap") (Some snapshot)
                    (focusLoop.lastErr st))
          else
            let target := matched in
            let focusPoint := focusPointForElement target in
            if canTrustFocus (elementSnapshot.Elements snapshot) matched
            then Ok (Element.setCenter target focusPoint)
            else
              next (focusLoop.mk target focusPoint
                      (str "focus moved to different element") (Some snapshot)
                      (focusLoop.lastErr st))
      end
  end.

Definition focusElementWithRetry (world : Z -> attemptOutcome)
  (elem : Element.t) (retries : Z) : result Element.t :=
  let retries := if (retries <=? 0)%Z then 1%Z else retries in
  let target := elem in
  let focusPoint := focusPointForElement target in
  focusAttempts world elem retries (Z.to_nat retries) 1%Z
    (focusLoop.mk target focusPoint [] None None).

End Focus.

(* ================================================================= *)
(** ** Stability sampler *)

Fixpoint allStringsEqualLoop (base : gostring) (rest : list gostring) : bool :=
  match rest with
  | [] => true
  | v :: rest' => if negb (streq v base) then false else allStringsEqualLoop base rest'
  end.

Definition allStringsEqual (values : list gostring) : bool :=
  if (len values <=? 1)%Z then true
  else
    match values with
    | [] => true
    | base :: rest => allStringsEqualLoop base rest
    end.

(** The sampling loop of [captureStableUISamples]: [captureUISample i] is the
    result of the call made in round [i] (a subprocess call, normalised and
    hashed); the sleep between two rounds is not modelled. *)
Fixpoint captureLoop (captureUISample : Z -> result frameUISample.t)
  (remaining : nat) (i : Z) (samples : list frameUISample.t)
  (hashes : list gostring)
  : result (list frameUISample.t * list gostring) :=
  match remaining with
  | O => Ok (samples, hashes)
  | S remaining' =>
      match captureUISample i with
      | Err err => Err err
      | Ok sample =>
          captureLoop captureUISample remaining' (i + 1)%Z (samples ++ [sample])
            (hashes ++ [frameUISample.Hash sample])
      end
  end.

Definition captureStableUISamples (captureUISample : Z -> result frameUISample.t)
  (opts : frameOptions.t) : result (list frameUISample.t) :=
  match captureLoop captureUISample
          (Z.to_nat (frameOptions.StableSamples opts)) 0%Z [] [] with
  | Err err => Err err
  | Ok (samples, hashes) =>
      if negb (allStringsEqual hashes) then
        Err (AppError.mk (str "FRAME_UNSTABLE")
               (str "ui tree changed during stable sampling")
               [(str "hashes", DStrings hashes);
                (str "samples", DInt (frameOptions.StableSamples opts));
                (str "interval", DDuration (frameOptions.StableInterval opts))])
      else Ok samples
  end.

(* ================================================================= *)
(** ** An instance of the library for evaluating examples *)

Definition asciiToLower (r : rune) : rune :=
  if ((65 <=? r) && (r <=? 90))%Z then (r + 32)%Z else r.

(** Plain decimal numerals: an optional sign, digits, an optional fraction. *)
Fixpoint digitsValue (acc : Z) (s : gostring) : option Z :=
  match s with
  | [] => Some acc
  | c :: rest =>
      if ((48 <=? c) && (c <=? 57))%Z then digitsValue (acc * 10 + (c - 48))%Z rest
      else None
  end.

Fixpoint splitAtDot (s : gostring) : gostring * option gostring :=
  match s with
  | [] => ([], None)
  | c :: rest =>
      if (c =? 46)%Z then ([], Some rest)
      else let '(a, b) := splitAtDot rest in (c :: a, b)
  end.

Definition parseDecimal (s : gostring) : option Q :=
  let '(neg, body) :=
    match s with
    | c :: rest => if (c =? 45)%Z then (true, rest) else (false, s)
    | [] => (false, s)
    end in
  let '(ints, frac) := splitAtDot body in
  let fracDigits := match frac with Some f => f | None => [] end in
  if isEmpty ints then None
  else
    match digitsValue 0 (ints ++ fracDigits) with
    | Some n =>
        let q := n # Pos.pow 10 (Pos.of_nat (List.length fracDigits)) in
        let q := match fracDigits with [] => inject_Z n | _ => q end in
        Some (if neg then - q else q)
    | None => None
    end.

(** ASCII case mapping and plain decimal numerals: what Go's functions
    return on the ASCII texts and numerals of the examples below. *)
Definition exampleLib : GoLib :=
  {| unicode_ToLower := asciiToLower;
     unicode_FoldEq := fun a b => (asciiToLower a =? asciiToLower b)%Z;
     strconv_ParseFloat := parseDecimal |}.

(* ================================================================= *)
(** ** The specification's words *)

(** *** Visibility *)





Definition positiveSize (r : FrameRect.t) : Prop :=
  0 < FrameRect.W r /\ 0 < FrameRect.H r.


(** *** Nearby labels *)

(** The squared distance between the centres of two elements. *)
Definition centerDistSq (a b : Element.t) : Q :=
  hypotSq (FramePoint.X (Element.Center a) - FramePoint.X (Element.Center b))
          (FramePoint.Y (Element.Center a) - FramePoint.Y (Element.Center b)).


(** The element [ei] after its own round of [addNearbyLabels], run on
    [elements]. *)
Definition withNearbyLabel (elements : list Element.t) (i : nat) (ei : Element.t)
  : Element.t :=
  if negb (isEmpty (strings.TrimSpace (Element.Label ei))) then ei
  else
    let bestIdx := fst (nearbyBest elements i ei) in
    if (bestIdx >=? 0)%Z then
      match nth_error elements (Z.to_nat bestIdx) with
      | Some eb => Element.setNearbyLabel ei (Element.Label eb)
      | None => ei
      end
    else ei.

Fixpoint mapFrom {A B} (f : nat -> A -> B) (start : nat) (l : list A) : list B :=
  match l with
  | [] => []
  | x :: rest => f start x :: mapFrom f (S start) rest
  end.

(** The slice after the first [m] rounds of [addNearbyLabels]. *)
Definition nearbyAfter (elements : list Element.t) (m : nat) : list Element.t :=
  mapFrom (fun i e => if (i <? m)%nat then withNearbyLabel elements i e else e)
    0 elements.

(** [b] is [a] but for its nearby label. *)
Definition sameButNearby (a b : Element.t) : Prop :=
  b = Element.setNearbyLabel a (Element.NearbyLabel b).


(** *** Scored match *)

Inductive textQuery : Type :=
| LabelQuery (label : gostring)
| ContainsQuery (text : gostring).

Definition points (b : bool) (n : Z) : Z := if b then n else 0%Z.

Section ScoredMatch.
Context `{GoLib}.

(** The text a query is compared with: trimmed and lower-cased. *)
Definition queryText (q : textQuery) : gostring :=
  match q with
  | LabelQuery label => strings.ToLower (strings.TrimSpace label)
  | ContainsQuery text => strings.ToLower (strings.TrimSpace text)
  end.

(** An exact match: the whole field, trimmed, is the query up to case. *)
Definition exactMatch (field query : gostring) : bool :=
  strings.EqualFold (strings.TrimSpace field) query.

(** A substring hit on the concatenated label, value, nearby label and role. *)
Definition substringHit (e : Element.t) (query : gostring) : bool :=
  strings.Contains (strings.ToLower (elementText e)) query.

Definition specScore (q : textQuery) (e : Element.t) : Z :=
  (match q with
   | LabelQuery _ =>
       points (exactMatch (Element.Label e) (queryText q)) 90
       + points (exactMatch (Element.Value e) (queryText q)) 75
       + points (exactMatch (Element.NearbyLabel e) (queryText q)) 55
   | ContainsQuery _ => points (substringHit e (queryText q)) 45
   end
   + points (Element.Visible e) 24
   + points (negb (Element.Offscreen e)) 10
   + points (isInteractiveRole (Element.Role e)) 15
   + points (negb (isEmpty (strings.TrimSpace (Element.Label e)))) 8)%Z.

Definition specCandidate (q : textQuery) (e : Element.t) : bool :=
  Element.Enabled e
  && match q with
     | LabelQuery _ =>
         exactMatch (Element.Label e) (queryText q)
         || exactMatch (Element.Value e) (queryText q)
         || exactMatch (Element.NearbyLabel e) (queryText q)
     | ContainsQuery _ => substringHit e (queryText q)
     end.

(** How [pickElementBySelectors] hands a label or a contains query to
    [pickElementByText]. *)
Definition resolveTextQuery (q : textQuery) (elements : list Element.t)
  : result Element.t :=
  match q with
  | LabelQuery label => pickElementByText elements label []
  | ContainsQuery text => pickElementByText elements [] text
  end.

(** The two arguments of the loop of [pickElementByText] for a query. *)
Definition labelArg (q : textQuery) : gostring :=
  match q with LabelQuery _ => queryText q | ContainsQuery _ => [] end.

Definition partialArg (q : textQuery) : gostring :=
  match q with LabelQuery _ => [] | ContainsQuery _ => queryText q end.

End ScoredMatch.

(** In a slice sorted by [less], no element is less than an earlier one. *)
Definition notLess {A} (less : A -> A -> bool) (a b : A) : Prop :=
  less a b = false.

(** *** Focus, stability, selectors *)


Definition allSame (values : list gostring) : Prop :=
  forall a b, In a values -> In b values -> a = b.

Definition frameUnstable (hashes : list gostring) (opts : frameOptions.t)
  : AppError.t :=
  AppError.mk (str "FRAME_UNSTABLE") (str "ui tree changed during stable sampling")
    [(str "hashes", DStrings hashes);
     (str "samples", DInt (frameOptions.StableSamples opts));
     (str "interval", DDuration (frameOptions.StableInterval opts))].

Definition chooseOnlyOne : AppError.t :=
  usageError (str "choose only one selector: --index|--id|--label|--contains").


(* ================================================================= *)
(** ** Data of the examples *)

Definition plainElement (index : Z) (id role label : gostring) (visible : bool)
  (frame : FrameRect.t) (centerX centerY : Q) : Element.t :=
  Element.mk index id role label [] [] true false visible false frame
    (FramePoint.mk centerX centerY (str "pt")) ElementSource.zero 0.

(** The elements of [TestPickElementByTextPrefersVisibleInteractive]. *)
Definition testElements : list Element.t :=
  [plainElement 1 (str "hidden") (str "Button") (str "Next") false
     FrameRect.zero 0 0;
   plainElement 2 (str "visible") (str "Button") (str "Next") true
     FrameRect.zero 0 0].

(** The screen of [TestClassifyVisibility]. *)
Definition testScreen : FrameRect.t := FrameRect.mk 0 0 100 100 (str "pt").

Definition swipeElements : list Element.t :=
  [plainElement 1 (str "submit") (str "Button") (str "Submit") true
     (FrameRect.mk 10 20 100 40 (str "pt")) 60 40].

Definition swipeTransform : Transform.t :=
  Transform.mk (Transform.mkScreen 390 844 (str "pt"))
    (Transform.mkScreenshot 1170 2532 (str "px")) 3
    (Transform.mkSafeArea 0 0 0 0 (str "pt")).

(** A field without a label, the label above it, and a label far away. *)
Definition formElements : list Element.t :=
  [plainElement 1 (str "field") (str "TextField") [] true
     (FrameRect.mk 100 100 200 40 (str "pt")) 200 120;
   plainElement 2 (str "caption") (str "StaticText") (str "Email") true
     (FrameRect.mk 100 60 200 30 (str "pt")) 200 75;
   plainElement 3 (str "footer") (str "StaticText") (str "Terms") true
     (FrameRect.mk 100 700 200 30 (str "pt")) 200 715].

Definition stableSample : frameUISample.t :=
  frameUISample.mk VNil formElements 3 1 (str "9f3a").

Definition stableOptions : frameOptions.t :=
  frameOptions.mk true 2 250000000 (str "reading") 0 [] [].

(* ================================================================= *)
(** ** Text preparation and chunked submission *)

(** [runes[i:end]]. *)
Definition slice {A} (l : list A) (i e : Z) : list A :=
  firstn (Z.to_nat (e - i)) (skipn (Z.to_nat i) l).

(** The loop of [splitIntoInputChunks], from index [i] on; it runs at most
    [fuel] rounds, and [len runes] rounds are enough since [chunkRunes] is
    positive where the loop is reached. *)
Fixpoint chunkLoop (fuel : nat) (runes : list rune) (chunkRunes i : Z)
  (chunks : list gostring) : list gostring :=
  match fuel with
  | O => chunks
  | S fuel' =>
      if (i <? len runes)%Z then
        let e := (i + chunkRunes)%Z in
        let e := if (e >? len runes)%Z then len runes else e in
        chunkLoop fuel' runes chunkRunes (i + chunkRunes)%Z
          (chunks ++ [slice runes i e])
      else chunks
  end.

Definition splitIntoInputChunks (text : gostring) (chunkRunes : Z)
  : list gostring :=
  let runes := text in
  if (len runes =? 0)%Z then []
  else if (chunkRunes <=? 0)%Z || (len runes <=? chunkRunes)%Z then [text]
  else chunkLoop (List.length runes) runes chunkRunes 0%Z [].

Definition asciiOnly (s : gostring) : gostring :=
  filter (fun r => (r >=? 32)%Z && (r <=? 126)%Z) s.

Definition prepareTypedText (text : gostring) (asciiMode pasteMode : bool)
  : result (gostring * gostring) :=
  let out := strings.TrimSpace text in
  let prepared :=
    if asciiMode then
      let out := asciiOnly out in
      if isEmpty (strings.TrimSpace out)
      then Err (AppError.mk (str "TYPE_ASCII_EMPTY")
                  (str "text became empty after ASCII normalization") [])
      else Ok out
    else Ok out in
  match prepared with
  | Err err => Err err
  | Ok out =>
      let mode :=
        if pasteMode && asciiMode then str "paste-ascii"
        else if pasteMode then str "paste"
        else if asciiMode then str "ascii"
        else str "type" in
      Ok (out, mode)
  end.

Definition defaultClearKeys : Z := 72.

Definition minInt (a b : Z) : Z := if (a <? b)%Z then a else b.

Definition estimateClearBackspaces (elem : Element.t) : Z :=
  let runes := len (strings.TrimSpace (Element.Value elem)) in
  if (runes <=? 0)%Z then defaultClearKeys
  else if (runes <? 16)%Z then 24%Z
  else if (runes <? 40)%Z then (runes + 12)%Z
  else minInt (runes + 16) 220.
(** A split of [rest] into non-empty pieces of [n] runes, the last one
    possibly shorter. *)
Inductive chunked (n : nat) : list rune -> list gostring -> Prop :=
| chunked_nil : chunked n [] []
| chunked_last (c : gostring) :
    c <> [] -> (List.length c <= n)%nat -> chunked n c [c]
| chunked_cons (c rest : gostring) (cs : list gostring) :
    List.length c = n -> c <> [] -> rest <> [] -> chunked n rest cs ->
    chunked n (c ++ rest) (c :: cs).

(** The runes [asciiOnly] keeps. *)
Definition printable (r : rune) : bool := ((r >=? 32) && (r <=? 126))%Z.

(* ================================================================= *)
(** ** Tap points *)

Section TapPoints.
Context `{GoLib}.

Definition clearPointForElement (elem : Element.t) : FramePoint.t :=
  if negb (isTextInputRole (Element.Role elem)) then Element.Center elem
  else if Qle_bool (FrameRect.W (Element.Frame elem)) 0 then Element.Center elem
  else
    let inset := Qmax 8 (Qmin (FrameRect.W (Element.Frame elem) * (15 # 100)) 24) in
    let x :=
      FrameRect.X (Element.Frame elem) + FrameRect.W (Element.Frame elem) - inset in
    let minX := FrameRect.X (Element.Frame elem) + 6 in
    let x := if Qltb x minX then FramePoint.X (Element.Center elem) else x in
    FramePoint.mk x (FramePoint.Y (Element.Center elem)) (str "pt").

End TapPoints.

Section NearestInv.
Context `{GoLib}.

(** What the second loop of [findBestVerificationTarget] has established
    after the elements [seen]. *)
Definition nearestInv (focused : Element.t) (seen : list Element.t)
  (acc : Element.t * bool * Q) : Prop :=
  let '(best, found, bestScore) := acc in
  (forall e, In e seen -> isTextInputRole (Element.Role e) = true ->
             bestScore <= centerDistSq e focused)
  /\ (found = true ->
      In best seen /\ isTextInputRole (Element.Role best) = true
      /\ bestScore = centerDistSq best focused).

End NearestInv.


(* ================================================================= *)
(** ** What the normalizer keeps *)

Section NormalizerSpec.
Context `{GoLib}.

(** The nodes [normalizeElements] collects, in the order of discovery. *)
Definition discoveredNodes (rawUI : any) : list candidateNode.t :=
  snd (walkCandidates rawUI [] (0%Z, [])).

(** The value of [screenRect] in [normalizeElements]. *)
Definition normalizeScreenRect (rawUI : any) (opts : frameOptions.t)
  : FrameRect.t :=
  inferScreenRect rawUI
    (fst (fst (fold_left (filterStep opts) (discoveredNodes rawUI)
                 ([], 0%Z, 0%Z)))).

(** The node [node] yields the element [elem], and no filter of the first
    loop of [normalizeElements] drops it. *)
Definition kept (opts : frameOptions.t) (node : candidateNode.t)
  (elem : Element.t) : Prop :=
  let roleKey := strings.ToLower (strings.TrimSpace (Element.Role elem)) in
  elementFromCandidate node = Some elem
  /\ Qltb (FrameRect.W (Element.Frame elem) * FrameRect.H (Element.Frame elem))
          (frameOptions.MinArea opts) = false
  /\ (len (frameOptions.IncludeRoles opts) >? 0)%Z
     && negb (mapGetBool (frameOptions.IncludeRoles opts) roleKey) = false
  /\ mapGetBool (frameOptions.ExcludeRoles opts) roleKey = false
  /\ Element.Enabled elem = true
  /\ frameOptions.InteractiveOnly opts
     && negb (isInteractiveRole (Element.Role elem)) = false.

(** The element [e] of the result comes from the node [node]: the element of
    the node with the node's order, the visibility flags of its frame on the
    screen rectangle, an index and a nearby label. *)
Definition comesFrom (rawUI : any) (opts : frameOptions.t) (e : Element.t)
  (node : candidateNode.t) : Prop :=
  exists elem i l,
    kept opts node elem
    /\ e = Element.setNearbyLabel
             (Element.setIndex
                (Element.setVisibility
                   (Element.setOrder elem (candidateNode.Order node))
                   (classifyVisibility (Element.Frame elem)
                      (normalizeScreenRect rawUI opts)))
                i)
             l.



(** The interactive elements of a slice. *)
Definition interactiveElements (elements : list Element.t) : list Element.t :=
  filter (fun e => isInteractiveRole (Element.Role e)) elements.

End NormalizerSpec.

(** A screen with a text field and a button, as [idb ui describe-all] reports
    it. *)
Definition sampleRect (x y w h : string) : any :=
  VMap [(str "x", VNumber (str x)); (str "y", VNumber (str y));
        (str "width", VNumber (str w)); (str "height", VNumber (str h))].

Definition sampleTree : any :=
  VMap [(str "frame", sampleRect "0" "0" "390" "844");
        (str "role", VString (str "Application"));
        (str "children",
         VSlice [VMap [(str "frame", sampleRect "20" "100" "350" "44");
                       (str "role", VString (str "TextField"));
                       (str "label", VString (str "Email"))];
                 VMap [(str "frame", sampleRect "20" "160" "350" "44");
                       (str "role", VString (str "Button"));
                       (str "label", VString (str "Sign in"))]])].

(* ================================================================= *)
(** ** Discovery order *)

(** The number of maps in a decoded value. *)
Fixpoint countMaps (v : any) : Z :=
  match v with
  | VMap m =>
      (1 + (fix fields (m : list (gostring * any)) : Z :=
              match m with
              | [] => 0
              | (_, child) :: rest => countMaps child + fields rest
              end) m)%Z
  | VSlice l =>
      (fix items (l : list any) : Z :=
         match l with
         | [] => 0%Z
         | child :: rest => (countMaps child + items rest)%Z
         end) l
  | _ => 0%Z
  end.

(** The numbers [n + 1], ..., [n + k]. *)
Definition countFrom (n : Z) (k : nat) : list Z :=
  List.map (fun i => (n + Z.of_nat i)%Z) (seq 1 k).



(** What one call of [walkCandidates] adds to the state: a node for each
    map of the value, numbered from the counter on, the value itself first
    when it is a map. *)
Definition walkAdds (v : any) (path : gostring) (st st' : Z * list candidateNode.t)
  : Prop :=
  exists new,
    snd st' = snd st ++ new
    /\ fst st' = (fst st + len new)%Z
    /\ List.map candidateNode.Order new = countFrom (fst st) (List.length new)
    /\ len new = countMaps v
    /\ forall m, v = VMap m ->
         exists rest, new = candidateNode.mk path (fst st + 1)%Z m :: rest.

(* ================================================================= *)
(** ** Fallback pickers and the resolver of input commands *)

Section Fallbacks.
Context `{GoLib}.

Definition containsAnyToken (s : gostring) (tokens : list gostring) : bool :=
  existsb (fun token => strings.Contains s token) tokens.

(** The query of the fallback pickers: the label, or else the text to be
    contained, trimmed and in lower case. *)
Definition fallbackQuery (label contains : gostring) : gostring :=
  let query := strings.ToLower (strings.TrimSpace label) in
  if isEmpty query then strings.ToLower (strings.TrimSpace contains) else query.

(** An element [pickSystemFallbackElement] considers: enabled, visible, in
    the top 180pt, with an interactive or a navigation role. *)
Definition inTopBar (elem : Element.t) : bool :=
  negb (negb (Element.Enabled elem) || negb (Element.Visible elem))
  && negb (Qltb 180 (FrameRect.Y (Element.Frame elem)))
  && negb (negb (isInteractiveRole (Element.Role elem))
           && negb (strings.Contains (strings.ToLower (Element.Role elem))
                      (str "navigation"))).

(** The body of the loop of [pickSystemFallbackElement]: [(best, found)]. *)
Definition systemFallbackStep (rightIntent leftIntent : bool)
  (acc : Element.t * bool) (elem : Element.t) : Element.t * bool :=
  let '(best, found) := acc in
  if negb (Element.Enabled elem) || negb (Element.Visible elem) then acc
  else if Qltb 180 (FrameRect.Y (Element.Frame elem)) then acc
  else if negb (isInteractiveRole (Element.Role elem))
          && negb (strings.Contains (strings.ToLower (Element.Role elem))
                     (str "navigation"))
  then acc
  else if negb found then (elem, true)
  else if Qltb (FramePoint.Y (Element.Center elem)) (FramePoint.Y (Element.Center best))
  then (elem, found)
  else if Qle_bool
            (Qabs (FramePoint.Y (Element.Center elem)
                   - FramePoint.Y (Element.Center best))) 20
  then
    let best :=
      if rightIntent
         && Qltb (FramePoint.X (Element.Center best)) (FramePoint.X (Element.Center elem))
      then elem else best in
    let best :=
      if leftIntent
         && Qltb (FramePoint.X (Element.Center elem)) (FramePoint.X (Element.Center best))
      then elem else best in
    (best, found)
  else acc.

Definition pickSystemFallbackElement (elements : list Element.t)
  (label contains : gostring) : Element.t * bool :=
  let query := fallbackQuery label contains in
  if isEmpty query then (Element.zero, false)
  else
    let rightIntent :=
      containsAnyToken query
        [str "add"; str "done"; str "ok"; str "allow"; str "choose"; str "select";
         []; []; []; []] in
    let leftIntent :=
      containsAnyToken query
        [str "cancel"; str "close"; str "back"; str "dismiss"; []; []; []] in
    if negb rightIntent && negb leftIntent then (Element.zero, false)
    else
      fold_left (systemFallbackStep rightIntent leftIntent) elements
        (Element.zero, false).

(** The score [pickIntentFallbackElement] gives an element it considers. *)
Definition intentScore (query : gostring) (wantBack wantCheck : bool)
  (elem : Element.t) : Z :=
  let score := 0%Z in
  let text := strings.ToLower (elementText elem) in
  let score := if strings.Contains text query then (score + 60)%Z else score in
  let score :=
    if wantBack then
      let score :=
        if Qle_bool (FramePoint.Y (Element.Center elem)) 180
        then (score + 25)%Z else score in
      if Qle_bool (FramePoint.X (Element.Center elem)) 120
      then (score + 20)%Z else score
    else score in
  let score :=
    if wantCheck then
      let score :=
        if strings.Contains (strings.ToLower (Element.Role elem)) (str "switch")
        then (score + 45)%Z else score in
      let score :=
        if Qle_bool (FrameRect.W (Element.Frame elem)) 64
           && Qle_bool (FrameRect.H (Element.Frame elem)) 64
        then (score + 22)%Z else score in
      if containsAnyToken (strings.ToLower (Element.NearbyLabel elem))
           [[]; []; []; str "debug"; []]
      then (score + 28)%Z else score
    else score in
  if isEmpty (strings.TrimSpace (Element.Label elem)) then (score + 10)%Z
  else score.

(** The body of the loop of [pickIntentFallbackElement] for one element: its
    candidate, or [None] where nothing is appended. *)
Definition intentCandidate (query : gostring) (wantBack wantCheck : bool)
  (elem : Element.t) : option candidate.t :=
  if negb (Element.Enabled elem) || negb (Element.Visible elem) then None
  else if negb (isInteractiveRole (Element.Role elem)) then None
  else
    let score := intentScore query wantBack wantCheck elem in
    if (score >? 0)%Z then Some (candidate.mk elem score) else None.

Fixpoint intentCandidates (query : gostring) (wantBack wantCheck : bool)
  (elements : list Element.t) : list candidate.t :=
  match elements with
  | [] => []
  | elem :: rest =>
      match intentCandidate query wantBack wantCheck elem with
      | Some c => c :: intentCandidates query wantBack wantCheck rest
      | None => intentCandidates query wantBack wantCheck rest
      end
  end.

Definition pickIntentFallbackElement (elements : list Element.t)
  (label contains : gostring) : Element.t * bool :=
  let query := fallbackQuery label contains in
  if isEmpty query then (Element.zero, false)
  else
    let wantBack :=
      containsAnyToken query [str "back"; []; []; str "close"; str "dismiss"] in
    let wantCheck :=
      containsAnyToken query
        [str "check"; str "checkbox"; []; []; str "debug"; []; []] in
    if negb wantBack && negb wantCheck then (Element.zero, false)
    else
      let candidates := intentCandidates query wantBack wantCheck elements in
      if (len candidates =? 0)%Z then (Element.zero, false)
      else
        match sortSlice candidateLess candidates with
        | c :: _ => (candidate.Element c, true)
        | [] => (Element.zero, false)
        end.

(** [resolveElementForInput]: [loadElementsAndTransform] reads the files of
    the last frame and [captureElements] asks the simulator; the resolver
    calls each at most once. *)
Definition resolveElementForInput
  (loadElementsAndTransform : gostring -> result (list Element.t * Transform.t))
  (captureElements : result elementSnapshot.t)
  (from : gostring) (index : Z) (id label contains : gostring)
  : result Element.t :=
  let loaded :=
    if negb (isEmpty (strings.TrimSpace from)) || (index >=? 0)%Z
       || negb (isEmpty (strings.TrimSpace id))
    then
      match loadElementsAndTransform from with
      | Err loadErr => Err loadErr
      | Ok (loadedElements, _) => Ok loadedElements
      end
    else
      match loadElementsAndTransform from with
      | Ok (loadedElements, _) => Ok loadedElements
      | Err _ => Ok []
      end in
  match loaded with
  | Err loadErr => Err loadErr
  | Ok elements =>
      match pickElementBySelectors elements index id label contains with
      | Ok elem => Ok elem
      | Err err =>
          match captureElements with
          | Err _ => Err err
          | Ok snapshot =>
              match pickElementBySelectors (elementSnapshot.Elements snapshot)
                      index id label contains with
              | Ok elem => Ok elem
              | Err err =>
                  let '(fallback, ok) :=
                    pickIntentFallbackElement (elementSnapshot.Elements snapshot)
                      label contains in
                  if ok then Ok fallback
                  else
                    let '(fallback, ok) :=
                      pickSystemFallbackElement
                        (elementSnapshot.Elements snapshot) label contains in
                    if ok then Ok fallback else Err err
              end
          end
      end
  end.

(** The sample [matchingTextSamples] reports for an element. *)
Definition textSample (elem : Element.t) : gostring :=
  strings.TrimSpace (Element.Label elem ++ str " " ++ Element.Value elem).

(** The loop of [matchingTextSamples]; it stops at three samples. *)
Fixpoint matchingTextSamplesLoop (elements : list Element.t) (needle : gostring)
  (out : list gostring) : list gostring :=
  match elements with
  | [] => out
  | elem :: rest =>
      if negb (Element.Enabled elem) then matchingTextSamplesLoop rest needle out
      else if strings.Contains (strings.ToLower (elementText elem)) needle then
        let out := out ++ [textSample elem] in
        if (len out >=? 3)%Z then out
        else matchingTextSamplesLoop rest needle out
      else matchingTextSamplesLoop rest needle out
  end.

Definition matchingTextSamples (elements : list Element.t) (needle : gostring)
  : list gostring :=
  if isEmpty needle then [] else matchingTextSamplesLoop elements needle [].

(** An enabled element whose text contains the needle. *)
Definition textMatches (needle : gostring) (elem : Element.t) : bool :=
  Element.Enabled elem
  && strings.Contains (strings.ToLower (elementText elem)) needle.

End Fallbacks.

(** The elements of a navigation bar: a back button and a title. *)
Definition barElements : list Element.t :=
  [plainElement 1 (str "back") (str "Button") [] true
     (FrameRect.mk 8 50 44 44 (str "pt")) 30 72;
   plainElement 2 (str "title") (str "StaticText") (str "Settings") true
     (FrameRect.mk 100 50 190 44 (str "pt")) 195 72].

(* ================================================================= *)
(** ** Text submission *)

(** What the simulator has been asked so far: the chunks sent with
    [idb ui text], in order, and the number of snapshots captured. *)
Module ioState.
Record t := mk { sent : list gostring; captures : Z }.
End ioState.

(** The simulator as [submitTextInput] meets it: the answer to
    [idb ui text chunk] after the chunks sent before ([None]: no error), and
    the result of the next [captureElements] after the chunks sent and the
    snapshots captured before. *)
Module simulator.
Record t := mk {
  uiText : list gostring -> gostring -> option AppError.t;
  snapshot : list gostring -> Z -> result elementSnapshot.t
}.
End simulator.

Section TextSubmission.
Context `{GoLib}.

Definition findFocusedTextInput (elements : list Element.t) : Element.t * bool :=
  match find (fun elem => Element.Enabled elem && Element.Focused elem
                          && isTextInputRole (Element.Role elem)) elements with
  | Some elem => (elem, true)
  | None => (Element.zero, false)
  end.

(** The loop of [typeTextInChunks]; the delay between two chunks is not
    modelled. *)
Fixpoint typeChunks (sim : simulator.t) (chunks : list gostring) (st : ioState.t)
  : option AppError.t * ioState.t :=
  match chunks with
  | [] => (None, st)
  | chunk :: rest =>
      if isEmpty chunk then typeChunks sim rest st
      else
        let st' := ioState.mk (ioState.sent st ++ [chunk]) (ioState.captures st) in
        match simulator.uiText sim (ioState.sent st) chunk with
        | Some err =>
            (Some (wrapAppErrCode err (str "IDB_UI_FAILED") (str "text input failed")),
             st')
        | None => typeChunks sim rest st'
        end
  end.

Definition typeTextInChunks (sim : simulator.t) (text : gostring) (chunkRunes : Z)
  (st : ioState.t) : option AppError.t * ioState.t :=
  typeChunks sim (splitIntoInputChunks text chunkRunes) st.

(** The text [submitTextInput] reads back from an element: its value, or its
    label when the value is blank. *)
Definition observedText (matched : Element.t) : gostring :=
  let observed := strings.TrimSpace (Element.Value matched) in
  if isEmpty observed then strings.TrimSpace (Element.Label matched) else observed.

(** The verification rounds of [submitTextInput]: [remaining] rounds are left,
    the next one being number [attempt]; after the last one comes the check
    that follows the loop.  [None] stands for a run-time panic, which
    [typedMissingSuffix] never raises.  The settle delay is not modelled. *)
Fixpoint verifyRounds (sim : simulator.t) (text : gostring) (remaining : nat)
  (attempt : Z) (target : Element.t) (lastObserved : gostring) (st : ioState.t)
  : option (option AppError.t * ioState.t) :=
  match remaining with
  | O =>
      match typedMissingSuffix text lastObserved with
      | None => None
      | Some (missing, _) =>
          if negb (isEmpty missing) then
            Some (Some (AppError.mk (str "TYPE_INCOMPLETE")
                          (str "typed text remains incomplete after retries")
                          [(str "intended", DString text);
                           (str "observed", DString lastObserved);
                           (str "missing", DString missing)]),
                  st)
          else Some (None, st)
      end
  | S remaining' =>
      let st1 := ioState.mk (ioState.sent st) (ioState.captures st + 1)%Z in
      match simulator.snapshot sim (ioState.sent st) (ioState.captures st) with
      | Err err => Some (Some err, st1)
      | Ok snapshot =>
          let elements := elementSnapshot.Elements snapshot in
          let '(matched, ok) := findBestVerificationTarget elements target in
          let '(matched, ok) :=
            if negb ok then
              let '(focusedElem, hasFocus) := findFocusedTextInput elements in
              if hasFocus then (focusedElem, true) else (matched, ok)
            else (matched, ok) in
          if negb ok then
            Some (Some (AppError.mk (str "TYPE_VERIFY_FAILED")
                          (str "typed text verification target not found")
                          [(str "intended", DString text);
                           (str "attempt", DInt attempt)]),
                  st1)
          else if isSecureTextInputRole (Element.Role matched) then Some (None, st1)
          else
            let observed := observedText matched in
            match typedMissingSuffix text observed with
            | None => None
            | Some (missing, comparable) =>
                if negb comparable then
                  Some (Some (AppError.mk (str "TYPE_INCOMPLETE")
                                (str "typed text does not match target value prefix")
                                [(str "intended", DString text);
                                 (str "observed", DString observed);
                                 (str "attempt", DInt attempt);
                                 (str "elementId", DString (Element.ID matched))]),
                        st1)
                else if isEmpty missing then Some (None, st1)
                else
                  match typeTextInChunks sim missing 4 st1 with
                  | (Some err, st2) => Some (Some err, st2)
                  | (None, st2) =>
                      verifyRounds sim text remaining' (attempt + 1)%Z matched
                        observed st2
                  end
            end
      end
  end.

Definition submitTextInput (sim : simulator.t) (text : gostring)
  (pasteMode : bool) (focused : option Element.t) (st : ioState.t)
  : option (option AppError.t * ioState.t) :=
  if isEmpty (strings.TrimSpace text) then Some (None, st)
  else
    match typeTextInChunks sim text 4 st with
    | (Some err, st) => Some (Some err, st)
    | (None, st) =>
        let '(target, st) :=
          match focused with
          | Some target => (Some target, st)
          | None =>
              let st1 := ioState.mk (ioState.sent st) (ioState.captures st + 1)%Z in
              match simulator.snapshot sim (ioState.sent st)
                      (ioState.captures st) with
              | Ok snapshot =>
                  let '(focusedElem, ok) :=
                    findFocusedTextInput (elementSnapshot.Elements snapshot) in
                  if ok then (Some focusedElem, st1) else (None, st1)
              | Err _ => (None, st1)
              end
          end in
        match target with
        | None => Some (None, st)
        | Some target =>
            if isSecureTextInputRole (Element.Role target) then Some (None, st)
            else verifyRounds sim text 4 1%Z target [] st
        end
    end.

(** The text has been typed in full as far as the element shows: a secure
    field, or a field whose text equals the intended text, white space
    apart. *)
Definition shownInFull (text : gostring) (matched : Element.t) : Prop :=
  isSecureTextInputRole (Element.Role matched) = true
  \/ stripSpace (observedText matched) = stripSpace text.

(** The errors [submitTextInput] raises itself. *)
Definition submitErrorCode (code : gostring) : Prop :=
  code = str "IDB_UI_FAILED" \/ code = str "TYPE_VERIFY_FAILED"
  \/ code = str "TYPE_INCOMPLETE".

(** The outcome of the verification rounds of [submitTextInput]. *)
Definition verifyOutcome (sim : simulator.t) (text : gostring)
  (st : ioState.t) (r : option AppError.t) (st' : ioState.t) : Prop :=
  (exists more, ioState.sent st' = ioState.sent st ++ more)
  /\ match r with
     | None =>
         exists sent k snapshot matched,
           simulator.snapshot sim sent k = Ok snapshot
           /\ In matched (elementSnapshot.Elements snapshot)
           /\ shownInFull text matched
     | Some err =>
         (exists sent k, simulator.snapshot sim sent k = Err err)
         \/ submitErrorCode (AppError.Code err)
     end.

End TextSubmission.

(** A simulator whose text field drops what the first five chunks carry
    after the tenth rune, and takes later chunks in full. *)
Definition lossyField (shown : gostring) : elementSnapshot.t :=
  elementSnapshot.mk
    [Element.mk 1 (str "email") (str "TextField") [] shown [] true true true
       false (FrameRect.mk 100 100 200 40 (str "pt"))
       (FramePoint.mk 200 120 (str "pt")) ElementSource.zero 0] 1 1.

Definition lossySimulator : simulator.t :=
  simulator.mk (fun _ _ => None)
    (fun sent _ =>
       Ok (lossyField
             (firstn 10 (List.concat (firstn 5 sent))
              ++ List.concat (skipn 5 sent)))).

(* ================================================================= *)
(** ** Live snapshots and the verification of typed text *)

(** [wrapErr]; [err] is the text of the wrapped error, if any. *)
Definition wrapErr (code msg : gostring) (err : option gostring) : AppError.t :=
  match err with
  | None => AppError.mk code msg []
  | Some cause => AppError.mk code msg [(str "cause", DString cause)]
  end.

(** [strings.Fields]: the maximal runs of runes that are not white space;
    [cur] is the run being read. *)
Fixpoint fieldsFrom (cur : gostring) (s : gostring) : list gostring :=
  match s with
  | [] => if isEmpty cur then [] else [cur]
  | r :: rest =>
      if unicode.IsSpace r then
        if isEmpty cur then fieldsFrom [] rest else cur :: fieldsFrom [] rest
      else fieldsFrom (cur ++ [r]) rest
  end.

Definition stringsFields (s : gostring) : list gostring := fieldsFrom [] s.

(** The result of [verifyTypeResult]: the keys [elementId], [label] and
    [value] of its map. *)
Module verifyInfo.
Record t := mk { elementId : gostring; label : gostring; value : gostring }.
End verifyInfo.

Section LiveSnapshots.
Context `{GoLib}.

(** The options [captureElements] normalizes with. *)
Definition captureOptions : frameOptions.t :=
  frameOptions.mk false 0 0 (str "reading") 0 [] [].

(** [captureElements]: [runIDB] is the result of [idb ui describe-all --json],
    its standard output or an error, and [decodeJSONOrWrap] the decoder, which
    returns the value or the text of its error. *)
Definition captureElements (runIDB : result gostring)
  (decodeJSONOrWrap : gostring -> any + gostring) : result elementSnapshot.t :=
  match runIDB with
  | Err err =>
      Err (wrapAppErrCode err (str "IDB_UI_FAILED") (str "failed to capture ui tree"))
  | Ok stdout =>
      match decodeJSONOrWrap stdout with
      | inr parseErr =>
          Err (wrapErr (str "IDB_UI_FAILED") (str "failed to parse ui tree json")
                 (Some parseErr))
      | inl parsed =>
          let '(elements, allCount, _) := normalizeElements parsed captureOptions in
          let interactiveVisible :=
            fold_left
              (fun n elem =>
                 if Element.Enabled elem && Element.Visible elem
                    && isInteractiveRole (Element.Role elem)
                 then (n + 1)%Z else n)
              elements 0%Z in
          Ok (elementSnapshot.mk elements allCount interactiveVisible)
      end
  end.

Definition normalizeTextForMatch (s : gostring) : gostring :=
  strings.ToLower (strings.Join (stringsFields (strings.TrimSpace s)) []).

Definition elementHasTypedText (elem : Element.t) (typedNorm : gostring) : bool :=
  if isEmpty typedNorm then false
  else
    existsb (fun c => strings.Contains (normalizeTextForMatch c) typedNorm)
      [Element.Value elem; Element.Label elem].

Definition verifyInfoOf (elem : Element.t) : verifyInfo.t :=
  verifyInfo.mk (Element.ID elem) (Element.Label elem) (Element.Value elem).

(** [verifyTypeResult]; [capture] is the result of its [captureElements]. *)
Definition verifyTypeResult (capture : result elementSnapshot.t)
  (typedText : gostring) (focused : option Element.t) : result verifyInfo.t :=
  match capture with
  | Err err => Err err
  | Ok snapshot =>
      let elements := elementSnapshot.Elements snapshot in
      let target :=
        match focused with
        | Some f =>
            let '(matched, ok) := findBestVerificationTarget elements f in
            if ok then Some (matched, f) else None
        | None => None
        end in
      let typedNorm := normalizeTextForMatch typedText in
      let byTarget :=
        match target with
        | Some (target, f) =>
            if elementHasTypedText target typedNorm then Some target
            else if isSecureTextInputRole (Element.Role target)
                    && negb (isEmpty (strings.TrimSpace (Element.Value target)))
                    && negb (streq (strings.TrimSpace (Element.Value target))
                               (strings.TrimSpace (Element.Value f)))
            then Some target
            else None
        | None => None
        end in
      match byTarget with
      | Some target => Ok (verifyInfoOf target)
      | None =>
          match find (fun elem => elementHasTypedText elem typedNorm) elements with
          | Some elem => Ok (verifyInfoOf elem)
          | None =>
              Err (AppError.mk (str "TYPE_VERIFY_FAILED")
                     (str "typed text could not be verified from latest ui tree")
                     [(str "typed", DString typedText);
                      (str "interactive",
                       DInt (elementSnapshot.InteractiveCount snapshot))])
          end
      end
  end.

(** The text of [field], lower-cased and without its white space, contains
    that of [typed], which is not blank. *)
Definition showsTyped (typed field : gostring) : Prop :=
  stripSpace typed <> []
  /\ strings.Contains (strings.ToLower (stripSpace field))
       (strings.ToLower (stripSpace typed)) = true.

(** The visible interactive elements of a slice. *)
Definition visibleInteractive (elements : list Element.t) : list Element.t :=
  filter (fun e => Element.Visible e && isInteractiveRole (Element.Role e))
    elements.

End LiveSnapshots.

(* ================================================================= *)
(** ** Condition waiter *)

(** The response of a successful wait: the keys of its map, [hasText] and
    [matches] being present only for a text condition. *)
Module waitResponse.
Record t := mk {
  ok : bool;
  action : gostring;
  attempts : Z;
  elapsedMs : Z;
  interactive : Z;
  hasText : option gostring;
  matches : option (list gostring)
}.
End waitResponse.

(** [time.Duration.Milliseconds], the duration being in nanoseconds. *)
Definition milliseconds (d : Z) : Z := Z.quot d 1000000.

Section Waiter.
Context `{GoLib}.

(** The test of [waitForCondition] on a snapshot. *)
Definition conditionMet (targetText : gostring) (interactiveMin : Z)
  (snapshot : elementSnapshot.t) : bool :=
  let textMatches :=
    matchingTextSamples (elementSnapshot.Elements snapshot) targetText in
  let interactiveOK :=
    (interactiveMin <? 0)%Z
    || (elementSnapshot.InteractiveCount snapshot >=? interactiveMin)%Z in
  let textOK := isEmpty targetText || (len textMatches >? 0)%Z in
  interactiveOK && textOK.

Definition waitTimeout (hasText targetText : gostring) (interactiveMin : Z)
  (attempts elapsed lastInteractive : Z) (lastMatches : list gostring)
  (lastErr : option AppError.t) : AppError.t :=
  let details := [(str "attempts", DInt attempts);
                  (str "elapsedMs", DInt (milliseconds elapsed));
                  (str "interactive", DInt lastInteractive);
                  (str "interactiveMin", DInt interactiveMin)] in
  let details :=
    if negb (isEmpty targetText)
    then mapSet (mapSet details (str "hasText") (DString hasText))
           (str "lastMatches") (DStrings lastMatches)
    else details in
  let details :=
    match lastErr with
    | Some err => mapSet details (str "lastError") (renderError err)
    | None => details
    end in
  AppError.mk (str "WAIT_TIMEOUT") (str "wait condition not met before timeout")
    details.

(** The loop of [waitForCondition].  [captureElements n] is the result of the
    snapshot of attempt [n] and [since n] the [n]-th reading of
    [time.Since(started)]: attempt [n] reads the clock for the [n]-th time,
    for its report when it succeeds and for the test of the timeout when it
    does not, and the report of a timeout reads it once more.  The loop has no
    bound of its own; [fuel] bounds the attempts of the model, [None] being
    a run that needs more.  The sleep is not modelled. *)
Fixpoint waitLoop (fuel : nat) (captureElements : Z -> result elementSnapshot.t)
  (since : Z -> Z) (hasText targetText : gostring) (interactiveMin timeout : Z)
  (attempts lastInteractive : Z) (lastMatches : list gostring)
  : option (result waitResponse.t) :=
  match fuel with
  | O => None
  | S fuel' =>
      let attempts := (attempts + 1)%Z in
      let check lastInteractive lastMatches lastErr :=
        if (since attempts >=? timeout)%Z then
          Some (Err (waitTimeout hasText targetText interactiveMin attempts
                       (since (attempts + 1)%Z) lastInteractive lastMatches
                       lastErr))
        else
          waitLoop fuel' captureElements since hasText targetText interactiveMin
            timeout attempts lastInteractive lastMatches in
      match captureElements attempts with
      | Err snapErr => check lastInteractive lastMatches (Some snapErr)
      | Ok snapshot =>
          let lastInteractive := elementSnapshot.InteractiveCount snapshot in
          let textMatches :=
            matchingTextSamples (elementSnapshot.Elements snapshot) targetText in
          if conditionMet targetText interactiveMin snapshot then
            Some (Ok (waitResponse.mk true (str "wait") attempts
                        (milliseconds (since attempts))
                        (elementSnapshot.InteractiveCount snapshot)
                        (if negb (isEmpty targetText) then Some hasText else None)
                        (if negb (isEmpty targetText) then Some textMatches
                         else None)))
          else check lastInteractive textMatches None
      end
  end.

Definition waitForCondition (fuel : nat)
  (captureElements : Z -> result elementSnapshot.t) (since : Z -> Z)
  (hasText : gostring) (interactiveMin timeout : Z)
  : option (result waitResponse.t) :=
  let targetText := strings.ToLower (strings.TrimSpace hasText) in
  waitLoop fuel captureElements since hasText targetText interactiveMin timeout
    0 0 [].

(** The condition holds in the snapshot of attempt [n]. *)
Definition metAt (captureElements : Z -> result elementSnapshot.t)
  (hasText : gostring) (interactiveMin : Z) (n : Z) : bool :=
  match captureElements n with
  | Ok snapshot =>
      conditionMet (strings.ToLower (strings.TrimSpace hasText)) interactiveMin
        snapshot
  | Err _ => false
  end.

End Waiter.

(* ================================================================= *)
(** ** Flow runner *)

Module uiFlowSelectors.
Record t := mk {
  Index : option Z; ID : gostring; Label : gostring; Contains : gostring }.
End uiFlowSelectors.

Module uiFlowWait.
Record t := mk {
  HasText : gostring; InteractiveMin : option Z; Timeout : gostring;
  Interval : gostring }.
End uiFlowWait.

Module uiFlowStep.
Record t := mk {
  Name : gostring;
  Action : gostring;
  Selectors : uiFlowSelectors.t;
  Text : gostring;
  Into : option bool;
  Verify : bool;
  Replace : bool;
  ASCII : bool;
  Paste : bool;
  Direction : gostring;
  Distance : Q;
  Unit : gostring;
  X : option Q;
  Y : option Q;
  HasText : gostring;
  InteractiveMin : option Z;
  Timeout : gostring;
  Interval : gostring;
  Wait : uiFlowWait.t
}.
End uiFlowStep.

Module uiFlowFile.
Record t := mk { Name : gostring; Steps : list uiFlowStep.t }.
End uiFlowFile.

(** The response of a completed flow: the keys of its map. *)
Module flowResponse.
Record t := mk {
  ok : bool;
  action : gostring;
  name : gostring;
  file : gostring;
  resumeFrom : Z;
  steps : list (list (gostring * detail))
}.
End flowResponse.

Definition selectorsFromFlowStep (step : uiFlowStep.t)
  : Z * gostring * gostring * gostring :=
  let index :=
    match uiFlowSelectors.Index (uiFlowStep.Selectors step) with
    | Some i => i
    | None => (-1)%Z
    end in
  (index,
   strings.TrimSpace (uiFlowSelectors.ID (uiFlowStep.Selectors step)),
   strings.TrimSpace (uiFlowSelectors.Label (uiFlowStep.Selectors step)),
   strings.TrimSpace (uiFlowSelectors.Contains (uiFlowStep.Selectors step))).

(** The error of a failing step, number [n] (counted from 1). *)
Definition flowStepFailed (n : Z) (step : uiFlowStep.t) (stepErr : AppError.t)
  (artifacts : list (gostring * detail)) : AppError.t :=
  AppError.mk (str "FLOW_STEP_FAILED")
    (str "flow step " ++ itoa n ++ str " failed")
    [(str "step", DInt n);
     (str "name", DString (strings.TrimSpace (uiFlowStep.Name step)));
     (str "action", DString (strings.TrimSpace (uiFlowStep.Action step)));
     (str "resumeFrom", DInt n);
     (str "error", renderError stepErr);
     (str "artifacts", DMap artifacts)].

(** The loop of [cmdUIFlow] over the steps from index [i] on.
    [executeFlowStep n step] is the result of executing [step] as step
    number [n], and [captureFailureArtifacts n] what is captured when that
    step fails. *)
Fixpoint flowLoop
  (executeFlowStep : Z -> uiFlowStep.t -> result (list (gostring * detail)))
  (captureFailureArtifacts : Z -> list (gostring * detail))
  (steps : list uiFlowStep.t) (i : Z) (results : list (list (gostring * detail)))
  : result (list (list (gostring * detail))) :=
  match steps with
  | [] => Ok results
  | step :: rest =>
      match executeFlowStep (i + 1)%Z step with
      | Err stepErr =>
          Err (flowStepFailed (i + 1)%Z step stepErr
                 (captureFailureArtifacts (i + 1)%Z))
      | Ok stepResult =>
          let stepResult := mapSet stepResult (str "step") (DInt (i + 1)%Z) in
          let stepResult :=
            mapSet stepResult (str "name")
              (DString (strings.TrimSpace (uiFlowStep.Name step))) in
          flowLoop executeFlowStep captureFailureArtifacts rest (i + 1)%Z
            (results ++ [stepResult])
      end
  end.

(** [cmdUIFlow] once the flags of [ui flow run] are parsed: [file] and
    [resumeFrom] are their values, [nArg] the number of positional arguments
    left, and [readFlow] reads and decodes the flow file. *)
Definition cmdUIFlow (file : gostring) (resumeFrom nArg : Z)
  (readFlow : gostring -> result uiFlowFile.t)
  (executeFlowStep : Z -> uiFlowStep.t -> result (list (gostring * detail)))
  (captureFailureArtifacts : Z -> list (gostring * detail))
  : result flowResponse.t :=
  if isEmpty (strings.TrimSpace file)
  then Err (usageError (str "--file is required"))
  else if (resumeFrom <=? 0)%Z
  then Err (usageError (str "--resume-from must be >= 1"))
  else if negb (nArg =? 0)%Z
  then Err (usageError (str "ui flow run does not accept positional args"))
  else
    match readFlow file with
    | Err err => Err err
    | Ok flow =>
        if (len (uiFlowFile.Steps flow) =? 0)%Z
        then Err (usageError (str "flow file must include at least one step"))
        else if (resumeFrom >? len (uiFlowFile.Steps flow))%Z
        then Err (usageError (str "--resume-from exceeds number of steps"))
        else
          match flowLoop executeFlowStep captureFailureArtifacts
                  (skipn (Z.to_nat (resumeFrom - 1)) (uiFlowFile.Steps flow))
                  (resumeFrom - 1)%Z [] with
          | Err err => Err err
          | Ok results =>
              Ok (flowResponse.mk true (str "flow-run") (uiFlowFile.Name flow)
                    file resumeFrom results)
          end
    end.

(** Step number [n] of the flow (counted from 1). *)
Definition flowStep (flow : uiFlowFile.t) (n : Z) : option uiFlowStep.t :=
  if (n <=? 0)%Z then None
  else nth_error (uiFlowFile.Steps flow) (Z.to_nat (n - 1)).

(** Step number [n] of the flow succeeds when it is executed. *)
Definition stepSucceeds
  (executeFlowStep : Z -> uiFlowStep.t -> result (list (gostring * detail)))
  (flow : uiFlowFile.t) (n : Z) : Prop :=
  exists step stepResult,
    flowStep flow n = Some step /\ executeFlowStep n step = Ok stepResult.

(* ================================================================= *)
(** ** Coordinate transform *)

Section Transform.
Context `{GoLib}.



End Transform.
(** A flow of two steps, and an executor on which the second one fails. *)
Definition sampleStep (name action : string) : uiFlowStep.t :=
  uiFlowStep.mk (str name) (str action) (uiFlowSelectors.mk None [] [] [])
    [] None false false false false [] 0 [] None None [] None [] []
    (uiFlowWait.mk [] None [] []).

Definition sampleFlow : uiFlowFile.t :=
  uiFlowFile.mk (str "login")
    [sampleStep "open" "tap"; sampleStep "settle" "wait"].

Definition failsAtSecond (n : Z) (step : uiFlowStep.t)
  : result (list (gostring * detail)) :=
  if (n =? 2)%Z
  then Err (AppError.mk (str "WAIT_TIMEOUT")
              (str "wait condition not met before timeout") [])
  else Ok [(str "action", DString (uiFlowStep.Action step))].

(* ================================================================= *)
(** ** Flow steps *)

(** [math.Round]: the nearest integer, halves away from zero. *)
Definition mathRound (v : Q) : Z :=
  if Qle_bool 0 v then Qfloor (v + (1 # 2)) else (- Qfloor (- v + (1 # 2)))%Z.

Definition idbCoordArg (v : Q) : gostring := itoa (mathRound v).

(** What [executeFlowStep] asks of the rest of the program: the two [idb]
    commands it runs itself and the operations it delegates, each with the
    arguments that vary ([None] of an [error] result: no error). *)
Module flowWorld.
Record t := mk {
  uiTap : gostring -> gostring -> option AppError.t;
  uiSwipe : gostring -> gostring -> gostring -> gostring -> option AppError.t;
  resolveElementForInput :
    Z -> gostring -> gostring -> gostring -> result Element.t;
  focusElementWithRetry : Element.t -> Z -> result Element.t;
  clearFocusedInput : Z -> option AppError.t;
  submitTextInput : gostring -> bool -> option Element.t -> option AppError.t;
  verifyTypeResult : gostring -> option Element.t -> result verifyInfo.t;
  parseDuration : gostring -> option Z;
  waitForCondition : gostring -> Z -> Z -> Z -> result waitResponse.t
}.
End flowWorld.

(** The maps [executeFlowStep] returns, one shape for each action. *)
Inductive flowResult : Type :=
| TapByCoord (x y : Q)
| TapBySelector (index : Z) (id label contains : gostring) (x y : Q)
| TypeResult (text inputMode : gostring) (verify : option verifyInfo.t)
| ClearResult (backspaces : Z)
| SwipeResult (direction : gostring)
| WaitResult (resp : waitResponse.t).

Section FlowSteps.
Context `{GoLib}.

Definition executeFlowStep (w : flowWorld.t) (step : uiFlowStep.t)
  : result flowResult :=
  let action := strings.ToLower (strings.TrimSpace (uiFlowStep.Action step)) in
  let '(index, id, label, contains) := selectorsFromFlowStep step in
  if streq action (str "tap") then
    match uiFlowStep.X step, uiFlowStep.Y step with
    | Some x, Some y =>
        match flowWorld.uiTap w (idbCoordArg x) (idbCoordArg y) with
        | Some err =>
            Err (wrapAppErrCode err (str "IDB_UI_FAILED") (str "tap failed"))
        | None => Ok (TapByCoord x y)
        end
    | _, _ =>
        if negb (countElementSelectors index id label contains =? 1)%Z
        then Err (usageError (str "flow tap requires x/y or exactly one selector"))
        else
          match flowWorld.resolveElementForInput w index id label contains with
          | Err err => Err err
          | Ok elem =>
              let tapPoint :=
                if isTextInputRole (Element.Role elem)
                then focusPointForElement elem else Element.Center elem in
              match flowWorld.uiTap w (idbCoordArg (FramePoint.X tapPoint))
                      (idbCoordArg (FramePoint.Y tapPoint)) with
              | Some err =>
                  Err (wrapAppErrCode err (str "IDB_UI_FAILED") (str "tap failed"))
              | None =>
                  Ok (TapBySelector index id label contains
                        (FramePoint.X tapPoint) (FramePoint.Y tapPoint))
              end
          end
    end
  else if streq action (str "type") then
    let text := strings.TrimSpace (uiFlowStep.Text step) in
    if isEmpty text then Err (usageError (str "flow type requires text"))
    else
      let into :=
        match uiFlowStep.Into step with Some b => b | None => false end in
      let into :=
        match uiFlowStep.Into step with
        | None =>
            if (countElementSelectors index id label contains =? 1)%Z
            then true else into
        | Some _ => into
        end in
      if into && negb (countElementSelectors index id label contains =? 1)%Z
      then Err (usageError (str "flow type --into requires exactly one selector"))
      else
        match prepareTypedText text (uiFlowStep.ASCII step)
                (uiFlowStep.Paste step) with
        | Err err => Err err
        | Ok (prepared, inputMode) =>
            let focusedOrErr :=
              if into then
                match flowWorld.resolveElementForInput w index id label
                        contains with
                | Err err => Err err
                | Ok elem =>
                    match flowWorld.focusElementWithRetry w elem 2 with
                    | Err err => Err err
                    | Ok focusedElem =>
                        if uiFlowStep.Replace step then
                          let clearPoint := clearPointForElement focusedElem in
                          match flowWorld.uiTap w
                                  (idbCoordArg (FramePoint.X clearPoint))
                                  (idbCoordArg (FramePoint.Y clearPoint)) with
                          | Some err =>
                              Err (wrapAppErrCode err (str "IDB_UI_FAILED")
                                     (str "focus tap failed before replace"))
                          | None =>
                              match flowWorld.clearFocusedInput w
                                      (estimateClearBackspaces focusedElem) with
                              | Some err => Err err
                              | None => Ok (Some focusedElem)
                              end
                          end
                        else Ok (Some focusedElem)
                    end
                end
              else Ok None in
            match focusedOrErr with
            | Err err => Err err
            | Ok focused =>
                match flowWorld.submitTextInput w prepared
                        (uiFlowStep.Paste step) focused with
                | Some err => Err err
                | None =>
                    if uiFlowStep.Verify step then
                      match flowWorld.verifyTypeResult w prepared focused with
                      | Err err => Err err
                      | Ok verify => Ok (TypeResult prepared inputMode (Some verify))
                      end
                    else Ok (TypeResult prepared inputMode None)
                end
            end
        end
  else if streq action (str "clear") then
    if negb (countElementSelectors index id label contains =? 1)%Z
    then Err (usageError (str "flow clear requires exactly one selector"))
    else
      match flowWorld.resolveElementForInput w index id label contains with
      | Err err => Err err
      | Ok elem =>
          match flowWorld.focusElementWithRetry w elem 2 with
          | Err err => Err err
          | Ok _ =>
              let clearPoint := clearPointForElement elem in
              match flowWorld.uiTap w (idbCoordArg (FramePoint.X clearPoint))
                      (idbCoordArg (FramePoint.Y clearPoint)) with
              | Some err =>
                  Err (wrapAppErrCode err (str "IDB_UI_FAILED")
                         (str "focus tap failed before clear"))
              | None =>
                  let count := estimateClearBackspaces elem in
                  match flowWorld.clearFocusedInput w count with
                  | Some err => Err err
                  | None => Ok (ClearResult count)
                  end
              end
          end
      end
  else if streq action (str "swipe") then
    let direction :=
      strings.ToLower (strings.TrimSpace (uiFlowStep.Direction step)) in
    let direction := if isEmpty direction then str "up" else direction in
    if negb (streq direction (str "up")) && negb (streq direction (str "down"))
       && negb (streq direction (str "left"))
       && negb (streq direction (str "right"))
    then Err (usageError (str "flow swipe direction must be up|down|left|right"))
    else
      let distance := uiFlowStep.Distance step in
      let distance := if Qle_bool distance 0 then 220 else distance in
      let startOrErr :=
        if (countElementSelectors index id [] [] =? 1)%Z then
          match flowWorld.resolveElementForInput w index id [] [] with
          | Err err => Err err
          | Ok elem =>
              Ok (FramePoint.X (Element.Center elem),
                  FramePoint.Y (Element.Center elem))
          end
        else Ok (196, 426) in
      match startOrErr with
      | Err err => Err err
      | Ok (startX, startY) =>
          let endX := startX in
          let endY := startY in
          let '(endX, endY) :=
            if streq direction (str "up") then (endX, endY - distance)
            else if streq direction (str "down") then (endX, endY + distance)
            else if streq direction (str "left") then (endX - distance, endY)
            else if streq direction (str "right") then (endX + distance, endY)
            else (endX, endY) in
          match flowWorld.uiSwipe w (idbCoordArg startX) (idbCoordArg startY)
                  (idbCoordArg endX) (idbCoordArg endY) with
          | Some err =>
              Err (wrapAppErrCode err (str "IDB_UI_FAILED") (str "swipe failed"))
          | None => Ok (SwipeResult direction)
          end
      end
  else if streq action (str "wait") then
    let hasText := strings.TrimSpace (uiFlowStep.HasText step) in
    let interactiveMin :=
      match uiFlowStep.InteractiveMin step with
      | Some n => n
      | None => (-1)%Z
      end in
    let timeoutRaw := strings.TrimSpace (uiFlowStep.Timeout step) in
    let intervalRaw := strings.TrimSpace (uiFlowStep.Interval step) in
    let wait := uiFlowStep.Wait step in
    let hasText :=
      if negb (isEmpty (strings.TrimSpace (uiFlowWait.HasText wait)))
      then strings.TrimSpace (uiFlowWait.HasText wait) else hasText in
    let interactiveMin :=
      match uiFlowWait.InteractiveMin wait with
      | Some n => n
      | None => interactiveMin
      end in
    let timeoutRaw :=
      if negb (isEmpty (strings.TrimSpace (uiFlowWait.Timeout wait)))
      then strings.TrimSpace (uiFlowWait.Timeout wait) else timeoutRaw in
    let intervalRaw :=
      if negb (isEmpty (strings.TrimSpace (uiFlowWait.Interval wait)))
      then strings.TrimSpace (uiFlowWait.Interval wait) else intervalRaw in
    let timeoutOrErr :=
      if negb (isEmpty timeoutRaw) then
        match flowWorld.parseDuration w timeoutRaw with
        | None =>
            Err (usageError (str "invalid flow wait timeout: " ++ timeoutRaw))
        | Some d => Ok d
        end
      else Ok (20 * 1000000000)%Z in
    match timeoutOrErr with
    | Err err => Err err
    | Ok timeout =>
        let intervalOrErr :=
          if negb (isEmpty intervalRaw) then
            match flowWorld.parseDuration w intervalRaw with
            | None =>
                Err (usageError (str "invalid flow wait interval: " ++ intervalRaw))
            | Some d => Ok d
            end
          else Ok (700 * 1000000)%Z in
        match intervalOrErr with
        | Err err => Err err
        | Ok interval =>
            match flowWorld.waitForCondition w hasText interactiveMin timeout
                    interval with
            | Err err => Err err
            | Ok resp => Ok (WaitResult resp)
            end
        end
    end
  else Err (usageError (str "unsupported flow action: " ++ action)).

(** The action of a step as [executeFlowStep] reads it, and its number of
    selectors. *)
Definition stepAction (step : uiFlowStep.t) : gostring :=
  strings.ToLower (strings.TrimSpace (uiFlowStep.Action step)).

Definition stepSelectorCount (step : uiFlowStep.t) : Z :=
  let '(index, id, label, contains) := selectorsFromFlowStep step in
  countElementSelectors index id label contains.

(** The end point of a swipe from [(x, y)]. *)
Definition swipeEnd (direction : gostring) (distance x y : Q) : Q * Q :=
  if streq direction (str "up") then (x, y - distance)
  else if streq direction (str "down") then (x, y + distance)
  else if streq direction (str "left") then (x - distance, y)
  else (x + distance, y).

End FlowSteps.
(** A simulator on which every command succeeds and no element resolves. *)
Definition quietWorld : flowWorld.t :=
  flowWorld.mk (fun _ _ => None) (fun _ _ _ _ => None)
    (fun _ _ _ _ => Err (notFoundError []))
    (fun elem _ => Ok elem) (fun _ => None) (fun _ _ _ => None)
    (fun _ _ => Err (notFoundError [])) (fun _ => None)
    (fun _ _ _ _ => Err (notFoundError [])).


(* ================================================================= *)
(** * Properties *)

Lemma streq_true_iff (a b : gostring) : streq a b = true <-> a = b.
Proof.
  revert b; induction a as [|x a IH]; intros [|y b]; simpl; split;
    try congruence; try discriminate; auto.
  - rewrite andb_true_iff, Z.eqb_eq, IH. intros [-> ->]; reflexivity.
  - intros E; injection E as -> ->. now rewrite Z.eqb_refl, (proj2 (IH b)).
Qed.

(* ----------------------------------------------------------------- *)
(** ** Text reconciliation *)

Section MissingSuffix.

Lemma comparable_fst (i : Z) (s : gostring) :
  fst (comparableRunesWithMapFrom i s) = stripSpace s.
Proof.
  revert i; induction s as [|r s IH]; intros i; simpl; [reflexivity|].
  specialize (IH (i + 1)%Z).
  destruct (comparableRunesWithMapFrom (i + 1) s) as [c m]; simpl in *.
  unfold isIgnoredCompareRune.
  destruct (unicode.IsSpace r); simpl; congruence.
Qed.

Lemma comparable_snd_length (i : Z) (s : gostring) :
  List.length (snd (comparableRunesWithMapFrom i s)) = List.length (stripSpace s).
Proof.
  revert i; induction s as [|r s IH]; intros i; simpl; [reflexivity|].
  specialize (IH (i + 1)%Z).
  destruct (comparableRunesWithMapFrom (i + 1) s) as [c m]; simpl in *.
  unfold isIgnoredCompareRune.
  destruct (unicode.IsSpace r); simpl; congruence.
Qed.

(** The index map holds, at position [k], the original index of the
    [k]-th retained rune. *)
Lemma comparable_snd_nth (i : Z) (s : gostring) (k : nat) :
  (k < List.length (stripSpace s))%nat ->
  nth_error (snd (comparableRunesWithMapFrom i s)) k
  = Some (i + Z.of_nat (originalIndex s k))%Z.
Proof.
  revert i k; induction s as [|r s IH]; intros i k Hk; simpl in *; [lia|].
  pose proof (IH (i + 1)%Z) as IH'.
  destruct (comparableRunesWithMapFrom (i + 1) s) as [c m]; simpl in *.
  unfold isIgnoredCompareRune.
  destruct (unicode.IsSpace r); simpl in *.
  - rewrite IH' by assumption. f_equal; lia.
  - destruct k as [|k]; simpl.
    + f_equal; lia.
    + rewrite IH' by lia. f_equal; lia.
Qed.

Lemma originalIndex_lt (s : gostring) (k : nat) :
  (k < List.length (stripSpace s))%nat -> (originalIndex s k < List.length s)%nat.
Proof.
  revert k; induction s as [|r s IH]; intros k Hk; simpl in *; [lia|].
  destruct (unicode.IsSpace r); simpl in *.
  - specialize (IH k Hk); lia.
  - destruct k as [|k]; [lia|]. specialize (IH k); lia.
Qed.

(** The rune found at the original index is the [k]-th retained rune. *)
Lemma originalIndex_nth (s : gostring) (k : nat) :
  (k < List.length (stripSpace s))%nat ->
  nth_error s (originalIndex s k) = nth_error (stripSpace s) k.
Proof.
  revert k; induction s as [|r s IH]; intros k Hk; simpl in *; [lia|].
  destruct (unicode.IsSpace r) eqn:E; simpl in *.
  - now apply IH.
  - destruct k as [|k]; [reflexivity|]. apply IH; lia.
Qed.

(** Stripping the suffix that starts at the original index gives the
    stripped string from position [k] on. *)
Lemma stripSpace_skipn_originalIndex (s : gostring) (k : nat) :
  stripSpace (skipn (originalIndex s k) s) = skipn k (stripSpace s).
Proof.
  revert k; induction s as [|r s IH]; intros k; simpl.
  - now destruct k.
  - destruct (unicode.IsSpace r) eqn:E; simpl.
    + apply IH.
    + destruct k as [|k]; simpl.
      * now rewrite E.
      * apply IH.
Qed.

Lemma stripSpace_retains (s : gostring) (r : rune) :
  In r (stripSpace s) -> unicode.IsSpace r = false.
Proof.
  unfold stripSpace; rewrite filter_In. intros [_ H].
  now apply negb_true_iff in H.
Qed.

Lemma comparablePrefixLoop_iff (o c : list rune) :
  comparablePrefixLoop o c = true <-> isPrefixOf o c.
Proof.
  revert c; induction o as [|x o IH]; intros c; simpl.
  - split; [intros _; now exists c | reflexivity].
  - destruct c as [|y c].
    + split; [discriminate | intros [rest H]; discriminate].
    + destruct (Z.eqb_spec x y) as [->|Hne]; simpl.
      * rewrite IH. split; intros [rest H]; exists rest; simpl in *; congruence.
      * split; [discriminate | intros [rest H]; simpl in H; congruence].
Qed.

Lemma isPrefixOf_length (o c : gostring) :
  isPrefixOf o c -> (List.length o <= List.length c)%nat.
Proof. intros [rest ->]; rewrite length_app; lia. Qed.

Lemma isPrefixOf_same_length (o c : gostring) :
  isPrefixOf o c -> List.length o = List.length c -> o = c.
Proof.
  intros [rest ->]; rewrite length_app; intros H.
  destruct rest; [now rewrite app_nil_r | simpl in H; lia].
Qed.

Lemma isPrefixOf_skipn (o c : gostring) :
  isPrefixOf o c -> o ++ skipn (List.length o) c = c.
Proof.
  intros [rest ->]. rewrite skipn_app, skipn_all, Nat.sub_diag; reflexivity.
Qed.

(** The function, computed from the stripped strings alone. *)
Lemma typedMissingSuffix_eq (intended observed : gostring) :
  typedMissingSuffix intended observed
  = Some (if comparablePrefixLoop (stripSpace observed) (stripSpace intended)
          then if (List.length (stripSpace observed)
                   =? List.length (stripSpace intended))%nat
               then ([], true)
               else (skipn (originalIndex intended
                              (List.length (stripSpace observed))) intended, true)
          else ([], false)).
Proof.
  unfold typedMissingSuffix, comparableRunesWithMap.
  pose proof (comparable_fst 0 intended) as Hi.
  pose proof (comparable_fst 0 observed) as Ho.
  pose proof (comparable_snd_nth 0 intended) as Hm.
  destruct (comparableRunesWithMapFrom 0 intended) as [ic imap].
  destruct (comparableRunesWithMapFrom 0 observed) as [oc omap].
  simpl in Hi, Ho, Hm; subst ic oc.
  set (oc := stripSpace observed) in *; set (ic := stripSpace intended) in *.
  unfold len.
  destruct (comparablePrefixLoop oc ic) eqn:Hp; simpl.
  - apply comparablePrefixLoop_iff in Hp.
    pose proof (isPrefixOf_length Hp) as Hle.
    destruct (Z.gtb_spec (Z.of_nat (List.length oc)) (Z.of_nat (List.length ic)));
      [lia|].
    destruct (Nat.eqb_spec (List.length oc) (List.length ic)) as [He|Hne].
    + rewrite He, Z.eqb_refl; reflexivity.
    + destruct (Z.eqb_spec (Z.of_nat (List.length oc)) (Z.of_nat (List.length ic)));
        [lia|].
      rewrite Hm by lia.
      assert (Hlt : (List.length oc < List.length (stripSpace intended))%nat)
        by (fold ic; lia).
      pose proof (originalIndex_lt intended Hlt).
      replace (0 + Z.of_nat (originalIndex intended (List.length oc)))%Z
        with (Z.of_nat (originalIndex intended (List.length oc))) by lia.
      destruct (Z.ltb_spec (Z.of_nat (originalIndex intended (List.length oc))) 0);
        [lia|].
      destruct (Z.gtb_spec (Z.of_nat (originalIndex intended (List.length oc)))
                  (Z.of_nat (List.length intended))); [lia|].
      simpl. now rewrite Nat2Z.id.
  - now destruct (Z.of_nat (List.length oc) >? Z.of_nat (List.length ic))%Z.
Qed.

End MissingSuffix.

(** C1. [typedMissingSuffix] compares the two strings with their white space
    stripped: when the stripped observed string is not a prefix of the
    stripped intended string the second component is [false]; when the
    stripped strings are equal the result is the empty string and [true];
    otherwise it is [true] with the unstripped intended text from the original
    index recorded for the first unmatched stripped position, which is where
    that retained character stands in the intended string.  The two examples of
    the specification evaluate as stated. *)
Theorem typedMissingSuffix_whitespace_insensitive (intended observed : gostring) :
  let ic := stripSpace intended in
  let oc := stripSpace observed in
  (~ isPrefixOf oc ic ->
   typedMissingSuffix intended observed = Some ([], false))
  /\ (oc = ic -> typedMissingSuffix intended observed = Some ([], true))
  /\ (isPrefixOf oc ic -> oc <> ic ->
      let start := originalIndex intended (List.length oc) in
      nth_error (snd (comparableRunesWithMap intended)) (List.length oc)
      = Some (Z.of_nat start)
      /\ nth_error intended start = nth_error ic (List.length oc)
      /\ typedMissingSuffix intended observed = Some (skipn start intended, true))
  /\ typedMissingSuffix (str "090-0000-0000") (str "090-0000-00")
     = Some (str "00", true)
  /\ typedMissingSuffix (str "090-0000-0000") (str "090 -0000-00")
     = Some (str "00", true).
Proof.
  intros ic oc. rewrite typedMissingSuffix_eq. fold ic oc.
  split; [|split; [|split; [|split; reflexivity]]].
  - intros Hn. destruct (comparablePrefixLoop oc ic) eqn:Hp; [|reflexivity].
    apply comparablePrefixLoop_iff in Hp. contradiction.
  - intros Heq. rewrite Heq.
    rewrite (proj2 (comparablePrefixLoop_iff ic ic))
      by (exists []; now rewrite app_nil_r).
    now rewrite Nat.eqb_refl.
  - intros Hp Hne start.
    assert (Hlt : (List.length oc < List.length ic)%nat).
    { pose proof (isPrefixOf_length Hp).
      destruct (Nat.eq_dec (List.length oc) (List.length ic)) as [E|E]; [|lia].
      exfalso; apply Hne; now apply isPrefixOf_same_length. }
    split; [|split].
    + unfold comparableRunesWithMap.
      rewrite comparable_snd_nth by exact Hlt. reflexivity.
    + now apply originalIndex_nth.
    + rewrite (proj2 (comparablePrefixLoop_iff oc ic) Hp).
      destruct (Nat.eqb_spec (List.length oc) (List.length ic)); [lia|reflexivity].
Qed.

(** C9. Whenever [typedMissingSuffix intended observed] returns
    [(missing, true)], the stripped observed string followed by the stripped
    [missing] is the stripped intended string, and [missing] is empty exactly
    when the stripped strings already match. *)
Theorem typedMissingSuffix_repair (intended observed missing : gostring) :
  typedMissingSuffix intended observed = Some (missing, true) ->
  stripSpace observed ++ stripSpace missing = stripSpace intended
  /\ (missing = [] <-> stripSpace observed = stripSpace intended).
Proof.
  rewrite typedMissingSuffix_eq.
  set (ic := stripSpace intended); set (oc := stripSpace observed).
  destruct (comparablePrefixLoop oc ic) eqn:Hp; [|discriminate].
  apply comparablePrefixLoop_iff in Hp.
  destruct (Nat.eqb_spec (List.length oc) (List.length ic)) as [He|Hne];
    intros E; injection E as <-.
  - pose proof (isPrefixOf_same_length Hp He) as Heq.
    simpl. rewrite app_nil_r. tauto.
  - rewrite stripSpace_skipn_originalIndex. fold ic.
    split; [now apply isPrefixOf_skipn|].
    pose proof (isPrefixOf_length Hp) as Hle.
    assert (Hlt : (List.length oc < List.length ic)%nat) by lia.
    split.
    + intros Hnil. exfalso.
      pose proof (originalIndex_lt intended Hlt) as Hin. fold oc in Hin.
      apply (f_equal (@List.length rune)) in Hnil.
      rewrite length_skipn in Hnil. simpl in Hnil. lia.
    + intros Heq. rewrite Heq in Hne. contradiction.
Qed.

Lemma typedMissingSuffix_repair_witness :
  stripSpace (str "090 -0000-00") ++ stripSpace (str "00")
  = stripSpace (str "090-0000-0000")
  /\ (str "00" = [] <-> stripSpace (str "090 -0000-00") = stripSpace (str "090-0000-0000")).
Proof.
  apply (@typedMissingSuffix_repair (str "090-0000-0000") (str "090 -0000-00") (str "00")).
  reflexivity.
Defined.

(** [TestTypedMissingSuffixExact], [TestTypedMissingSuffixMismatch] and the
    scenario of the specification in which the field echoes only the first
    ten characters of an address. *)
Example typedMissingSuffix_tests :
  typedMissingSuffix (str "090-0000-0000") (str "090-0000-0000") = Some ([], true)
  /\ typedMissingSuffix (str "090-0000-0000") (str "091-0000") = Some ([], false)
  /\ typedMissingSuffix (str "hello@example.com") (str "hello@exam")
     = Some (str "ple.com", true).
Proof. repeat split; reflexivity. Qed.

Lemma isEmpty_true (s : gostring) : isEmpty s = true <-> s = [].
Proof. destruct s; simpl; split; congruence. Qed.

Lemma isEmpty_false (s : gostring) : isEmpty s = false <-> s <> [].
Proof. destruct s; simpl; split; congruence. Qed.

(* ----------------------------------------------------------------- *)
(** ** sort.Slice *)

Section SortSlice.
Variable A : Type.
Variable less : A -> A -> bool.

Lemma sinkLeft_perm (x : A) (revPrefix : list A) :
  Permutation (sinkLeft less x revPrefix) (x :: revPrefix).
Proof.
  induction revPrefix as [|y rest IH]; simpl; [reflexivity|].
  destruct (less x y); [|reflexivity].
  rewrite IH. apply perm_swap.
Qed.

Lemma sortFold_perm (data revPrefix : list A) :
  Permutation (fold_left (fun acc x => sinkLeft less x acc) data revPrefix)
    (data ++ revPrefix).
Proof.
  revert revPrefix; induction data as [|x data IH]; intros revPrefix; simpl;
    [reflexivity|].
  rewrite IH, sinkLeft_perm. symmetry. apply Permutation_middle.
Qed.

Lemma sortSlice_perm (data : list A) : Permutation (sortSlice less data) data.
Proof.
  unfold sortSlice. rewrite <- Permutation_rev, sortFold_perm.
  now rewrite app_nil_r.
Qed.

Lemma sortSlice_length (data : list A) :
  List.length (sortSlice less data) = List.length data.
Proof. apply Permutation_length, sortSlice_perm. Qed.

(** What [sort.Slice] asks of [less]: a strict weak order. *)
Hypothesis less_asym : forall a b, less a b = true -> less b a = false.
Hypothesis less_negtrans :
  forall a b c, less a b = false -> less b c = false -> less a c = false.


Lemma sinkLeft_sorted (x : A) (revPrefix : list A) :
  StronglySorted (notLess less) revPrefix ->
  StronglySorted (notLess less) (sinkLeft less x revPrefix).
Proof.
  induction 1 as [|y rest Hs IH Hy]; simpl.
  - constructor; constructor.
  - destruct (less x y) eqn:E.
    + constructor; [exact IH|].
      rewrite (sinkLeft_perm x rest). constructor; [|exact Hy].
      now apply less_asym.
    + constructor; [constructor; assumption|].
      constructor; [exact E|].
      rewrite Forall_forall in *. intros z Hz.
      apply (@less_negtrans x y z); [exact E | now apply Hy].
Qed.

Lemma sortFold_sorted (data revPrefix : list A) :
  StronglySorted (notLess less) revPrefix ->
  StronglySorted (notLess less) (fold_left (fun acc x => sinkLeft less x acc) data revPrefix).
Proof.
  revert revPrefix; induction data as [|x data IH]; intros revPrefix Hs; simpl;
    [exact Hs|].
  apply IH. now apply sinkLeft_sorted.
Qed.

Lemma sorted_last_least (l : list A) (h : A) (t : list A) :
  StronglySorted (notLess less) l -> rev l = h :: t ->
  forall c, In c l -> less c h = false.
Proof.
  intros Hs Hrev c Hc.
  assert (El : l = rev t ++ [h]).
  { rewrite <- (rev_involutive l), Hrev. reflexivity. }
  subst l. clear Hrev.
  assert (Hirr : less h h = false).
  { destruct (less h h) eqn:E; [|reflexivity]. now rewrite (@less_asym h h E) in E. }
  apply in_app_or in Hc. destruct Hc as [Hc|[<-|[]]]; [|exact Hirr].
  induction (rev t) as [|y r IH]; [destruct Hc|].
  simpl in Hs. inversion Hs as [|? ? Hs' Hy]; subst.
  destruct Hc as [<-|Hc].
  - rewrite Forall_forall in Hy. apply Hy. apply in_or_app; right; now left.
  - now apply IH.
Qed.

(** The first element of the sorted slice: no element is less than it. *)
Lemma sortSlice_head_least (data : list A) (h : A) (t : list A) :
  sortSlice less data = h :: t ->
  In h data /\ forall c, In c data -> less c h = false.
Proof.
  intros Hsort. split.
  - apply (Permutation_in h (sortSlice_perm data)). rewrite Hsort. now left.
  - intros c Hc. unfold sortSlice in Hsort.
    apply (@sorted_last_least _ h t
             (sortFold_sorted data (@SSorted_nil _ (notLess less))) Hsort).
    apply (Permutation_in c (Permutation_sym (sortFold_perm data []))).
    now rewrite app_nil_r.
Qed.

End SortSlice.

(* ----------------------------------------------------------------- *)
(** ** Comparisons on rationals *)


Lemma Qltb_true (a b : Q) : Qltb a b = true <-> a < b.
Proof.
  unfold Qltb. rewrite negb_true_iff.
  split; intros Hab.
  - apply Qnot_le_lt. intros Hle. apply Qle_bool_iff in Hle. congruence.
  - destruct (Qle_bool b a) eqn:E; [|reflexivity].
    apply Qle_bool_iff in E. exfalso. apply (Qlt_not_le _ _ Hab E).
Qed.

Lemma Qltb_false (a b : Q) : Qltb a b = false <-> b <= a.
Proof.
  unfold Qltb. rewrite negb_false_iff. apply Qle_bool_iff.
Qed.

Lemma Qle_bool_false (a b : Q) : Qle_bool a b = false <-> b < a.
Proof.
  split; intros Hab.
  - apply Qnot_le_lt. intros Hle. apply Qle_bool_iff in Hle. congruence.
  - destruct (Qle_bool a b) eqn:E; [|reflexivity].
    apply Qle_bool_iff in E. exfalso. apply (Qlt_not_le _ _ Hab E).
Qed.



(* ----------------------------------------------------------------- *)
(** ** Nearby labels *)


Section NearbyInner.
Variable elements : list Element.t.
Variable i : nat.
Variable ei : Element.t.





End NearbyInner.

Lemma nth_error_mapFrom {A B} (f : nat -> A -> B) (start : nat) (l : list A) (k : nat) :
  nth_error (mapFrom f start l) k = option_map (f (start + k)%nat) (nth_error l k).
Proof.
  revert start k; induction l as [|x l IH]; intros start k; simpl.
  - now destruct k.
  - destruct k as [|k]; simpl.
    + now rewrite Nat.add_0_r.
    + rewrite IH. now replace (S start + k)%nat with (start + S k)%nat by lia.
Qed.

Lemma length_mapFrom {A B} (f : nat -> A -> B) (start : nat) (l : list A) :
  List.length (mapFrom f start l) = List.length l.
Proof. revert start; induction l; intros; simpl; auto. Qed.

Lemma nth_error_updateAt {A} (i : nat) (v : A) (l : list A) (k : nat) :
  nth_error (updateAt i v l) k
  = if Nat.eqb k i then (if (i <? List.length l)%nat then Some v else None)
    else nth_error l k.
Proof.
  revert i k; induction l as [|x l IH]; intros i k.
  - destruct i, k; simpl; try reflexivity. now destruct (Nat.eqb k i).
  - destruct i as [|i]; destruct k as [|k]; simpl; try reflexivity.
    rewrite IH. destruct (Nat.eqb k i); [|reflexivity].
    reflexivity.
Qed.

Lemma list_ext_nth_error {A} (l l' : list A) :
  (forall k, nth_error l k = nth_error l' k) -> l = l'.
Proof.
  revert l'; induction l as [|x l IH]; intros [|y l'] Hext; auto.
  - specialize (Hext 0%nat); discriminate.
  - specialize (Hext 0%nat); discriminate.
  - f_equal.
    + specialize (Hext 0%nat); simpl in Hext; congruence.
    + apply IH. intros k. apply (Hext (S k)).
Qed.

Lemma sameButNearby_refl (a : Element.t) : sameButNearby a a.
Proof. unfold sameButNearby. now destruct a. Qed.

Lemma sameButNearby_set (a : Element.t) (l : gostring) :
  sameButNearby a (Element.setNearbyLabel a l).
Proof. unfold sameButNearby. now destruct a. Qed.

Lemma withNearbyLabel_same (elements : list Element.t) (i : nat) (e : Element.t) :
  sameButNearby e (withNearbyLabel elements i e).
Proof.
  unfold withNearbyLabel.
  destruct (negb (isEmpty (strings.TrimSpace (Element.Label e))));
    [apply sameButNearby_refl|].
  destruct (fst (nearbyBest elements i e) >=? 0)%Z; [|apply sameButNearby_refl].
  destruct (nth_error elements (Z.to_nat (fst (nearbyBest elements i e))));
    [apply sameButNearby_set | apply sameButNearby_refl].
Qed.

Lemma nearbyStep_congr (i : nat) (ei ei' : Element.t) (acc : Z * Q) (j : nat)
  (ej ej' : Element.t) :
  sameButNearby ei ei' -> sameButNearby ej ej' ->
  nearbyStep i ei' acc (j, ej') = nearbyStep i ei acc (j, ej).
Proof.
  unfold sameButNearby; intros -> ->. reflexivity.
Qed.

Lemma nearbyFold_congr (i : nat) (ei ei' : Element.t) (l l' : list Element.t) :
  sameButNearby ei ei' -> Forall2 sameButNearby l l' ->
  forall start acc,
    fold_left (nearbyStep i ei') (combine (seq start (List.length l')) l') acc
    = fold_left (nearbyStep i ei) (combine (seq start (List.length l)) l) acc.
Proof.
  intros Hi Hl; induction Hl as [|x y l l' Hxy Hl IH]; intros start acc;
    cbn [List.length seq combine fold_left].
  - reflexivity.
  - rewrite (@nearbyStep_congr i ei ei' acc start x y Hi Hxy). apply IH.
Qed.

Lemma nearbyAfter_Forall2 (elements : list Element.t) (m : nat) :
  Forall2 sameButNearby elements (nearbyAfter elements m).
Proof.
  unfold nearbyAfter. generalize 0%nat as start.
  generalize elements at 2 as whole.
  induction elements as [|e l IH]; intros whole start; simpl; constructor.
  - destruct (start <? m)%nat; [apply withNearbyLabel_same | apply sameButNearby_refl].
  - apply IH.
Qed.

Lemma Forall2_nth_error {A B} (R : A -> B -> Prop) (l : list A) (l' : list B) :
  Forall2 R l l' ->
  forall k, match nth_error l k, nth_error l' k with
            | Some a, Some b => R a b
            | None, None => True
            | _, _ => False
            end.
Proof.
  induction 1 as [|x y l l' Hxy Hl IH]; intros [|k]; simpl; auto.
  apply IH.
Qed.

Lemma sameButNearby_Label (a b : Element.t) :
  sameButNearby a b -> Element.Label b = Element.Label a.
Proof. unfold sameButNearby; intros ->; reflexivity. Qed.

Lemma addNearbyLabelsStep_after (elements : list Element.t) (m : nat) :
  (m < List.length elements)%nat ->
  addNearbyLabelsStep (nearbyAfter elements m) m = nearbyAfter elements (S m).
Proof.
  intros Hm.
  destruct (nth_error elements m) as [em|] eqn:Hem;
    [|apply nth_error_None in Hem; lia].
  assert (Hcur : nth_error (nearbyAfter elements m) m = Some em).
  { unfold nearbyAfter. rewrite nth_error_mapFrom, Hem. simpl.
    now rewrite Nat.ltb_irrefl. }
  assert (Hnext : forall k, nth_error (nearbyAfter elements (S m)) k
                   = if Nat.eqb k m then Some (withNearbyLabel elements m em)
                     else nth_error (nearbyAfter elements m) k).
  { intros k. unfold nearbyAfter. rewrite !nth_error_mapFrom. simpl.
    destruct (Nat.eqb_spec k m) as [->|Hne].
    - rewrite Hem. simpl.
      destruct (Nat.ltb_spec m (S m)); [reflexivity|lia].
    - destruct (nth_error elements k); simpl; [|reflexivity].
      destruct (Nat.ltb_spec k (S m)), (Nat.ltb_spec k m); try reflexivity; lia. }
  assert (Hlen : List.length (nearbyAfter elements m) = List.length elements).
  { unfold nearbyAfter. apply length_mapFrom. }
  assert (Hsame : nearbyAfter elements (S m)
                  = updateAt m (withNearbyLabel elements m em) (nearbyAfter elements m)).
  { apply list_ext_nth_error. intros k. rewrite Hnext, nth_error_updateAt, Hlen.
    destruct (Nat.eqb k m); [|reflexivity].
    destruct (Nat.ltb_spec m (List.length elements)); [reflexivity|lia]. }
  assert (Hid : withNearbyLabel elements m em = em ->
                nearbyAfter elements (S m) = nearbyAfter elements m).
  { intros E. apply list_ext_nth_error. intros k. rewrite Hnext.
    destruct (Nat.eqb_spec k m) as [->|Hne]; [|reflexivity]. now rewrite E, Hcur. }
  unfold addNearbyLabelsStep. rewrite Hcur.
  pose proof (nearbyAfter_Forall2 elements m) as HF.
  assert (Hbest : nearbyBest (nearbyAfter elements m) m em = nearbyBest elements m em).
  { unfold nearbyBest, enumerate.
    apply (@nearbyFold_congr m em em _ _ (sameButNearby_refl em) HF). }
  rewrite Hbest.
  unfold withNearbyLabel in Hsame, Hid.
  destruct (negb (isEmpty (strings.TrimSpace (Element.Label em)))).
  { symmetry; now apply Hid. }
  destruct (fst (nearbyBest elements m em) >=? 0)%Z; [|symmetry; now apply Hid].
  pose proof (Forall2_nth_error HF (Z.to_nat (fst (nearbyBest elements m em)))) as Hb.
  destruct (nth_error elements (Z.to_nat (fst (nearbyBest elements m em)))) as [eb|];
    destruct (nth_error (nearbyAfter elements m)
                (Z.to_nat (fst (nearbyBest elements m em)))) as [eb'|];
    try contradiction.
  - rewrite (sameButNearby_Label Hb). now symmetry.
  - symmetry; now apply Hid.
Qed.

Lemma nearbyAfter_0 (elements : list Element.t) : nearbyAfter elements 0 = elements.
Proof.
  apply list_ext_nth_error. intros k. unfold nearbyAfter.
  rewrite nth_error_mapFrom. simpl. now destruct (nth_error elements k).
Qed.

Lemma addNearbyLabels_fold (elements : list Element.t) (m : nat) :
  (m <= List.length elements)%nat ->
  fold_left addNearbyLabelsStep (seq 0 m) elements = nearbyAfter elements m.
Proof.
  induction m as [|m IH]; intros Hm.
  - simpl. now rewrite nearbyAfter_0.
  - rewrite seq_S, fold_left_app. simpl. rewrite IH by lia.
    apply addNearbyLabelsStep_after. lia.
Qed.

(** Every element of the result is the element of the input at the same
    position, with the nearby label its own round gives it. *)
Lemma addNearbyLabels_nth (elements : list Element.t) (k : nat) :
  nth_error (addNearbyLabels elements) k
  = option_map (withNearbyLabel elements k) (nth_error elements k).
Proof.
  unfold addNearbyLabels. rewrite addNearbyLabels_fold by lia.
  unfold nearbyAfter. rewrite nth_error_mapFrom. simpl.
  destruct (nth_error elements k) eqn:E; simpl; [|reflexivity].
  assert (k < List.length elements)%nat by (apply nth_error_Some; congruence).
  destruct (Nat.ltb_spec k (List.length elements)); [reflexivity|lia].
Qed.

Lemma addNearbyLabels_length (elements : list Element.t) :
  List.length (addNearbyLabels elements) = List.length elements.
Proof.
  unfold addNearbyLabels. rewrite addNearbyLabels_fold by lia.
  apply length_mapFrom.
Qed.

(** The slice [addNearbyLabels] receives in [normalizeElements] already
    carries its indices, and none of its elements has a nearby label yet. *)
Lemma indexedCandidates_no_nearby `{GoLib} (rawUI : any) (opts : frameOptions.t) :
  forall e, In e (fst (fst (indexedCandidates rawUI opts))) ->
            Element.NearbyLabel e = [].
Proof.
  unfold indexedCandidates.
  set (P := fun e : Element.t => Element.NearbyLabel e = []).
  assert (Hfilter : forall nodes st,
             Forall P (fst (fst st)) ->
             Forall P (fst (fst (fold_left (filterStep opts) nodes st)))).
  { induction nodes as [|node nodes IH]; intros st Hst; simpl; [exact Hst|].
    apply IH. destruct st as [[c a] n]. unfold filterStep.
    destruct (elementFromCandidate node) as [elem|] eqn:Eelem; [|exact Hst].
    assert (Hel : P elem).
    { unfold elementFromCandidate in Eelem.
      destruct (findRect (candidateNode.Map node)); [|discriminate].
      destruct (Qle_bool (FrameRect.W t) 0 || Qle_bool (FrameRect.H t) 0);
        [discriminate|].
      injection Eelem as <-. reflexivity. }
    repeat match goal with
           | |- context [if ?b then _ else _] => destruct b
           end; simpl in *; try exact Hst.
    all: apply Forall_app; split; [exact Hst|]; constructor;
      [exact Hel | constructor]. }
  specialize (Hfilter (snd (walkCandidates rawUI [] (0%Z, []))) ([], 0%Z, 0%Z)
                (Forall_nil P)).
  destruct (fold_left (filterStep opts) (snd (walkCandidates rawUI [] (0%Z, [])))
              ([], 0%Z, 0%Z)) as [[c a] n].
  cbv zeta. cbn [fst] in *.
  set (screen := inferScreenRect rawUI c).
  assert (Hvis : Forall P (List.map
                   (fun e => Element.setVisibility e
                               (classifyVisibility (Element.Frame e) screen)) c)).
  { apply Forall_map. eapply Forall_impl; [|exact Hfilter]. intros e He; exact He. }
  assert (Hidx : forall l i, Forall P l -> Forall P (assignIndexFrom i l)).
  { induction l as [|e l IH]; intros i Hl; simpl; [constructor|].
    inversion Hl; subst. constructor; [assumption | now apply IH]. }
  assert (Hsort : forall less l, Forall P l -> Forall P (sortSlice less l)).
  { intros less l Hl. rewrite Forall_forall in *. intros e He. apply Hl.
    apply (Permutation_in e (sortSlice_perm less l) He). }
  intros e He. revert e He. apply Forall_forall. apply Hidx.
  repeat match goal with
         | |- context [if ?b then _ else _] => destruct b
         end; auto.
Qed.


Lemma assignIndexFrom_Index (i : Z) (l : list Element.t) :
  List.map Element.Index (assignIndexFrom i l)
  = List.map (fun k => (i + Z.of_nat k)%Z) (seq 1 (List.length l)).
Proof.
  revert i; induction l as [|e l IH]; intros i; simpl; [reflexivity|].
  f_equal; try lia.
  rewrite IH, <- (seq_shift (List.length l) 1), map_map.
  apply map_ext. intros k; lia.
Qed.

Lemma assignIndexFrom_length (i : Z) (l : list Element.t) :
  List.length (assignIndexFrom i l) = List.length l.
Proof. revert i; induction l; intros; simpl; auto. Qed.

Lemma sameButNearby_Index (a b : Element.t) :
  sameButNearby a b -> Element.Index b = Element.Index a.
Proof. unfold sameButNearby; intros ->; reflexivity. Qed.

Lemma addNearbyLabels_Index (elements : list Element.t) :
  List.map Element.Index (addNearbyLabels elements) = List.map Element.Index elements.
Proof.
  apply list_ext_nth_error. intros k.
  rewrite !nth_error_map, addNearbyLabels_nth.
  destruct (nth_error elements k); simpl; [|reflexivity].
  f_equal. apply sameButNearby_Index, withNearbyLabel_same.
Qed.

Lemma normalizeElements_split `{GoLib} (rawUI : any) (opts : frameOptions.t) :
  fst (fst (normalizeElements rawUI opts))
  = addNearbyLabels (fst (fst (indexedCandidates rawUI opts))).
Proof.
  unfold normalizeElements.
  now destruct (indexedCandidates rawUI opts) as [[c a] n].
Qed.

Lemma indexedCandidates_Index `{GoLib} (rawUI : any) (opts : frameOptions.t) :
  let pre := fst (fst (indexedCandidates rawUI opts)) in
  List.map Element.Index pre = List.map Z.of_nat (seq 1 (List.length pre)).
Proof.
  unfold indexedCandidates.
  destruct (fold_left (filterStep opts) (snd (walkCandidates rawUI [] (0%Z, [])))
              ([], 0%Z, 0%Z)) as [[c a] n].
  cbv zeta. cbn [fst].
  rewrite assignIndexFrom_Index, assignIndexFrom_length. reflexivity.
Qed.


Example addNearbyLabels_form :
  List.map Element.NearbyLabel (addNearbyLabels formElements) = [str "Email"; []; []].
Proof. reflexivity. Qed.

(** C5. For every raw snapshot and every option set, whatever the ordering
    mode and the filters, the elements returned by [normalizeElements] carry
    the indices 1, 2, ..., N in list order, N being their number: no index is
    repeated and the indices are exactly the integers from 1 to N. *)
Theorem normalizeElements_dense_index `{GoLib} (rawUI : any) (opts : frameOptions.t) :
  let elements := fst (fst (normalizeElements rawUI opts)) in
  List.map Element.Index elements
  = List.map Z.of_nat (seq 1 (List.length elements))
  /\ NoDup (List.map Element.Index elements)
  /\ forall k : Z, In k (List.map Element.Index elements)
                   <-> (1 <= k <= Z.of_nat (List.length elements))%Z.
Proof.
  intros elements.
  assert (E : List.map Element.Index elements
              = List.map Z.of_nat (seq 1 (List.length elements))).
  { unfold elements. rewrite normalizeElements_split, addNearbyLabels_Index,
      addNearbyLabels_length. apply indexedCandidates_Index. }
  split; [exact E|]. rewrite E. split.
  - apply Finite.Injective_map_NoDup; [intros a b; apply Nat2Z.inj | apply seq_NoDup].
  - intros k. rewrite in_map_iff. split.
    + intros (n & <- & Hn). apply in_seq in Hn. lia.
    + intros Hk. exists (Z.to_nat k). split; [lia|]. apply in_seq. lia.
Qed.

(* ----------------------------------------------------------------- *)
(** ** Visibility *)


















(** Without a screen rectangle (none could be inferred) the guard of
    [classifyVisibility] takes every frame of positive size as fully visible. *)
Lemma classifyVisibility_without_screen (rect screen : FrameRect.t) :
  positiveSize rect -> ~ positiveSize screen ->
  classifyVisibility rect screen = (true, false).
Proof.
  unfold positiveSize, classifyVisibility. intros [Hw Hh] Hn.
  rewrite (proj2 (Qle_bool_false (FrameRect.W rect) 0) Hw).
  rewrite (proj2 (Qle_bool_false (FrameRect.H rect) 0) Hh). cbn [orb].
  destruct (Qle_bool (FrameRect.W screen) 0) eqn:Ew; [reflexivity|].
  destruct (Qle_bool (FrameRect.H screen) 0) eqn:Eh; [reflexivity|].
  apply Qle_bool_false in Ew, Eh. exfalso; apply Hn; split; assumption.
Qed.



(** The three cases of [TestClassifyVisibility]. *)
Example classifyVisibility_test_inside :
  classifyVisibility (FrameRect.mk 10 10 20 20 (str "pt")) testScreen = (true, false).
Proof. reflexivity. Qed.

Example classifyVisibility_test_partial :
  classifyVisibility (FrameRect.mk (-5) 10 20 20 (str "pt")) testScreen = (true, true).
Proof. reflexivity. Qed.

Example classifyVisibility_test_outside :
  classifyVisibility (FrameRect.mk 120 10 20 20 (str "pt")) testScreen = (false, true).
Proof. reflexivity. Qed.

(* ----------------------------------------------------------------- *)
(** ** Scored match *)





Section ScoredMatchFacts.
Context `{GoLib}.

Lemma candidateLess_asym (a b : candidate.t) :
  candidateLess a b = true -> candidateLess b a = false.
Proof.
  unfold candidateLess.
  destruct (Z.eqb_spec (candidate.Score a) (candidate.Score b)),
           (Z.eqb_spec (candidate.Score b) (candidate.Score a)); simpl; lia.
Qed.

Lemma candidateLess_negtrans (a b c : candidate.t) :
  candidateLess a b = false -> candidateLess b c = false ->
  candidateLess a c = false.
Proof.
  unfold candidateLess.
  destruct (Z.eqb_spec (candidate.Score a) (candidate.Score b)),
           (Z.eqb_spec (candidate.Score b) (candidate.Score c)),
           (Z.eqb_spec (candidate.Score a) (candidate.Score c)); simpl; lia.
Qed.

Lemma candidateLess_false (a b : candidate.t) :
  candidateLess a b = false ->
  (candidate.Score a < candidate.Score b)%Z
  \/ (candidate.Score a = candidate.Score b
      /\ (Element.Index (candidate.Element b)
          <= Element.Index (candidate.Element a))%Z).
Proof.
  unfold candidateLess.
  destruct (Z.eqb_spec (candidate.Score a) (candidate.Score b)); simpl; lia.
Qed.

Lemma collectCandidates_In (exactLabel partial : gostring)
  (elements : list Element.t) (c : candidate.t) :
  In c (collectCandidates exactLabel partial elements)
  <-> exists e, In e elements /\ scoreCandidate exactLabel partial e = Some c.
Proof.
  induction elements as [|e l IH]; simpl.
  - split; [intros [] | intros (e & [] & _)].
  - destruct (scoreCandidate exactLabel partial e) as [c'|] eqn:E; simpl;
      rewrite IH; split.
    + intros [<-|(e0 & Hin & Hs)]; [exists e; auto | exists e0; auto].
    + intros (e0 & [<-|Hin] & Hs); [left; congruence | right; exists e0; auto].
    + intros (e0 & Hin & Hs); exists e0; auto.
    + intros (e0 & [<-|Hin] & Hs); [congruence | exists e0; auto].
Qed.


Lemma points_add (b : bool) (score n : Z) :
  (if b then (score + n)%Z else score) = (score + points b n)%Z.
Proof. destruct b; simpl; lia. Qed.

Lemma scoreCandidate_spec (q : textQuery) (e : Element.t) :
  queryText q <> [] ->
  scoreCandidate (labelArg q) (partialArg q) e
  = if specCandidate q e then Some (candidate.mk e (specScore q e)) else None.
Proof.
  intros Hq. apply isEmpty_false in Hq.
  unfold scoreCandidate, specCandidate, specScore.
  destruct (Element.Enabled e); [|reflexivity]. cbn [negb andb].
  destruct q as [label|text]; cbn [labelArg partialArg isEmpty negb] in *;
    rewrite Hq; cbn [negb].
  - fold (exactMatch (Element.Label e) (queryText (LabelQuery label))).
    fold (exactMatch (Element.Value e) (queryText (LabelQuery label))).
    fold (exactMatch (Element.NearbyLabel e) (queryText (LabelQuery label))).
    rewrite !points_add.
    destruct (exactMatch (Element.Label e) (queryText (LabelQuery label))
              || exactMatch (Element.Value e) (queryText (LabelQuery label))
              || exactMatch (Element.NearbyLabel e) (queryText (LabelQuery label)));
      [|reflexivity].
    cbn [negb]. rewrite !points_add. do 2 f_equal; try lia.
  - fold (substringHit e (queryText (ContainsQuery text))).
    destruct (substringHit e (queryText (ContainsQuery text))); [|reflexivity].
    cbn [negb]. rewrite !points_add. do 2 f_equal; cbn [points]; try lia.
Qed.

Lemma pickElementByText_args (q : textQuery) (elements : list Element.t) :
  resolveTextQuery q elements
  = let candidates := collectCandidates (labelArg q) (partialArg q) elements in
    if (len candidates =? 0)%Z then
      if negb (isEmpty (labelArg q))
      then Err (notFoundError (str "element label not found: " ++ labelArg q))
      else Err (notFoundError (str "element text not found: " ++ partialArg q))
    else
      match sortSlice candidateLess candidates with
      | c :: _ => Ok (candidate.Element c)
      | [] => Err (notFoundError [])
      end.
Proof. destruct q; reflexivity. Qed.

(** C2. For every label or contains query resolved against a list of
    elements, only enabled elements are candidates; the score adds 90 for an
    exact label match, 75 for an exact value match and 55 for an exact
    nearby-label match (label query), 45 for a substring hit on the
    concatenated label, value, nearby label and role (contains query), 24 if
    visible, 10 if not offscreen, 15 for an interactive role and 8 for a
    non-empty label ([specScore]); a label query keeps an element only on an
    exact hit and a contains query only on a substring hit ([specCandidate]);
    the element returned is a candidate of highest score and, among those, of
    lowest index; and without candidates the result is an ELEMENT_NOT_FOUND
    error. *)
Theorem pickElementByText_scored (q : textQuery) (elements : list Element.t) :
  queryText q <> [] ->
  match resolveTextQuery q elements with
  | Err err =>
      AppError.Code err = str "ELEMENT_NOT_FOUND"
      /\ forall c, In c elements -> specCandidate q c = false
  | Ok winner =>
      In winner elements /\ specCandidate q winner = true
      /\ forall c, In c elements -> specCandidate q c = true ->
           (specScore q c < specScore q winner)%Z
           \/ (specScore q c = specScore q winner
               /\ (Element.Index winner <= Element.Index c)%Z)
  end.
Proof.
  intros Hq. rewrite pickElementByText_args. cbv zeta.
  set (candidates := collectCandidates (labelArg q) (partialArg q) elements).
  assert (Hin : forall c, In c candidates <->
            exists e, In e elements /\ specCandidate q e = true
                      /\ c = candidate.mk e (specScore q e)).
  { intros c. unfold candidates. rewrite collectCandidates_In.
    split; intros (e & He & Hs); exists e.
    - rewrite scoreCandidate_spec in Hs by assumption.
      destruct (specCandidate q e); [|discriminate]. split; [exact He|].
      split; [reflexivity | congruence].
    - rewrite scoreCandidate_spec by assumption.
      destruct Hs as [-> ->]. split; [exact He | reflexivity]. }
  unfold len. destruct candidates as [|c0 rest] eqn:Ec.
  - simpl.
    assert (Hnone : forall c, In c elements -> specCandidate q c = false).
    { intros c Hc. destruct (specCandidate q c) eqn:E; [|reflexivity].
      exfalso. apply (proj2 (Hin (candidate.mk c (specScore q c)))).
      exists c. auto. }
    destruct (negb (isEmpty (labelArg q))); split; auto.
  - rewrite <- Ec in *.
    replace (Z.of_nat (List.length candidates) =? 0)%Z with false
      by (rewrite Ec; reflexivity).
    destruct (sortSlice candidateLess candidates) as [|h t] eqn:Es.
    + exfalso. pose proof (sortSlice_length candidateLess candidates) as Hl.
      rewrite Es, Ec in Hl. discriminate.
    + destruct (@sortSlice_head_least _ candidateLess candidateLess_asym
                  candidateLess_negtrans candidates h t Es) as [Hh Hleast].
      apply Hin in Hh. destruct Hh as (w & Hw & Hcw & ->). cbn [candidate.Element].
      split; [exact Hw|]. split; [exact Hcw|].
      intros c Hc Hcc.
      assert (Hcin : In (candidate.mk c (specScore q c)) candidates).
      { apply Hin. exists c. auto. }
      apply Hleast, candidateLess_false in Hcin. exact Hcin.
Qed.

End ScoredMatchFacts.

Lemma pickElementByText_scored_witness :
  match @resolveTextQuery exampleLib (LabelQuery (str "next")) testElements with
  | Err err =>
      AppError.Code err = str "ELEMENT_NOT_FOUND"
      /\ forall c, In c testElements ->
                   @specCandidate exampleLib (LabelQuery (str "next")) c = false
  | Ok winner =>
      In winner testElements
      /\ @specCandidate exampleLib (LabelQuery (str "next")) winner = true
      /\ forall c, In c testElements ->
           @specCandidate exampleLib (LabelQuery (str "next")) c = true ->
           (@specScore exampleLib (LabelQuery (str "next")) c
            < @specScore exampleLib (LabelQuery (str "next")) winner)%Z
           \/ (@specScore exampleLib (LabelQuery (str "next")) c
               = @specScore exampleLib (LabelQuery (str "next")) winner
               /\ (Element.Index winner <= Element.Index c)%Z)
  end.
Proof.
  apply (@pickElementByText_scored exampleLib (LabelQuery (str "next")) testElements).
  vm_compute. discriminate.
Defined.

(** [TestPickElementByTextPrefersVisibleInteractive]: of two elements with the
    same label the visible one wins, by 24 points. *)
Example pickElementByText_test :
  @pickElementByText exampleLib testElements (str "next") []
  = Ok (nth 1 testElements Element.zero)
  /\ List.map (@specScore exampleLib (LabelQuery (str "next"))) testElements
     = [123%Z; 147%Z].
Proof. split; reflexivity. Qed.


(* ----------------------------------------------------------------- *)
(** ** Focus trust and stability sampling *)






(** An attempt of [focusElementWithRetry] whose tap and snapshot succeed and
    whose target is found again returns the target, tap point in its centre,
    exactly when [canTrustFocus] accepts the snapshot for the matched element
    with the centre the snapshot gives it; otherwise the next attempt runs. *)
Lemma focusAttempts_trust_decision `{GoLib} (world : Z -> attemptOutcome)
  (elem : Element.t) (retries : Z) (remaining : nat) (attempt : Z)
  (st : focusLoop.t) (snapshot : elementSnapshot.t) (matched : Element.t) :
  world attempt = Snapshot snapshot ->
  findBestVerificationTarget (elementSnapshot.Elements snapshot)
    (focusLoop.target st) = (matched, true) ->
  focusAttempts world elem retries (S remaining) attempt st
  = if canTrustFocus (elementSnapshot.Elements snapshot) matched
    then Ok (Element.setCenter matched (focusPointForElement matched))
    else focusAttempts world elem retries remaining (attempt + 1)%Z
           (focusLoop.mk matched (focusPointForElement matched)
              (str "focus moved to different element") (Some snapshot)
              (focusLoop.lastErr st)).
Proof.
  intros Hw Hm. cbn [focusAttempts]. rewrite Hw, Hm. reflexivity.
Qed.

Lemma allStringsEqualLoop_true (base : gostring) (rest : list gostring) :
  allStringsEqualLoop base rest = true <-> forall v, In v rest -> v = base.
Proof.
  induction rest as [|v rest IH]; simpl.
  - split; [intros _ v [] | reflexivity].
  - destruct (streq v base) eqn:E; cbn [negb].
    + apply streq_true_iff in E. rewrite IH. split.
      * intros Hall w [<-|Hw]; auto.
      * intros Hall w Hw. apply Hall. now right.
    + split; [discriminate|]. intros Hall.
      specialize (Hall v (or_introl eq_refl)). apply streq_true_iff in Hall.
      congruence.
Qed.

Lemma allStringsEqual_iff (values : list gostring) :
  allStringsEqual values = true <-> allSame values.
Proof.
  unfold allStringsEqual, allSame, len.
  destruct values as [|base rest].
  - simpl. split; [intros _ a b [] | reflexivity].
  - destruct (Z.leb_spec (Z.of_nat (List.length (base :: rest))) 1) as [Hle|Hgt].
    + destruct rest; [|simpl in Hle; lia].
      split; [|reflexivity]. intros _ a b [<-|[]] [<-|[]]. reflexivity.
    + rewrite allStringsEqualLoop_true. split.
      * intros Hall a b Ha Hb.
        assert (Hbase : forall v, In v (base :: rest) -> v = base).
        { intros v [<-|Hv]; auto. }
        rewrite (Hbase a Ha), (Hbase b Hb). reflexivity.
      * intros Hall v Hv. apply Hall; [now right | now left].
Qed.

Lemma captureLoop_all_ok (capture : Z -> result frameUISample.t)
  (rest : list frameUISample.t) (i : Z) (samples : list frameUISample.t)
  (hashes : list gostring) :
  (forall k s, nth_error rest k = Some s -> capture (i + Z.of_nat k)%Z = Ok s) ->
  captureLoop capture (List.length rest) i samples hashes
  = Ok (samples ++ rest, hashes ++ List.map frameUISample.Hash rest).
Proof.
  revert i samples hashes; induction rest as [|s rest IH];
    intros i samples hashes Hok; simpl.
  - now rewrite !app_nil_r.
  - pose proof (Hok 0%nat s eq_refl) as H0. rewrite Z.add_0_r in H0. rewrite H0.
    rewrite IH.
    + now rewrite <- !app_assoc.
    + intros k s' Hk. specialize (Hok (S k) s' Hk).
      now replace (i + 1 + Z.of_nat k)%Z with (i + Z.of_nat (S k))%Z by lia.
Qed.

(** C6. [allStringsEqual] is true exactly when all the strings of the list
    are equal, and is true of every list of length at most 1.  A stable
    capture of N >= 2 samples, each of which is captured, succeeds exactly
    when the N hashes of the samples are all equal; and when they are not, it
    fails with a FRAME_UNSTABLE error that carries the list of the hashes, the
    sample count and the interval. *)
Theorem stable_sampling (values : list gostring)
  (capture : Z -> result frameUISample.t) (opts : frameOptions.t)
  (samples : list frameUISample.t) :
  (2 <= frameOptions.StableSamples opts)%Z ->
  len samples = frameOptions.StableSamples opts ->
  (forall k s, nth_error samples k = Some s -> capture (Z.of_nat k) = Ok s) ->
  let hashes := List.map frameUISample.Hash samples in
  (allStringsEqual values = true <-> allSame values)
  /\ ((List.length values <= 1)%nat -> allStringsEqual values = true)
  /\ (captureStableUISamples capture opts = Ok samples <-> allSame hashes)
  /\ (~ allSame hashes ->
      captureStableUISamples capture opts = Err (frameUnstable hashes opts)).
Proof.
  intros HN Hlen Hok hashes.
  split; [apply allStringsEqual_iff|].
  split.
  { intros Hle. unfold allStringsEqual, len.
    destruct (Z.leb_spec (Z.of_nat (List.length values)) 1); [reflexivity|lia]. }
  assert (Hrun : captureStableUISamples capture opts
                 = if negb (allStringsEqual hashes)
                   then Err (frameUnstable hashes opts) else Ok samples).
  { unfold captureStableUISamples. unfold len in Hlen.
    replace (Z.to_nat (frameOptions.StableSamples opts))
      with (List.length samples) by lia.
    rewrite (@captureLoop_all_ok capture samples 0%Z [] []) by exact Hok.
    reflexivity. }
  rewrite Hrun. split.
  - destruct (allStringsEqual hashes) eqn:E; cbn [negb].
    + apply allStringsEqual_iff in E. tauto.
    + split; [discriminate|]. intros Hs. apply allStringsEqual_iff in Hs. congruence.
  - intros Hn. destruct (allStringsEqual hashes) eqn:E; cbn [negb]; [|reflexivity].
    apply allStringsEqual_iff in E. contradiction.
Qed.

Lemma stable_sampling_witness :
  let capture := fun _ : Z => Ok stableSample in
  let samples := [stableSample; stableSample] in
  let hashes := List.map frameUISample.Hash samples in
  (allStringsEqual [str "aa"; str "bb"] = true <-> allSame [str "aa"; str "bb"])
  /\ ((List.length [str "aa"; str "bb"] <= 1)%nat ->
      allStringsEqual [str "aa"; str "bb"] = true)
  /\ (captureStableUISamples capture stableOptions = Ok samples <-> allSame hashes)
  /\ (~ allSame hashes ->
      captureStableUISamples capture stableOptions
      = Err (frameUnstable hashes stableOptions)).
Proof.
  apply (@stable_sampling [str "aa"; str "bb"] (fun _ : Z => Ok stableSample)
           stableOptions [stableSample; stableSample]).
  - vm_compute. discriminate.
  - reflexivity.
  - intros k s Hs. apply nth_error_In in Hs.
    destruct Hs as [<-|[<-|[]]]; reflexivity.
Defined.

(** [TestAllStringsEqual]. *)
Example allStringsEqual_test :
  allStringsEqual [str "aa"; str "aa"; str "aa"] = true
  /\ allStringsEqual [str "aa"; str "bb"] = false.
Proof. split; reflexivity. Qed.

(** Two samples that differ: the capture fails and reports both hashes. *)
Example captureStableUISamples_unstable :
  captureStableUISamples
    (fun i => Ok (frameUISample.mk VNil [] 0 0 (if (i =? 0)%Z then str "1a" else str "2b")))
    stableOptions
  = Err (frameUnstable [str "1a"; str "2b"] stableOptions).
Proof. reflexivity. Qed.

(* ----------------------------------------------------------------- *)
(** ** Selectors *)









Section SelectorFacts.
Context `{GoLib}.


End SelectorFacts.



(** C10. The element lookup of the swipe command does not enforce the
    single-selector rule: with an index, [pickElement] resolves by index
    whatever the id; and there is an element list that contains the index and
    not the id on which the lookup of swipe succeeds with the indexed
    element, where [pickElementBySelectors] rejects the same two selectors
    with the USAGE error. *)
Theorem swipe_ignores_id `{GoLib} :
  (forall elements index id,
      (0 <= index)%Z -> pickElement elements index id = pickElement elements index [])
  /\ exists elements index id e transform,
      (0 <= index)%Z /\ id <> []
      /\ In e elements /\ Element.Index e = index
      /\ (forall e', In e' elements -> Element.ID e' <> id)
      /\ pickElement elements index id = Ok e
      /\ swipeStart index id (Ok (elements, transform))
         = Ok (FramePoint.X (Element.Center e), FramePoint.Y (Element.Center e))
      /\ pickElementBySelectors elements index id [] [] = Err chooseOnlyOne.
Proof.
  split.
  - intros elements index id Hi. unfold pickElement.
    destruct (Z.geb_spec index 0); [reflexivity|lia].
  - exists swipeElements, 1%Z, (str "missing"),
      (nth 0 swipeElements Element.zero), swipeTransform.
    split; [lia|]. split; [discriminate|]. split; [now left|].
    split; [reflexivity|]. split.
    + intros e' [<-|[]]. discriminate.
    + split; [reflexivity|]. split; reflexivity.
Qed.

(* ================================================================= *)
(** * Further properties of the engine *)

(* ----------------------------------------------------------------- *)
(** ** Text preparation and chunks *)

Lemma len_nonneg {A} (l : list A) : (0 <= len l)%Z.
Proof. unfold len; lia. Qed.

Lemma stripSpace_TrimLeftSpace (s : gostring) :
  stripSpace (strings.TrimLeftSpace s) = stripSpace s.
Proof.
  induction s as [|r s IH]; simpl; [reflexivity|].
  destruct (unicode.IsSpace r) eqn:E; simpl; [exact IH | now rewrite E].
Qed.

Lemma stripSpace_rev (s : gostring) : stripSpace (rev s) = rev (stripSpace s).
Proof.
  unfold stripSpace. induction s as [|r s IH]; simpl; [reflexivity|].
  rewrite filter_app, IH. simpl.
  destruct (negb (unicode.IsSpace r)); simpl; [reflexivity | now rewrite app_nil_r].
Qed.

(** Trimming removes white space only. *)
Lemma stripSpace_TrimSpace (s : gostring) :
  stripSpace (strings.TrimSpace s) = stripSpace s.
Proof.
  unfold strings.TrimSpace, strings.TrimRightSpace.
  rewrite stripSpace_rev, stripSpace_TrimLeftSpace, stripSpace_rev, rev_involutive.
  apply stripSpace_TrimLeftSpace.
Qed.

Lemma TrimLeftSpace_nil_iff (s : gostring) :
  strings.TrimLeftSpace s = [] <-> stripSpace s = [].
Proof.
  induction s as [|r s IH]; simpl; [tauto|].
  destruct (unicode.IsSpace r) eqn:E; simpl; [exact IH|].
  split; discriminate.
Qed.

(** A string trims to the empty string exactly when it is white space only. *)
Lemma TrimSpace_nil_iff (s : gostring) :
  strings.TrimSpace s = [] <-> stripSpace s = [].
Proof.
  unfold strings.TrimSpace, strings.TrimRightSpace. split.
  - intros E. apply (f_equal (@rev rune)) in E. rewrite rev_involutive in E.
    simpl in E. apply TrimLeftSpace_nil_iff in E.
    rewrite stripSpace_rev in E. apply (f_equal (@rev rune)) in E.
    rewrite rev_involutive in E. simpl in E.
    now rewrite stripSpace_TrimLeftSpace in E.
  - intros E.
    assert (E' : strings.TrimLeftSpace (rev (strings.TrimLeftSpace s)) = []).
    { apply TrimLeftSpace_nil_iff. rewrite stripSpace_rev, stripSpace_TrimLeftSpace, E.
      reflexivity. }
    now rewrite E'.
Qed.

(* ---- splitIntoInputChunks ---- *)

Lemma chunkLoop_acc (fuel : nat) (runes : list rune) (n i : Z)
  (chunks : list gostring) :
  chunkLoop fuel runes n i chunks = chunks ++ chunkLoop fuel runes n i [].
Proof.
  revert i chunks; induction fuel as [|fuel IH]; intros i chunks; simpl.
  - now rewrite app_nil_r.
  - destruct (i <? len runes)%Z; [|now rewrite app_nil_r].
    rewrite IH. rewrite (IH _ [_]). now rewrite <- app_assoc.
Qed.

Lemma chunkLoop_chunked (fuel : nat) (runes : list rune) (n : Z) (i : nat) :
  (0 < n)%Z -> (i <= List.length runes)%nat ->
  (List.length runes - i <= fuel)%nat ->
  chunked (Z.to_nat n) (skipn i runes)
    (chunkLoop fuel runes n (Z.of_nat i) []).
Proof.
  intros Hn. revert i; induction fuel as [|fuel IH]; intros i Hi Hfuel.
  - simpl. rewrite skipn_all2 by lia. constructor.
  - simpl. unfold len.
    destruct (Z.ltb_spec (Z.of_nat i) (Z.of_nat (List.length runes))) as [Hlt|Hge].
    2:{ rewrite skipn_all2 by lia. constructor. }
    rewrite chunkLoop_acc. simpl.
    unfold slice. rewrite Nat2Z.id.
    destruct (Z.gtb_spec (Z.of_nat i + n) (Z.of_nat (List.length runes))) as [Hover|Hfit].
    + (* the last chunk *)
      assert (Hdone : chunkLoop fuel runes n (Z.of_nat i + n) [] = []).
      { destruct fuel; simpl; [reflexivity|]. unfold len.
        destruct (Z.ltb_spec (Z.of_nat i + n) (Z.of_nat (List.length runes)));
          [lia | reflexivity]. }
      rewrite Hdone.
      replace (Z.to_nat (Z.of_nat (List.length runes) - Z.of_nat i))
        with (List.length runes - i)%nat by lia.
      rewrite firstn_all2 by (rewrite length_skipn; lia).
      apply chunked_last.
      * intros E. apply (f_equal (@List.length rune)) in E.
        rewrite length_skipn in E. simpl in E. lia.
      * rewrite length_skipn. lia.
    + replace (Z.to_nat (Z.of_nat i + n - Z.of_nat i)) with (Z.to_nat n) by lia.
      replace (Z.of_nat i + n)%Z with (Z.of_nat (i + Z.to_nat n)) by lia.
      rewrite <- (firstn_skipn (Z.to_nat n) (skipn i runes)) at 1.
      rewrite skipn_skipn.
      replace (Z.to_nat n + i)%nat with (i + Z.to_nat n)%nat by lia.
      destruct (Nat.eq_dec (i + Z.to_nat n) (List.length runes)) as [Heq|Hne].
      * (* exactly at the end: the next round stops *)
        assert (Hdone : chunkLoop fuel runes n (Z.of_nat (i + Z.to_nat n)) [] = []).
        { destruct fuel; simpl; [reflexivity|]. unfold len.
          destruct (Z.ltb_spec (Z.of_nat (i + Z.to_nat n))
                      (Z.of_nat (List.length runes))); [lia | reflexivity]. }
        rewrite Hdone.
        replace (skipn (i + Z.to_nat n) runes) with (@nil rune)
          by (symmetry; apply skipn_all2; lia).
        rewrite app_nil_r.
        apply chunked_last.
        -- intros E. apply (f_equal (@List.length rune)) in E.
           rewrite length_firstn, length_skipn in E. simpl in E. lia.
        -- rewrite length_firstn. lia.
      * apply chunked_cons.
        -- rewrite length_firstn, length_skipn. lia.
        -- intros E. apply (f_equal (@List.length rune)) in E.
           rewrite length_firstn, length_skipn in E. simpl in E. lia.
        -- intros E. apply (f_equal (@List.length rune)) in E.
           rewrite length_skipn in E. simpl in E. lia.
        -- apply IH; lia.
Qed.

Lemma chunked_concat (n : nat) (rest : list rune) (cs : list gostring) :
  chunked n rest cs -> List.concat cs = rest.
Proof.
  induction 1; simpl; [reflexivity | now rewrite app_nil_r | now f_equal].
Qed.

Lemma chunked_pieces (n : nat) (rest : list rune) (cs : list gostring) :
  chunked n rest cs ->
  (forall c, In c cs -> c <> [] /\ (List.length c <= n)%nat)
  /\ (forall k c, (S k < List.length cs)%nat -> nth_error cs k = Some c ->
                  List.length c = n).
Proof.
  induction 1 as [|c Hc Hl|c rest cs Hl Hc Hr Hch [IH1 IH2]].
  - split; [intros c [] | intros k c Hk; simpl in Hk; lia].
  - split; [intros c' [<-|[]]; auto | intros k c' Hk; simpl in Hk; lia].
  - split.
    + intros c' [<-|Hin]; [split; [assumption|lia] | now apply IH1].
    + intros [|k] c' Hk Hnth; simpl in *.
      * now injection Hnth as <-.
      * apply (IH2 k); [lia | assumption].
Qed.

(** X1. [splitIntoInputChunks] cuts the text into consecutive pieces that
    together are the text again: no piece is empty, an empty text gives no
    piece, a chunk size that is not positive gives the text as one piece, and
    for a positive chunk size every piece has at most that many runes and
    every piece but the last exactly that many. *)
Theorem splitIntoInputChunks_split (text : gostring) (chunkRunes : Z) :
  let chunks := splitIntoInputChunks text chunkRunes in
  List.concat chunks = text
  /\ (forall c, In c chunks -> c <> [])
  /\ (text = [] <-> chunks = [])
  /\ ((chunkRunes <= 0)%Z -> text <> [] -> chunks = [text])
  /\ ((0 < chunkRunes)%Z ->
      (forall c, In c chunks -> (len c <= chunkRunes)%Z)
      /\ (forall k c, (S k < List.length chunks)%nat -> nth_error chunks k = Some c ->
                      len c = chunkRunes)).
Proof.
  unfold splitIntoInputChunks, len. cbv zeta.
  destruct text as [|r text].
  { simpl. split; [reflexivity|]. split; [intros c []|].
    split; [tauto|]. split; [intros _ Hne; now elim Hne|].
    intros _. split; [intros c [] | intros k c Hk; simpl in Hk; lia]. }
  set (t := r :: text).
  assert (Ht : t <> []) by discriminate.
  replace (Z.of_nat (List.length t) =? 0)%Z with false
    by (symmetry; apply Z.eqb_neq; simpl; lia).
  destruct (Z.leb_spec chunkRunes 0) as [Hn|Hn]; cbn [orb].
  { simpl. rewrite app_nil_r. split; [reflexivity|].
    split; [intros c [<-|[]]; exact Ht|]. split; [split; discriminate|].
    split; [reflexivity|]. intros; lia. }
  destruct (Z.leb_spec (Z.of_nat (List.length t)) chunkRunes) as [Hshort|Hlong].
  { simpl List.concat. rewrite app_nil_r. split; [reflexivity|].
    split; [intros c [<-|[]]; exact Ht|].
    split; [split; discriminate|]. split; [intros; lia|]. intros _. split.
    - intros c [<-|[]]. exact Hshort.
    - intros k c Hk; simpl in Hk; lia. }
  pose proof (@chunkLoop_chunked (List.length t) t chunkRunes 0 Hn
                ltac:(lia) ltac:(lia)) as Hch.
  simpl skipn in Hch. change (Z.of_nat 0) with 0%Z in Hch.
  pose proof (chunked_concat Hch) as Hcat.
  destruct (chunked_pieces Hch) as [Hp1 Hp2].
  split; [exact Hcat|]. split; [intros c Hc; now apply Hp1|].
  split.
  { split; [intros E; exfalso; now apply Ht|].
    intros E. rewrite E in Hcat. simpl in Hcat. congruence. }
  split; [intros; lia|]. intros _. split.
  - intros c Hc. destruct (Hp1 c Hc) as [_ Hl]. lia.
  - intros k c Hk Hnth. rewrite (Hp2 k c Hk Hnth). lia.
Qed.

(* ---- prepareTypedText ---- *)


Lemma filter_nil_iff {A} (f : A -> bool) (l : list A) :
  filter f l = [] <-> forall x, In x l -> f x = false.
Proof.
  induction l as [|a l IH]; simpl.
  - split; [intros _ x [] | reflexivity].
  - destruct (f a) eqn:E.
    + split; [discriminate|]. intros Hall. specialize (Hall a (or_introl eq_refl)).
      congruence.
    + rewrite IH. split.
      * intros Hall x [<-|Hx]; auto.
      * intros Hall x Hx. apply Hall. now right.
Qed.

Lemma stripSpace_In (s : gostring) (r : rune) :
  In r (stripSpace s) <-> In r s /\ unicode.IsSpace r = false.
Proof. unfold stripSpace. rewrite filter_In, negb_true_iff. tauto. Qed.

Lemma printable_space (r : rune) :
  printable r = true -> (unicode.IsSpace r = false <-> (33 <= r)%Z).
Proof.
  unfold printable, unicode.IsSpace. intros Hp.
  apply andb_true_iff in Hp. destruct Hp as [H1 H2].
  apply Z.geb_le in H1. apply Z.leb_le in H2.
  destruct (Z.leb_spec 0 r); [|lia]. destruct (Z.leb_spec r 255); [|lia].
  cbn [andb].
  destruct (Z.eqb_spec r 9), (Z.eqb_spec r 10), (Z.eqb_spec r 11),
    (Z.eqb_spec r 12), (Z.eqb_spec r 13), (Z.eqb_spec r 32),
    (Z.eqb_spec r 133), (Z.eqb_spec r 160); cbn [orb]; split; intros; try lia;
    try discriminate; try reflexivity.
Qed.

(** The ASCII filter leaves nothing but white space exactly when the text has
    no rune from ['!'] to ['~']. *)
Lemma asciiOnly_blank_iff (text : gostring) :
  strings.TrimSpace (asciiOnly (strings.TrimSpace text)) = []
  <-> forall r, In r text -> ~ (33 <= r <= 126)%Z.
Proof.
  rewrite TrimSpace_nil_iff. unfold stripSpace at 1.
  etransitivity; [apply filter_nil_iff|].
  split.
  - intros Hall r Hr [Hlo Hhi].
    assert (Hp : printable r = true).
    { unfold printable. apply andb_true_iff. split; [apply Z.geb_le | apply Z.leb_le]; lia. }
    assert (Hs : unicode.IsSpace r = false) by (apply (@printable_space _ Hp); lia).
    assert (Hin : In r (asciiOnly (strings.TrimSpace text))).
    { unfold asciiOnly. apply filter_In. split; [|exact Hp].
      assert (Hst : In r (stripSpace (strings.TrimSpace text))).
      { rewrite stripSpace_TrimSpace. apply stripSpace_In. auto. }
      apply stripSpace_In in Hst. tauto. }
    specialize (Hall r Hin). rewrite Hs in Hall. discriminate.
  - intros Hnone r Hin. unfold asciiOnly in Hin. apply filter_In in Hin.
    destruct Hin as [Hin Hp]. fold (printable r) in Hp.
    destruct (unicode.IsSpace r) eqn:Hs; [reflexivity|]. exfalso.
    assert (Hst : In r (stripSpace (strings.TrimSpace text)))
      by (apply stripSpace_In; auto).
    rewrite stripSpace_TrimSpace in Hst. apply stripSpace_In in Hst.
    apply (Hnone r (proj1 Hst)). split.
    + now apply (@printable_space _ Hp).
    + unfold printable in Hp. apply andb_true_iff in Hp. destruct Hp as [_ H2].
      now apply Z.leb_le in H2.
Qed.

(** X2. Without ASCII mode [prepareTypedText] returns the trimmed text as it
    is.  In ASCII mode it returns the runes of the trimmed text from the
    space to the tilde, in order, of which at least one is not a space, and
    fails with TYPE_ASCII_EMPTY exactly when the text has no rune from the
    exclamation mark to the tilde.  The mode is type, ascii, paste or
    paste-ascii as the two flags say. *)
Theorem prepareTypedText_ascii (text : gostring) (pasteMode : bool) :
  prepareTypedText text false pasteMode
  = Ok (strings.TrimSpace text, if pasteMode then str "paste" else str "type")
  /\ match prepareTypedText text true pasteMode with
     | Err err =>
         AppError.Code err = str "TYPE_ASCII_EMPTY"
         /\ forall r, In r text -> ~ (33 <= r <= 126)%Z
     | Ok (out, mode) =>
         out = asciiOnly (strings.TrimSpace text)
         /\ (forall r, In r out -> (32 <= r <= 126)%Z)
         /\ (exists r, In r out /\ (33 <= r <= 126)%Z)
         /\ mode = (if pasteMode then str "paste-ascii" else str "ascii")
     end.
Proof.
  split; [now destruct pasteMode|].
  unfold prepareTypedText.
  destruct (isEmpty (strings.TrimSpace (asciiOnly (strings.TrimSpace text)))) eqn:E.
  - apply isEmpty_true in E. split; [reflexivity|]. now apply asciiOnly_blank_iff.
  - apply isEmpty_false in E. split; [reflexivity|]. split; [|split].
    + intros r Hr. unfold asciiOnly in Hr. apply filter_In in Hr.
      destruct Hr as [_ Hp]. apply andb_true_iff in Hp. destruct Hp as [H1 H2].
      apply Z.geb_le in H1. apply Z.leb_le in H2. lia.
    + rewrite TrimSpace_nil_iff in E.
      destruct (stripSpace (asciiOnly (strings.TrimSpace text))) as [|r rest] eqn:Es;
        [now elim E|].
      assert (Hin : In r (stripSpace (asciiOnly (strings.TrimSpace text))))
        by (rewrite Es; now left).
      apply stripSpace_In in Hin. destruct Hin as [Hin Hs].
      exists r. split; [exact Hin|].
      unfold asciiOnly in Hin. apply filter_In in Hin. destruct Hin as [_ Hp].
      fold (printable r) in Hp. pose proof (proj1 (@printable_space _ Hp) Hs).
      unfold printable in Hp. apply andb_true_iff in Hp. destruct Hp as [_ H2].
      apply Z.leb_le in H2. lia.
    + now destruct pasteMode.
Qed.

(* ---- estimateClearBackspaces ---- *)
(** X3. [estimateClearBackspaces] asks for between 24 and 220 backspaces:
    more than the trimmed value has runes as long as that has fewer than
    220, the default of 72 for an empty value, and 220 from 204 runes on. *)
Theorem estimateClearBackspaces_bounds (elem : Element.t) :
  let runes := len (strings.TrimSpace (Element.Value elem)) in
  let n := estimateClearBackspaces elem in
  (24 <= n <= 220)%Z
  /\ ((runes < 220)%Z -> (runes < n)%Z)
  /\ (runes = 0%Z -> n = 72%Z)
  /\ ((204 <= runes)%Z -> n = 220%Z).
Proof.
  intros runes n. unfold n, estimateClearBackspaces, defaultClearKeys, minInt.
  fold runes. pose proof (len_nonneg (strings.TrimSpace (Element.Value elem))) as H0.
  fold runes in H0.
  destruct (Z.leb_spec runes 0); [lia|].
  destruct (Z.ltb_spec runes 16); [lia|].
  destruct (Z.ltb_spec runes 40); [lia|].
  destruct (Z.ltb_spec (runes + 16) 220); lia.
Qed.

(* ---- the missing suffix of a prefix ---- *)
Lemma skipn_originalIndex_0 (b : gostring) :
  skipn (originalIndex b 0) b = strings.TrimLeftSpace b.
Proof.
  induction b as [|r b IH]; simpl; [reflexivity|].
  destruct (unicode.IsSpace r); [exact IH | reflexivity].
Qed.

Lemma originalIndex_app (a b : gostring) :
  originalIndex (a ++ b) (List.length (stripSpace a))
  = (List.length a + originalIndex b 0)%nat.
Proof.
  induction a as [|r a IH]; simpl; [reflexivity|].
  destruct (unicode.IsSpace r); simpl; now rewrite IH.
Qed.

(** X4. When the field shows a prefix of the intended text,
    [typedMissingSuffix] returns the rest of the text, without the white
    space it starts with, as what is missing: typing that rest after the
    prefix completes the text, white space apart. *)
Theorem typedMissingSuffix_of_prefix (shown rest : gostring) :
  typedMissingSuffix (shown ++ rest) shown
  = Some (strings.TrimLeftSpace rest, true).
Proof.
  rewrite typedMissingSuffix_eq.
  assert (Hstrip : stripSpace (shown ++ rest) = stripSpace shown ++ stripSpace rest)
    by apply filter_app.
  rewrite Hstrip.
  rewrite (proj2 (comparablePrefixLoop_iff (stripSpace shown)
                    (stripSpace shown ++ stripSpace rest)))
    by (now exists (stripSpace rest)).
  rewrite length_app.
  destruct (Nat.eqb_spec (List.length (stripSpace shown))
              (List.length (stripSpace shown) + List.length (stripSpace rest)))
    as [He|Hne].
  - assert (Hnil : stripSpace rest = []).
    { destruct (stripSpace rest); [reflexivity | simpl in He; lia]. }
    now rewrite (proj2 (TrimLeftSpace_nil_iff rest) Hnil).
  - rewrite originalIndex_app, skipn_app, skipn_all2 by lia.
    replace (List.length shown + originalIndex rest 0 - List.length shown)%nat
      with (originalIndex rest 0) by lia.
    now rewrite skipn_originalIndex_0.
Qed.

(** The chunks of a telephone number, and what is missing of an address the
    field shows in part. *)
Example splitIntoInputChunks_test :
  splitIntoInputChunks (str "090-0000-0000") 4
  = [str "090-"; str "0000"; str "-000"; str "0"].
Proof. reflexivity. Qed.

Example typedMissingSuffix_partial :
  typedMissingSuffix (str "hello@example.com") (str "hello@exam")
  = Some (str "ple.com", true).
Proof. reflexivity. Qed.

(* ----------------------------------------------------------------- *)
(** ** Tap points *)

Section TapPointFacts.
Context `{GoLib}.


End TapPointFacts.


(* ----------------------------------------------------------------- *)
(** ** Verification target and focus retries *)

Lemma mapGet_mapSet_other {V} (m : list (gostring * V)) (k k' : gostring) (v : V) :
  streq k k' = false -> mapGet (mapSet m k v) k' = mapGet m k'.
Proof.
  intros Hk. induction m as [|[k0 v0] rest IH]; simpl.
  - now rewrite Hk.
  - destruct (streq k0 k) eqn:E; simpl.
    + apply streq_true_iff in E. subst k0. now rewrite Hk.
    + now rewrite IH.
Qed.

Lemma mapGet_mapSet_same {V} (m : list (gostring * V)) (k : gostring) (v : V) :
  mapGet (mapSet m k v) k = Some v.
Proof.
  assert (Hk : streq k k = true) by now apply streq_true_iff.
  induction m as [|[k0 v0] rest IH]; simpl.
  - now rewrite Hk.
  - destruct (streq k0 k) eqn:E; simpl; [now rewrite Hk | now rewrite E].
Qed.

Section FocusFacts.
Context `{GoLib}.

Lemma nearestTextInputStep_inv (focused : Element.t) (seen : list Element.t)
  (acc : Element.t * bool * Q) (elem : Element.t) :
  nearestInv focused seen acc ->
  nearestInv focused (seen ++ [elem]) (nearestTextInputStep focused acc elem).
Proof.
  destruct acc as [[best found] bestScore]. intros [Hmin Hbest].
  unfold nearestTextInputStep.
  destruct (isTextInputRole (Element.Role elem)) eqn:Erole; cbn [negb].
  - fold (centerDistSq elem focused).
    destruct (Qltb (centerDistSq elem focused) bestScore) eqn:E.
    + apply Qltb_true in E. split.
      * intros e He Hr. apply in_app_or in He. destruct He as [He|[<-|[]]].
        -- specialize (Hmin e He Hr). lra.
        -- lra.
      * intros _. split; [apply in_or_app; right; now left|]. now split.
    + apply Qltb_false in E. split.
      * intros e He Hr. apply in_app_or in He. destruct He as [He|[<-|[]]].
        -- now apply Hmin.
        -- exact E.
      * intros Hf. destruct (Hbest Hf) as (Hin & Hr & Hs).
        split; [apply in_or_app; now left|]. now split.
  - split.
    + intros e He Hr. apply in_app_or in He. destruct He as [He|[<-|[]]].
      * now apply Hmin.
      * congruence.
    + intros Hf. destruct (Hbest Hf) as (Hin & Hr & Hs).
      split; [apply in_or_app; now left|]. now split.
Qed.

Lemma nearestFold_inv (focused : Element.t) (elements seen : list Element.t)
  (acc : Element.t * bool * Q) :
  nearestInv focused seen acc ->
  nearestInv focused (seen ++ elements)
    (fold_left (nearestTextInputStep focused) elements acc).
Proof.
  revert seen acc. induction elements as [|e rest IH]; intros seen acc Hinv; simpl.
  - now rewrite app_nil_r.
  - replace (seen ++ e :: rest) with ((seen ++ [e]) ++ rest)
      by (now rewrite <- app_assoc).
    apply IH. now apply nearestTextInputStep_inv.
Qed.

Lemma findBestVerificationTarget_In (elements : list Element.t)
  (focused best : Element.t) :
  findBestVerificationTarget elements focused = (best, true) -> In best elements.
Proof.
  unfold findBestVerificationTarget.
  pose proof (@nearestFold_inv focused elements []
                (Element.zero, false, MaxFloat64 * MaxFloat64)) as Hinv.
  destruct (fold_left (nearestTextInputStep focused) elements
              (Element.zero, false, MaxFloat64 * MaxFloat64))
    as [[b f] sc] eqn:Efold.
  cbn [app] in Hinv. destruct Hinv as [_ Hbest].
  { split; [intros e []|discriminate]. }
  destruct (if negb (isEmpty (strings.TrimSpace (Element.ID focused)))
            then find (fun elem => streq (Element.ID elem) (Element.ID focused))
                   elements
            else None) as [m|] eqn:Efind.
  - intros Hres. injection Hres as ->.
    destruct (negb (isEmpty (strings.TrimSpace (Element.ID focused))));
      [|discriminate].
    now apply find_some in Efind.
  - intros Hres. injection Hres as -> ->. now apply Hbest.
Qed.


(** The outcome of the attempts [attempt], ..., [attempt + remaining - 1]. *)
Lemma focusAttempts_outcome (world : Z -> attemptOutcome) (elem : Element.t)
  (retries : Z) (remaining : nat) (attempt : Z) (st : focusLoop.t) :
  match focusAttempts world elem retries remaining attempt st with
  | Ok r =>
      exists k snapshot matched,
        (attempt <= k < attempt + Z.of_nat remaining)%Z
        /\ world k = Snapshot snapshot
        /\ In matched (elementSnapshot.Elements snapshot)
        /\ canTrustFocus (elementSnapshot.Elements snapshot) matched = true
        /\ r = Element.setCenter matched (focusPointForElement matched)
  | Err err =>
      AppError.Code err = str "TYPE_FOCUS_FAILED"
      /\ mapGet (AppError.Details err) (str "attempts") = Some (DInt retries)
      /\ mapGet (AppError.Details err) (str "selectorId")
         = Some (DString (strings.TrimSpace (Element.ID elem)))
  end.
Proof.
  revert attempt st. induction remaining as [|remaining IH]; intros attempt st.
  - cbn [focusAttempts]. unfold focusFailure. cbn [AppError.Code AppError.Details].
    split; [reflexivity|].
    destruct (negb (isEmpty (strings.TrimSpace (focusLoop.lastReason st))));
      destruct (focusLoop.lastErr st); destruct (focusLoop.lastSnapshot st);
      rewrite ?mapGet_mapSet_other by reflexivity; split; reflexivity.
  - assert (Hnext : forall st',
      match focusAttempts world elem retries remaining (attempt + 1) st' with
      | Ok r =>
          exists k snapshot matched,
            (attempt <= k < attempt + Z.of_nat (S remaining))%Z
            /\ world k = Snapshot snapshot
            /\ In matched (elementSnapshot.Elements snapshot)
            /\ canTrustFocus (elementSnapshot.Elements snapshot) matched = true
            /\ r = Element.setCenter matched (focusPointForElement matched)
      | Err err =>
          AppError.Code err = str "TYPE_FOCUS_FAILED"
          /\ mapGet (AppError.Details err) (str "attempts") = Some (DInt retries)
          /\ mapGet (AppError.Details err) (str "selectorId")
             = Some (DString (strings.TrimSpace (Element.ID elem)))
      end).
    { intros st'. specialize (IH (attempt + 1)%Z st').
      destruct (focusAttempts world elem retries remaining (attempt + 1) st');
        [|exact IH].
      destruct IH as (k & snapshot & matched & Hk & Hrest).
      exists k, snapshot, matched. split; [lia | exact Hrest]. }
    cbn [focusAttempts].
    destruct (world attempt) as [err|err|snapshot] eqn:Ew; try apply Hnext.
    destruct (findBestVerificationTarget (elementSnapshot.Elements snapshot)
                (focusLoop.target st)) as [matched ok] eqn:Em.
    destruct ok; cbn [negb]; [|apply Hnext].
    destruct (canTrustFocus (elementSnapshot.Elements snapshot) matched) eqn:Et;
      [|apply Hnext].
    exists attempt, snapshot, matched.
    split; [lia|]. split; [exact Ew|].
    split; [exact (findBestVerificationTarget_In _ _ Em)|].
    now split.
Qed.

(** X7. [focusElementWithRetry] succeeds only with an element that the
    snapshot of one of its attempts contains and [canTrustFocus] accepts
    there, returned with its centre moved to its focus point; otherwise it
    fails with TYPE_FOCUS_FAILED, reporting the trimmed ID of the requested
    element and the number of attempts, which is [retries] or 1 when
    [retries] is not positive. *)
Theorem focusElementWithRetry_outcome (world : Z -> attemptOutcome)
  (elem : Element.t) (retries : Z) :
  match focusElementWithRetry world elem retries with
  | Ok r =>
      exists k snapshot matched,
        (1 <= k <= Z.max 1 retries)%Z
        /\ world k = Snapshot snapshot
        /\ In matched (elementSnapshot.Elements snapshot)
        /\ canTrustFocus (elementSnapshot.Elements snapshot) matched = true
        /\ r = Element.setCenter matched (focusPointForElement matched)
  | Err err =>
      AppError.Code err = str "TYPE_FOCUS_FAILED"
      /\ mapGet (AppError.Details err) (str "attempts")
         = Some (DInt (Z.max 1 retries))
      /\ mapGet (AppError.Details err) (str "selectorId")
         = Some (DString (strings.TrimSpace (Element.ID elem)))
  end.
Proof.
  unfold focusElementWithRetry.
  assert (Er : (if (retries <=? 0)%Z then 1%Z else retries) = Z.max 1 retries).
  { destruct (Z.leb_spec retries 0); lia. }
  rewrite Er.
  pose proof (focusAttempts_outcome world elem (Z.max 1 retries)
                (Z.to_nat (Z.max 1 retries)) 1
                (focusLoop.mk elem (focusPointForElement elem) [] None None)) as P.
  destruct (focusAttempts world elem (Z.max 1 retries)
              (Z.to_nat (Z.max 1 retries)) 1
              (focusLoop.mk elem (focusPointForElement elem) [] None None));
    [|exact P].
  destruct P as (k & snapshot & matched & Hk & Hrest).
  exists k, snapshot, matched. split; [lia | exact Hrest].
Qed.

End FocusFacts.


(* ----------------------------------------------------------------- *)
(** ** What the normalizer keeps *)

Section NormalizerFacts.
Context `{GoLib}.

Lemma filterStep_elements (opts : frameOptions.t) (P : Element.t -> Prop)
  (st : list Element.t * Z * Z) (node : candidateNode.t) :
  (forall elem, kept opts node elem ->
                P (Element.setOrder elem (candidateNode.Order node))) ->
  Forall P (fst (fst st)) ->
  Forall P (fst (fst (filterStep opts st node))).
Proof.
  intros Hnew Hst. destruct st as [[c a] n]. unfold filterStep.
  destruct (elementFromCandidate node) as [elem|] eqn:Eelem; [|exact Hst].
  destruct (Qltb _ _) eqn:Earea; [exact Hst|].
  destruct ((len (frameOptions.IncludeRoles opts) >? 0)%Z && _) eqn:Einc;
    [exact Hst|].
  destruct (mapGetBool (frameOptions.ExcludeRoles opts) _) eqn:Eexc; [exact Hst|].
  destruct (Element.Enabled elem) eqn:Een; cbn [negb]; [|exact Hst].
  destruct (frameOptions.InteractiveOnly opts
            && negb (isInteractiveRole (Element.Role elem))) eqn:Eint.
  - destruct (isInteractiveRole (Element.Role elem)); exact Hst.
  - assert (Hk : kept opts node elem) by (unfold kept; auto 10).
    destruct (isInteractiveRole (Element.Role elem)); cbn [fst];
      (apply Forall_app; split; [exact Hst|]; constructor; [|constructor]);
      now apply Hnew.
Qed.

Lemma filterFold_elements (opts : frameOptions.t) (P : Element.t -> Prop)
  (nodes : list candidateNode.t) (st : list Element.t * Z * Z) :
  (forall node elem, In node nodes -> kept opts node elem ->
                     P (Element.setOrder elem (candidateNode.Order node))) ->
  Forall P (fst (fst st)) ->
  Forall P (fst (fst (fold_left (filterStep opts) nodes st))).
Proof.
  revert st. induction nodes as [|node nodes IH]; intros st Hnew Hst; simpl;
    [exact Hst|].
  apply IH.
  - intros node' elem Hin. apply Hnew. now right.
  - apply filterStep_elements; [|exact Hst].
    intros elem. apply Hnew. now left.
Qed.

Lemma assignIndexFrom_Forall (P Q : Element.t -> Prop) (l : list Element.t) (i : Z) :
  (forall e k, P e -> Q (Element.setIndex e k)) ->
  Forall P l -> Forall Q (assignIndexFrom i l).
Proof.
  intros HPQ. revert i. induction l as [|e l IH]; intros i Hl; simpl;
    [constructor|].
  inversion Hl; subst. constructor; [now apply HPQ | now apply IH].
Qed.

Lemma addNearbyLabels_Forall (P Q : Element.t -> Prop) (l : list Element.t) :
  (forall e s, P e -> Q (Element.setNearbyLabel e s)) ->
  Forall P l -> Forall Q (addNearbyLabels l).
Proof.
  intros HPQ Hl. apply Forall_forall. intros e He.
  apply In_nth_error in He. destruct He as [k Hk].
  rewrite addNearbyLabels_nth in Hk.
  destruct (nth_error l k) as [e0|] eqn:E0; [|discriminate].
  injection Hk as <-.
  rewrite (withNearbyLabel_same l k e0).
  apply HPQ. rewrite Forall_forall in Hl. apply Hl.
  now apply nth_error_In in E0.
Qed.

(** Every element of the result comes from a discovered node. *)
Lemma normalizeElements_provenance (rawUI : any) (opts : frameOptions.t)
  (e : Element.t) :
  In e (fst (fst (normalizeElements rawUI opts))) ->
  exists node, In node (discoveredNodes rawUI) /\ comesFrom rawUI opts e node.
Proof.
  revert e. apply Forall_forall.
  rewrite normalizeElements_split.
  set (P0 := fun e0 : Element.t =>
               exists node elem, In node (discoveredNodes rawUI)
                 /\ kept opts node elem
                 /\ e0 = Element.setOrder elem (candidateNode.Order node)).
  set (screen := normalizeScreenRect rawUI opts).
  set (P1 := fun e1 : Element.t =>
               exists e0, P0 e0
                 /\ e1 = Element.setVisibility e0
                           (classifyVisibility (Element.Frame e0) screen)).
  set (P2 := fun e2 : Element.t =>
               exists e1 i, P1 e1 /\ e2 = Element.setIndex e1 i).
  apply (@addNearbyLabels_Forall P2).
  { intros e2 s (e1 & i & (e0 & (node & elem & Hin & Hk & ->) & ->) & ->).
    exists node. split; [exact Hin|]. exists elem, i, s. split; [exact Hk|].
    reflexivity. }
  unfold indexedCandidates. fold (discoveredNodes rawUI).
  pose proof (@filterFold_elements opts P0 (discoveredNodes rawUI)
                ([], 0%Z, 0%Z)) as Hfilter.
  assert (Hscreen : screen
            = inferScreenRect rawUI
                (fst (fst (fold_left (filterStep opts) (discoveredNodes rawUI)
                             ([], 0%Z, 0%Z))))) by reflexivity.
  clearbody screen.
  destruct (fold_left (filterStep opts) (discoveredNodes rawUI) ([], 0%Z, 0%Z))
    as [[c a] n].
  cbv zeta. cbn [fst] in *. rewrite <- Hscreen.
  assert (Hc : Forall P0 c).
  { apply Hfilter; [|constructor].
    intros node elem Hin Hk. now exists node, elem. }
  assert (Hvis : Forall P1
            (List.map (fun e => Element.setVisibility e
                         (classifyVisibility (Element.Frame e) screen)) c)).
  { apply Forall_map. eapply Forall_impl; [|exact Hc].
    intros e0 He0. now exists e0. }
  assert (Hsort : forall less l, Forall P1 l -> Forall P1 (sortSlice less l)).
  { intros less l Hl. rewrite Forall_forall in *. intros e He. apply Hl.
    apply (Permutation_in e (sortSlice_perm less l) He). }
  apply (@assignIndexFrom_Forall P1 P2).
  { intros e1 k He1. now exists e1, k. }
  repeat match goal with
         | |- context [if ?b then _ else _] => destruct b
         end; auto.
Qed.






(** X9. The visibility flags of every element [normalizeElements] returns are
    those [classifyVisibility] gives its frame on the screen rectangle
    inferred from the kept elements; so the element is visible, and an
    element that is offscreen has a frame that is not fully inside that
    rectangle. *)
Theorem normalizeElements_visibility (rawUI : any) (opts : frameOptions.t)
  (e : Element.t) :
  In e (fst (fst (normalizeElements rawUI opts))) ->
  (Element.Visible e, Element.Offscreen e)
  = classifyVisibility (Element.Frame e) (normalizeScreenRect rawUI opts).
Proof.
  intros He. apply normalizeElements_provenance in He.
  destruct He as (node & _ & elem & i & l & _ & ->).
  cbn [Element.setNearbyLabel Element.setIndex Element.setVisibility
       Element.setOrder Element.Visible Element.Offscreen Element.Frame].
  now destruct (classifyVisibility _ _).
Qed.

Lemma filterStep_counts (opts : frameOptions.t) (st : list Element.t * Z * Z)
  (node : candidateNode.t) (k : Z) :
  let inv := fun (st : list Element.t * Z * Z) (k : Z) =>
    let '(c, a, n) := st in
    (0 <= n <= a)%Z /\ (a <= k)%Z
    /\ len c = (if frameOptions.InteractiveOnly opts then n else a)
    /\ n = len (interactiveElements c) in
  inv st k -> inv (filterStep opts st node) (k + 1)%Z.
Proof.
  cbv zeta. destruct st as [[c a] n]. intros (Hn & Ha & Hc & Hi).
  unfold filterStep.
  destruct (elementFromCandidate node) as [elem|]; [|repeat split; lia].
  destruct (Qltb _ _); [repeat split; lia|].
  destruct ((len (frameOptions.IncludeRoles opts) >? 0)%Z && _);
    [repeat split; lia|].
  destruct (mapGetBool (frameOptions.ExcludeRoles opts) _); [repeat split; lia|].
  destruct (Element.Enabled elem); cbn [negb]; [|repeat split; lia].
  unfold interactiveElements, len in *.
  destruct (isInteractiveRole (Element.Role elem)) eqn:Er;
    destruct (frameOptions.InteractiveOnly opts); cbn [andb negb];
    rewrite ?filter_app, ?length_app; cbn [filter Element.setOrder Element.Role];
    rewrite ?Er; cbn [List.length]; repeat split; lia.
Qed.

Lemma filterFold_counts (opts : frameOptions.t) (nodes : list candidateNode.t) :
  let '(c, a, n) := fold_left (filterStep opts) nodes ([], 0%Z, 0%Z) in
  (0 <= n <= a)%Z /\ (a <= len nodes)%Z
  /\ len c = (if frameOptions.InteractiveOnly opts then n else a)
  /\ n = len (interactiveElements c).
Proof.
  set (inv := fun (st : list Element.t * Z * Z) (k : Z) =>
    let '(c, a, n) := st in
    (0 <= n <= a)%Z /\ (a <= k)%Z
    /\ len c = (if frameOptions.InteractiveOnly opts then n else a)
    /\ n = len (interactiveElements c)).
  assert (Hgen : forall nodes st k, inv st k ->
            inv (fold_left (filterStep opts) nodes st) (k + len nodes)%Z).
  { clear nodes. induction nodes as [|node nodes IH]; intros st k Hst; simpl.
    - unfold len; simpl. now rewrite Z.add_0_r.
    - replace (k + len (node :: nodes))%Z with ((k + 1) + len nodes)%Z
        by (unfold len; cbn [List.length]; lia).
      apply IH. now apply filterStep_counts. }
  specialize (Hgen nodes ([], 0%Z, 0%Z) 0%Z).
  apply Hgen. unfold inv, len, interactiveElements; simpl.
  destruct (frameOptions.InteractiveOnly opts); repeat split; lia.
Qed.

Lemma interactiveElements_length_Role (l l' : list Element.t) :
  List.map Element.Role l = List.map Element.Role l' ->
  List.length (interactiveElements l) = List.length (interactiveElements l').
Proof.
  unfold interactiveElements. revert l'.
  induction l as [|e l IH]; intros [|e' l'] E; try discriminate; [reflexivity|].
  simpl in E. injection E as Er El. cbn [filter]. rewrite Er.
  destruct (isInteractiveRole (Element.Role e')); cbn [List.length];
    now rewrite (IH l' El).
Qed.

Lemma interactiveElements_length_perm (l l' : list Element.t) :
  Permutation l l' ->
  List.length (interactiveElements l) = List.length (interactiveElements l').
Proof.
  intros Hp. unfold interactiveElements.
  induction Hp; cbn [filter];
    repeat match goal with
           | |- context [isInteractiveRole ?r] => destruct (isInteractiveRole r)
           end; cbn [List.length]; congruence.
Qed.

Lemma assignIndexFrom_Role (i : Z) (l : list Element.t) :
  List.map Element.Role (assignIndexFrom i l) = List.map Element.Role l.
Proof. revert i; induction l; intros; simpl; [|rewrite IHl]; reflexivity. Qed.

Lemma addNearbyLabels_Role (elements : list Element.t) :
  List.map Element.Role (addNearbyLabels elements) = List.map Element.Role elements.
Proof.
  apply list_ext_nth_error. intros k.
  rewrite !nth_error_map, addNearbyLabels_nth.
  destruct (nth_error elements k) as [e|]; simpl; [|reflexivity].
  f_equal. rewrite (withNearbyLabel_same elements k e). reflexivity.
Qed.

Lemma normalizeElements_count_facts (rawUI : any) (opts : frameOptions.t) :
  let '(elements, allCount, interactiveCount) := normalizeElements rawUI opts in
  (0 <= interactiveCount <= allCount)%Z
  /\ (allCount <= len (discoveredNodes rawUI))%Z
  /\ len elements
     = (if frameOptions.InteractiveOnly opts then interactiveCount else allCount)
  /\ interactiveCount = len (interactiveElements elements).
Proof.
  unfold normalizeElements, indexedCandidates. fold (discoveredNodes rawUI).
  pose proof (filterFold_counts opts (discoveredNodes rawUI)) as Hc.
  destruct (fold_left (filterStep opts) (discoveredNodes rawUI) ([], 0%Z, 0%Z))
    as [[c a] n].
  cbv zeta. destruct Hc as (Hn & Ha & Hlen & Hi).
  split; [exact Hn|]. split; [exact Ha|].
  set (vis := List.map _ c).
  set (sorted := if streq _ _ then _ else _).
  assert (Hperm : Permutation sorted vis).
  { unfold sorted.
    repeat match goal with
           | |- context [if ?b then _ else _] => destruct b
           end; try apply sortSlice_perm; reflexivity. }
  assert (Hvis : List.map Element.Role vis = List.map Element.Role c).
  { unfold vis. rewrite map_map. reflexivity. }
  unfold len in *. split.
  - rewrite addNearbyLabels_length, assignIndexFrom_length,
      (Permutation_length Hperm). unfold vis. now rewrite length_map.
  - rewrite Hi. f_equal. symmetry.
    rewrite (interactiveElements_length_Role _ _
               (addNearbyLabels_Role (assignIndexFrom 0 sorted))).
    rewrite (interactiveElements_length_Role _ _ (assignIndexFrom_Role 0 sorted)).
    rewrite (interactiveElements_length_perm Hperm).
    now apply interactiveElements_length_Role.
Qed.

(** X10. The counters of [normalizeElements]: of the discovered nodes,
    [allCount] pass the filters and [interactiveCount] of those have an
    interactive role; the slice returned holds exactly the interactive ones
    when [InteractiveOnly] is set and all of them otherwise, and in both
    cases [interactiveCount] is the number of interactive elements in it. *)
Theorem normalizeElements_counts (rawUI : any) (opts : frameOptions.t) :
  let elements := fst (fst (normalizeElements rawUI opts)) in
  let allCount := snd (fst (normalizeElements rawUI opts)) in
  let interactiveCount := snd (normalizeElements rawUI opts) in
  (0 <= interactiveCount <= allCount)%Z
  /\ (allCount <= len (discoveredNodes rawUI))%Z
  /\ len elements
     = (if frameOptions.InteractiveOnly opts then interactiveCount else allCount)
  /\ interactiveCount = len (interactiveElements elements).
Proof.
  pose proof (normalizeElements_count_facts rawUI opts) as P.
  destruct (normalizeElements rawUI opts) as [[elements allCount] interactiveCount].
  exact P.
Qed.

End NormalizerFacts.


Lemma normalizeElements_visibility_witness :
  (Element.Visible
     (nth 1 (fst (fst (@normalizeElements exampleLib sampleTree stableOptions)))
        Element.zero),
   Element.Offscreen
     (nth 1 (fst (fst (@normalizeElements exampleLib sampleTree stableOptions)))
        Element.zero))
  = classifyVisibility
      (Element.Frame
         (nth 1 (fst (fst (@normalizeElements exampleLib sampleTree stableOptions)))
            Element.zero))
      (@normalizeScreenRect exampleLib sampleTree stableOptions).
Proof.
  apply (@normalizeElements_visibility exampleLib sampleTree stableOptions).
  vm_compute. right. left. reflexivity.
Defined.

Example normalizeElements_sample :
  List.map (fun e => (Element.Index e, Element.Label e, Element.Visible e))
    (fst (fst (@normalizeElements exampleLib sampleTree stableOptions)))
  = [(1%Z, str "Email", true); (2%Z, str "Sign in", true)].
Proof. vm_compute. reflexivity. Qed.

(* ----------------------------------------------------------------- *)
(** ** Discovery order *)

Lemma any_induction (P : any -> Prop)
  (Hnil : P VNil) (Hbool : forall b, P (VBool b))
  (Hnum : forall n, P (VNumber n)) (Hstr : forall s, P (VString s))
  (Hslice : forall l, Forall P l -> P (VSlice l))
  (Hmap : forall m, Forall (fun kv => P (snd kv)) m -> P (VMap m)) :
  forall v, P v.
Proof.
  fix IH 1. intros [| b | n | s | l | m].
  - exact Hnil.
  - apply Hbool.
  - apply Hnum.
  - apply Hstr.
  - apply Hslice. induction l as [|c l IHl]; constructor; [apply IH | exact IHl].
  - apply Hmap. induction m as [|[k c] m IHm]; constructor; [apply IH | exact IHm].
Qed.

Lemma countFrom_shift (n : Z) (j a k : nat) :
  List.map (fun i => (n + Z.of_nat i)%Z) (seq (a + j) k)
  = List.map (fun i => (n + Z.of_nat j + Z.of_nat i)%Z) (seq a k).
Proof.
  revert a. induction k as [|k IH]; intros a; simpl; [reflexivity|].
  f_equal; [lia|]. apply (IH (S a)).
Qed.

Lemma countFrom_app (n : Z) (j k : nat) :
  countFrom n j ++ countFrom (n + Z.of_nat j) k = countFrom n (j + k).
Proof.
  unfold countFrom. rewrite seq_app, map_app. f_equal.
  symmetry. apply (countFrom_shift n j 1 k).
Qed.

Lemma walkCandidates_adds (v : any) :
  forall path st, walkAdds v path st (walkCandidates v path st).
Proof.
  induction v as [| b | n | s | l IHl | m IHm] using any_induction;
    intros path st;
    try (exists []; rewrite app_nil_r; unfold len; simpl;
         repeat split; try lia; discriminate).
  - (* slice *)
    unfold walkAdds. cbn [walkCandidates countMaps].
    assert (Hitems : forall i st0,
      exists new,
        snd ((fix items (l : list any) (i : Z) (st : Z * list candidateNode.t) :=
                match l with
                | [] => st
                | child :: rest =>
                    items rest (i + 1)%Z
                      (walkCandidates child (path ++ str "/" ++ itoa i) st)
                end) l i st0) = snd st0 ++ new
        /\ fst ((fix items (l : list any) (i : Z) (st : Z * list candidateNode.t) :=
                   match l with
                   | [] => st
                   | child :: rest =>
                       items rest (i + 1)%Z
                         (walkCandidates child (path ++ str "/" ++ itoa i) st)
                   end) l i st0) = (fst st0 + len new)%Z
        /\ List.map candidateNode.Order new = countFrom (fst st0) (List.length new)
        /\ len new
           = (fix items (l : list any) : Z :=
                match l with
                | [] => 0%Z
                | child :: rest => (countMaps child + items rest)%Z
                end) l).
    { induction IHl as [|child rest Hchild _ IH]; intros i st0.
      - exists []. rewrite app_nil_r. unfold len; simpl.
        repeat split; lia.
      - lazy beta iota.
        destruct (Hchild (path ++ str "/" ++ itoa i) st0)
          as (new1 & Hs1 & Hf1 & Ho1 & Hc1 & _).
        destruct (IH (i + 1)%Z
                    (walkCandidates child (path ++ str "/" ++ itoa i) st0))
          as (new2 & Hs2 & Hf2 & Ho2 & Hc2).
        exists (new1 ++ new2).
        rewrite Hs2, Hs1, Hf2, Hf1. unfold len in *.
        rewrite !length_app, map_app, Ho1, Ho2, Hf1, app_assoc.
        split; [reflexivity|]. split; [lia|]. split.
        + unfold len. apply countFrom_app.
        + rewrite <- Hc1, <- Hc2. lia. }
    destruct (Hitems 0%Z st) as (new & Hs & Hf & Ho & Hc).
    exists new. repeat (split; [assumption|]). discriminate.
  - (* map *)
    unfold walkAdds. cbn [walkCandidates countMaps].
    set (node := candidateNode.mk path (fst st + 1)%Z m).
    assert (Hfields : forall st0,
      exists new,
        snd ((fix fields (m : list (gostring * any)) (st : Z * list candidateNode.t) :=
                match m with
                | [] => st
                | (k, child) :: rest =>
                    fields rest (walkCandidates child (path ++ str "/" ++ k) st)
                end) m st0) = snd st0 ++ new
        /\ fst ((fix fields (m : list (gostring * any)) (st : Z * list candidateNode.t) :=
                   match m with
                   | [] => st
                   | (k, child) :: rest =>
                       fields rest (walkCandidates child (path ++ str "/" ++ k) st)
                   end) m st0) = (fst st0 + len new)%Z
        /\ List.map candidateNode.Order new = countFrom (fst st0) (List.length new)
        /\ len new
           = (fix fields (m : list (gostring * any)) : Z :=
                match m with
                | [] => 0%Z
                | (_, child) :: rest => (countMaps child + fields rest)%Z
                end) m).
    { clear node. induction IHm as [|[k child] rest Hchild _ IH]; intros st0.
      - exists []. rewrite app_nil_r. unfold len; simpl.
        repeat split; lia.
      - cbn [snd] in Hchild. lazy beta iota.
        destruct (Hchild (path ++ str "/" ++ k) st0)
          as (new1 & Hs1 & Hf1 & Ho1 & Hc1 & _).
        destruct (IH (walkCandidates child (path ++ str "/" ++ k) st0))
          as (new2 & Hs2 & Hf2 & Ho2 & Hc2).
        exists (new1 ++ new2).
        rewrite Hs2, Hs1, Hf2, Hf1. unfold len in *.
        rewrite !length_app, map_app, Ho1, Ho2, Hf1, app_assoc.
        split; [reflexivity|]. split; [lia|]. split.
        + unfold len. apply countFrom_app.
        + rewrite <- Hc1, <- Hc2. lia. }
    destruct (Hfields ((fst st + 1)%Z, snd st ++ [node]))
      as (new & Hs & Hf & Ho & Hc).
    exists (node :: new).
    rewrite Hs, Hf. cbn [fst snd]. unfold len in *. cbn [List.length List.map].
    rewrite <- app_assoc. cbn [app].
    split; [reflexivity|]. split; [lia|]. split.
    + cbn [fst] in Ho. rewrite Ho.
      change (candidateNode.Order node :: countFrom (fst st + 1)%Z (List.length new))
        with (countFrom (fst st) 1 ++ countFrom (fst st + Z.of_nat 1) (List.length new)).
      now rewrite countFrom_app.
    + split; [rewrite <- Hc; lia|].
      intros m' E. injection E as <-. now exists new.
Qed.


(** X11. [walkCandidates], as [normalizeElements] calls it, records one node
    for every map of the raw tree and numbers the nodes 1, 2, ... in the
    order in which it records them; a tree that is a map is its own first
    node, with the empty path. *)
Theorem discoveredNodes_numbering (rawUI : any) :
  List.map candidateNode.Order (discoveredNodes rawUI)
  = countFrom 0 (List.length (discoveredNodes rawUI))
  /\ len (discoveredNodes rawUI) = countMaps rawUI
  /\ forall m, rawUI = VMap m ->
       nth_error (discoveredNodes rawUI) 0 = Some (candidateNode.mk [] 1 m).
Proof.
  unfold discoveredNodes.
  destruct (walkCandidates_adds rawUI [] (0%Z, []))
    as (new & Hs & _ & Ho & Hc & Hroot).
  cbn [fst snd app] in *. rewrite Hs.
  split; [exact Ho|]. split; [exact Hc|].
  intros m E. destruct (Hroot m E) as [rest ->]. reflexivity.
Qed.

(* ----------------------------------------------------------------- *)
(** ** The order of the result *)

Lemma strlt_irrefl (a : gostring) : strlt a a = false.
Proof.
  induction a as [|x a IH]; simpl; [reflexivity|].
  now rewrite Z.ltb_irrefl, Z.eqb_refl, IH.
Qed.














Section SortedSlice.
Variable A : Type.
Variable less : A -> A -> bool.
Hypothesis less_asym : forall a b, less a b = true -> less b a = false.
Hypothesis less_negtrans :
  forall a b c, less a b = false -> less b c = false -> less a c = false.


End SortedSlice.


Section OrderFacts.
Context `{GoLib}.









End OrderFacts.

(* ----------------------------------------------------------------- *)
(** ** Pickers and the resolver *)

Section PickFacts.
Context `{GoLib}.

Lemma find_index_dense (elements : list Element.t) (k : Z) (start : nat) :
  List.map Element.Index elements
  = List.map Z.of_nat (seq start (List.length elements)) ->
  (0 <= k)%Z ->
  find (fun e => (Element.Index e =? k)%Z) elements
  = if (Z.of_nat start <=? k)%Z then nth_error elements (Z.to_nat k - start)
    else None.
Proof.
  revert start. induction elements as [|e l IH]; intros start Hidx Hk.
  - simpl. destruct (Z.of_nat start <=? k)%Z; [|reflexivity].
    now destruct (Z.to_nat k - start)%nat.
  - simpl in Hidx. injection Hidx as He Hl. cbn [find]. rewrite He.
    destruct (Z.eqb_spec (Z.of_nat start) k) as [E|E].
    + subst k. rewrite Z.leb_refl, Nat2Z.id, Nat.sub_diag. reflexivity.
    + rewrite (IH (S start) Hl Hk).
      destruct (Z.leb_spec (Z.of_nat (S start)) k),
               (Z.leb_spec (Z.of_nat start) k); try lia; [|reflexivity].
      replace (Z.to_nat k - start)%nat with (S (Z.to_nat k - S start)) by lia.
      reflexivity.
Qed.

Lemma normalizeElements_Index_seq (rawUI : any) (opts : frameOptions.t) :
  List.map Element.Index (fst (fst (normalizeElements rawUI opts)))
  = List.map Z.of_nat
      (seq 1 (List.length (fst (fst (normalizeElements rawUI opts))))).
Proof.
  rewrite normalizeElements_split, addNearbyLabels_Index, addNearbyLabels_length.
  apply indexedCandidates_Index.
Qed.

(** X13. On the elements [normalizeElements] returns, [pickElement] with an
    index [k >= 0] returns the element at position [k - 1] of the slice,
    whatever the id, and fails with ELEMENT_NOT_FOUND for [k = 0] and for
    every [k] above the number of elements. *)
Theorem pickElement_by_index (rawUI : any) (opts : frameOptions.t) (k : Z)
  (id : gostring) :
  (0 <= k)%Z ->
  let elements := fst (fst (normalizeElements rawUI opts)) in
  ((1 <= k <= len elements)%Z ->
   exists e, nth_error elements (Z.to_nat (k - 1)) = Some e
             /\ pickElement elements k id = Ok e)
  /\ (k = 0%Z \/ (len elements < k)%Z ->
      pickElement elements k id
      = Err (notFoundError (str "element index not found: " ++ itoa k))).
Proof.
  intros Hk elements. unfold pickElement.
  destruct (Z.geb_spec k 0) as [_|Hlt]; [|lia].
  rewrite (@find_index_dense elements k 1
             (normalizeElements_Index_seq rawUI opts) Hk).
  unfold len. change (Z.of_nat 1) with 1%Z.
  replace (Z.to_nat k - 1)%nat with (Z.to_nat (k - 1)) by lia.
  split.
  - intros [H1 H2]. destruct (Z.leb_spec 1 k); [|lia].
    destruct (nth_error elements (Z.to_nat (k - 1))) as [e|] eqn:E.
    + now exists e.
    + apply nth_error_None in E. lia.
  - intros Hout. destruct (Z.leb_spec 1 k); [|reflexivity].
    destruct (nth_error elements (Z.to_nat (k - 1))) eqn:E; [|reflexivity].
    assert (Z.to_nat (k - 1) < List.length elements)%nat
      by (apply nth_error_Some; congruence).
    lia.
Qed.

End PickFacts.

Lemma pickElement_by_index_witness :
  exists e,
    nth_error (fst (fst (@normalizeElements exampleLib sampleTree stableOptions))) 1
    = Some e
    /\ pickElement (fst (fst (@normalizeElements exampleLib sampleTree
                                stableOptions))) 2 (str "ignored")
       = Ok e.
Proof.
  assert (Hk : (0 <= 2)%Z) by lia.
  apply (proj1 (@pickElement_by_index exampleLib sampleTree stableOptions 2
                  (str "ignored") Hk)).
  vm_compute. split; discriminate.
Defined.

Section FallbackFacts.
Context `{GoLib}.

Lemma ToLower_nil_iff (s : gostring) : strings.ToLower s = [] <-> s = [].
Proof. unfold strings.ToLower. destruct s; simpl; split; congruence. Qed.

Lemma fallbackQuery_blank (label contains : gostring) :
  fallbackQuery label contains = []
  <-> strings.TrimSpace label = [] /\ strings.TrimSpace contains = [].
Proof.
  unfold fallbackQuery.
  destruct (isEmpty (strings.ToLower (strings.TrimSpace label))) eqn:E.
  - apply isEmpty_true in E. apply (proj1 (ToLower_nil_iff _)) in E.
    rewrite ToLower_nil_iff. tauto.
  - apply isEmpty_false in E. rewrite ToLower_nil_iff in E.
    rewrite ToLower_nil_iff. tauto.
Qed.

Lemma systemFallbackStep_cases (rightIntent leftIntent : bool)
  (acc : Element.t * bool) (elem : Element.t) :
  systemFallbackStep rightIntent leftIntent acc elem = acc
  \/ (systemFallbackStep rightIntent leftIntent acc elem = (elem, true)
      /\ inTopBar elem = true).
Proof.
  destruct acc as [best found]. unfold systemFallbackStep, inTopBar.
  destruct (negb (Element.Enabled elem) || negb (Element.Visible elem));
    [now left|].
  destruct (Qltb 180 (FrameRect.Y (Element.Frame elem))); [now left|].
  destruct (negb (isInteractiveRole (Element.Role elem))
            && negb (strings.Contains (strings.ToLower (Element.Role elem))
                       (str "navigation"))); [now left|].
  cbn [negb andb].
  destruct found; cbn [negb]; [|now right].
  destruct (Qltb (FramePoint.Y (Element.Center elem))
              (FramePoint.Y (Element.Center best))); [now right|].
  destruct (Qle_bool _ 20); [|now left].
  destruct (rightIntent
            && Qltb (FramePoint.X (Element.Center best))
                 (FramePoint.X (Element.Center elem))).
  - destruct (leftIntent && _); now right.
  - destruct (leftIntent && _); [now right | now left].
Qed.

Lemma systemFallbackFold_inv (rightIntent leftIntent : bool)
  (elements seen : list Element.t) (acc : Element.t * bool) :
  (snd acc = true -> In (fst acc) seen /\ inTopBar (fst acc) = true) ->
  (snd acc = false -> forall e, In e seen -> inTopBar e = false) ->
  let res := fold_left (systemFallbackStep rightIntent leftIntent) elements acc in
  (snd res = true -> In (fst res) (seen ++ elements) /\ inTopBar (fst res) = true)
  /\ (snd res = false -> forall e, In e (seen ++ elements) -> inTopBar e = false).
Proof.
  revert seen acc. induction elements as [|elem rest IH]; intros seen acc Ht Hf.
  - simpl. rewrite app_nil_r. now split.
  - cbn [fold_left].
    replace (seen ++ elem :: rest) with ((seen ++ [elem]) ++ rest)
      by (now rewrite <- app_assoc).
    apply IH.
    + destruct (systemFallbackStep_cases rightIntent leftIntent acc elem)
        as [->|[-> Htop]].
      * intros Hs. destruct (Ht Hs) as [Hin Hb].
        split; [apply in_or_app; now left | exact Hb].
      * intros _. split; [apply in_or_app; right; now left | exact Htop].
    + intros Hs e He. apply in_app_or in He.
      destruct (systemFallbackStep_cases rightIntent leftIntent acc elem)
        as [E|[E Htop]]; rewrite E in Hs; [|discriminate].
      destruct He as [He|[<-|[]]]; [now apply Hf|].
      (* the step kept a state without an element, so [elem] was skipped *)
      destruct acc as [best found]. cbn [snd] in Hs. subst found.
      unfold systemFallbackStep in E. unfold inTopBar.
      destruct (negb (Element.Enabled elem) || negb (Element.Visible elem));
        [reflexivity|].
      destruct (Qltb 180 (FrameRect.Y (Element.Frame elem))); [reflexivity|].
      destruct (negb (isInteractiveRole (Element.Role elem))
                && negb (strings.Contains (strings.ToLower (Element.Role elem))
                           (str "navigation"))); [reflexivity|].
      cbn [negb] in E. discriminate.
Qed.

Lemma pickSystemFallbackElement_In (elements : list Element.t)
  (label contains : gostring) (best : Element.t) :
  pickSystemFallbackElement elements label contains = (best, true) ->
  In best elements /\ inTopBar best = true.
Proof.
  unfold pickSystemFallbackElement.
  destruct (isEmpty (fallbackQuery label contains)); [discriminate|].
  destruct (negb _ && negb _); [discriminate|].
  match goal with
  | |- fold_left (systemFallbackStep ?r ?l) _ _ = _ -> _ =>
      pose proof (@systemFallbackFold_inv r l elements [] (Element.zero, false))
        as Hinv
  end.
  intros Hres. cbv zeta in Hinv. rewrite Hres in Hinv. cbn [fst snd app] in Hinv.
  destruct Hinv as [Hfound _]; [discriminate | intros _ e [] |].
  now apply Hfound.
Qed.


Lemma intentCandidates_In (query : gostring) (wantBack wantCheck : bool)
  (elements : list Element.t) (c : candidate.t) :
  In c (intentCandidates query wantBack wantCheck elements)
  <-> exists e, In e elements
                /\ intentCandidate query wantBack wantCheck e = Some c.
Proof.
  induction elements as [|e l IH]; simpl.
  - split; [intros [] | intros (e & [] & _)].
  - destruct (intentCandidate query wantBack wantCheck e) as [c'|] eqn:E; simpl;
      rewrite IH; split.
    + intros [<-|(e0 & Hin & Hs)]; [exists e; auto | exists e0; auto].
    + intros (e0 & [<-|Hin] & Hs); [left; congruence | right; exists e0; auto].
    + intros (e0 & Hin & Hs); exists e0; auto.
    + intros (e0 & [<-|Hin] & Hs); [congruence | exists e0; auto].
Qed.

Lemma intentCandidate_Some (query : gostring) (wantBack wantCheck : bool)
  (e : Element.t) (c : candidate.t) :
  intentCandidate query wantBack wantCheck e = Some c
  <-> Element.Enabled e = true /\ Element.Visible e = true
      /\ isInteractiveRole (Element.Role e) = true
      /\ (0 < intentScore query wantBack wantCheck e)%Z
      /\ c = candidate.mk e (intentScore query wantBack wantCheck e).
Proof.
  unfold intentCandidate.
  destruct (Element.Enabled e), (Element.Visible e),
           (isInteractiveRole (Element.Role e)); cbn [negb orb];
    try (split; [discriminate | intros (? & ? & ? & _); discriminate]).
  destruct (Z.gtb_spec (intentScore query wantBack wantCheck e) 0).
  - split.
    + intros E. injection E as <-. auto.
    + intros (_ & _ & _ & _ & ->). reflexivity.
  - split; [discriminate | intros (_ & _ & _ & Hs & _); lia].
Qed.

Lemma pickIntentFallbackElement_In (elements : list Element.t)
  (label contains : gostring) (best : Element.t) :
  pickIntentFallbackElement elements label contains = (best, true) ->
  In best elements.
Proof.
  unfold pickIntentFallbackElement.
  destruct (isEmpty (fallbackQuery label contains)); [discriminate|].
  destruct (negb _ && negb _); [discriminate|].
  destruct (len _ =? 0)%Z; [discriminate|].
  destruct (sortSlice candidateLess _) as [|h t] eqn:Es; [discriminate|].
  intros Hres. injection Hres as <-.
  destruct (@sortSlice_head_least _ candidateLess candidateLess_asym
              candidateLess_negtrans _ h t Es) as [Hh _].
  apply intentCandidates_In in Hh. destruct Hh as (w & Hw & Hc).
  apply intentCandidate_Some in Hc. destruct Hc as (_ & _ & _ & _ & ->).
  exact Hw.
Qed.

(** X15. An element [pickIntentFallbackElement] returns belongs to the
    snapshot, is enabled, visible and interactive and has a positive intent
    score, and no other such element of the snapshot has a higher score, or
    the same score and a lower index; the query was not blank. *)
Theorem pickIntentFallbackElement_found (elements : list Element.t)
  (label contains : gostring) (best : Element.t) :
  pickIntentFallbackElement elements label contains = (best, true) ->
  exists wantBack wantCheck : bool,
    let score := intentScore (fallbackQuery label contains) wantBack wantCheck in
    wantBack || wantCheck = true
    /\ In best elements
    /\ Element.Enabled best = true /\ Element.Visible best = true
    /\ isInteractiveRole (Element.Role best) = true
    /\ (0 < score best)%Z
    /\ (strings.TrimSpace label <> [] \/ strings.TrimSpace contains <> [])
    /\ forall e, In e elements -> Element.Enabled e = true ->
         Element.Visible e = true ->
         isInteractiveRole (Element.Role e) = true -> (0 < score e)%Z ->
         (score e < score best)%Z
         \/ (score e = score best /\ (Element.Index best <= Element.Index e)%Z).
Proof.
  unfold pickIntentFallbackElement.
  destruct (isEmpty (fallbackQuery label contains)) eqn:Eq; [discriminate|].
  set (query := fallbackQuery label contains) in *.
  set (wantBack := containsAnyToken query _).
  set (wantCheck := containsAnyToken query _).
  destruct (negb wantBack && negb wantCheck) eqn:Ew; [discriminate|].
  set (candidates := intentCandidates query wantBack wantCheck elements).
  destruct (len candidates =? 0)%Z; [discriminate|].
  destruct (sortSlice candidateLess candidates) as [|h t] eqn:Es; [discriminate|].
  intros Hres. injection Hres as <-.
  destruct (@sortSlice_head_least _ candidateLess candidateLess_asym
              candidateLess_negtrans candidates h t Es) as [Hh Hleast].
  apply intentCandidates_In in Hh. destruct Hh as (w & Hw & Hc).
  apply intentCandidate_Some in Hc.
  destruct Hc as (Hen & Hvis & Hrole & Hpos & ->). cbn [candidate.Element].
  exists wantBack, wantCheck. cbv zeta.
  split. { destruct wantBack, wantCheck; try reflexivity; discriminate. }
  repeat (split; [assumption|]). split.
  - apply isEmpty_false in Eq.
    destruct (list_eq_dec Z.eq_dec (strings.TrimSpace label) []) as [El|El];
      [|now left].
    right. intros Ec. apply Eq. now apply fallbackQuery_blank.
  - intros e He Hee Hev Her Hes.
    assert (Hcin : In (candidate.mk e (intentScore query wantBack wantCheck e))
                     candidates).
    { apply intentCandidates_In. exists e. split; [exact He|].
      apply intentCandidate_Some. auto. }
    apply Hleast, candidateLess_false in Hcin. exact Hcin.
Qed.

End FallbackFacts.


Lemma pickIntentFallbackElement_found_witness :
  In (nth 0 barElements Element.zero) barElements
  /\ @isInteractiveRole exampleLib
       (Element.Role (nth 0 barElements Element.zero)) = true.
Proof.
  destruct (@pickIntentFallbackElement_found exampleLib barElements
              (str "Back") [] (nth 0 barElements Element.zero) eq_refl)
    as (wantBack & wantCheck & _ & Hin & _ & _ & Hrole & _).
  split; [exact Hin | exact Hrole].
Defined.

Section ResolverFacts.
Context `{GoLib}.

Lemma scoreCandidate_Element (exactLabel partial : gostring) (e : Element.t)
  (c : candidate.t) :
  scoreCandidate exactLabel partial e = Some c ->
  candidate.Element c = e /\ Element.Enabled e = true.
Proof.
  unfold scoreCandidate.
  destruct (Element.Enabled e); cbn [negb]; [|discriminate].
  destruct (negb (isEmpty exactLabel)).
  - destruct (negb _); [discriminate|].
    destruct (negb (isEmpty partial)).
    + destruct (negb _); [discriminate|].
      intros E. injection E as <-. now split.
    + intros E. injection E as <-. now split.
  - destruct (negb (isEmpty partial)).
    + destruct (negb _); [discriminate|].
      intros E. injection E as <-. now split.
    + intros E. injection E as <-. now split.
Qed.

Lemma pickElement_outcome (elements : list Element.t) (index : Z) (id : gostring) :
  match pickElement elements index id with
  | Ok e => In e elements
  | Err err =>
      AppError.Code err = str "USAGE"
      \/ AppError.Code err = str "ELEMENT_NOT_FOUND"
  end.
Proof.
  unfold pickElement.
  destruct (index >=? 0)%Z.
  - destruct (find _ elements) eqn:E; [now apply find_some in E | now right].
  - destruct (negb (isEmpty id)); [|now left].
    destruct (find _ elements) eqn:E; [now apply find_some in E | now right].
Qed.

Lemma pickElementByText_outcome (elements : list Element.t)
  (exactLabel partial : gostring) :
  match pickElementByText elements exactLabel partial with
  | Ok e => In e elements /\ Element.Enabled e = true
  | Err err => AppError.Code err = str "ELEMENT_NOT_FOUND"
  end.
Proof.
  unfold pickElementByText.
  set (l := strings.ToLower (strings.TrimSpace exactLabel)).
  set (p := strings.ToLower (strings.TrimSpace partial)).
  destruct (len (collectCandidates l p elements) =? 0)%Z.
  - destruct (negb (isEmpty l)); reflexivity.
  - destruct (sortSlice candidateLess (collectCandidates l p elements))
      as [|h t] eqn:Es; [reflexivity|].
    destruct (@sortSlice_head_least _ candidateLess candidateLess_asym
                candidateLess_negtrans _ h t Es) as [Hh _].
    apply collectCandidates_In in Hh. destruct Hh as (e & He & Hs).
    apply scoreCandidate_Element in Hs. destruct Hs as [-> Hen]. now split.
Qed.

Lemma pickElementBySelectors_outcome (elements : list Element.t) (index : Z)
  (id label contains : gostring) :
  match pickElementBySelectors elements index id label contains with
  | Ok e => In e elements
  | Err err =>
      AppError.Code err = str "USAGE"
      \/ AppError.Code err = str "ELEMENT_NOT_FOUND"
  end.
Proof.
  unfold pickElementBySelectors.
  destruct (_ =? 0)%Z; [now left|].
  destruct (_ =? 1)%Z; [|now left].
  destruct ((index >=? 0)%Z || _).
  - apply pickElement_outcome.
  - pose proof (pickElementByText_outcome elements (strings.TrimSpace label)
                  (strings.TrimSpace contains)) as P.
    destruct (pickElementByText _ _ _); [apply P | now right].
Qed.

(** X16. [resolveElementForInput] returns only elements of the last frame it
    loaded or of the live snapshot it captured, and fails with the error of
    loading the frame, with USAGE or with ELEMENT_NOT_FOUND.  When a frame
    path, an index or an id is given, a frame that cannot be loaded ends the
    resolution with that error, before the simulator is asked. *)
Theorem resolveElementForInput_outcome
  (load : gostring -> result (list Element.t * Transform.t))
  (capture : result elementSnapshot.t)
  (from : gostring) (index : Z) (id label contains : gostring) :
  match resolveElementForInput load capture from index id label contains with
  | Ok e =>
      (exists elements transform,
          load from = Ok (elements, transform) /\ In e elements)
      \/ (exists snapshot,
             capture = Ok snapshot /\ In e (elementSnapshot.Elements snapshot))
  | Err err =>
      (load from = Err err
       /\ (strings.TrimSpace from <> [] \/ (0 <= index)%Z
           \/ strings.TrimSpace id <> []))
      \/ AppError.Code err = str "USAGE"
      \/ AppError.Code err = str "ELEMENT_NOT_FOUND"
  end.
Proof.
  unfold resolveElementForInput.
  assert (Hlive : forall elements err0,
            (exists t, load from = Ok (elements, t)) \/ elements = [] ->
            AppError.Code err0 = str "USAGE"
            \/ AppError.Code err0 = str "ELEMENT_NOT_FOUND" ->
            match
              match capture with
              | Err _ => Err err0
              | Ok snapshot =>
                  match pickElementBySelectors (elementSnapshot.Elements snapshot)
                          index id label contains with
                  | Ok elem => Ok elem
                  | Err err =>
                      let '(fallback, ok) :=
                        pickIntentFallbackElement
                          (elementSnapshot.Elements snapshot) label contains in
                      if ok then Ok fallback
                      else
                        let '(fallback, ok) :=
                          pickSystemFallbackElement
                            (elementSnapshot.Elements snapshot) label contains in
                        if ok then Ok fallback else Err err
                  end
              end
            with
            | Ok e =>
                (exists elements transform,
                    load from = Ok (elements, transform) /\ In e elements)
                \/ (exists snapshot,
                       capture = Ok snapshot
                       /\ In e (elementSnapshot.Elements snapshot))
            | Err err =>
                (load from = Err err
                 /\ (strings.TrimSpace from <> [] \/ (0 <= index)%Z
                     \/ strings.TrimSpace id <> []))
                \/ AppError.Code err = str "USAGE"
                \/ AppError.Code err = str "ELEMENT_NOT_FOUND"
            end).
  { intros elements err0 _ Herr0.
    destruct capture as [snapshot|cerr]; [|now right].
    pose proof (pickElementBySelectors_outcome (elementSnapshot.Elements snapshot)
                  index id label contains) as P2.
    destruct (pickElementBySelectors (elementSnapshot.Elements snapshot)
                index id label contains) as [e2|err2].
    { right. now exists snapshot. }
    destruct (pickIntentFallbackElement (elementSnapshot.Elements snapshot)
                label contains) as [fb ok] eqn:Ei.
    destruct ok.
    { right. exists snapshot. split; [reflexivity|].
      exact (pickIntentFallbackElement_In _ _ _ Ei). }
    destruct (pickSystemFallbackElement (elementSnapshot.Elements snapshot)
                label contains) as [fb2 ok2] eqn:Es.
    destruct ok2; [|now right].
    right. exists snapshot. split; [reflexivity|].
    exact (proj1 (pickSystemFallbackElement_In _ _ _ Es)). }
  destruct (negb (isEmpty (strings.TrimSpace from)) || (index >=? 0)%Z
            || negb (isEmpty (strings.TrimSpace id))) eqn:Eforced.
  - destruct (load from) as [[elements transform]|lerr] eqn:El.
    + pose proof (pickElementBySelectors_outcome elements index id label contains)
        as P1.
      destruct (pickElementBySelectors elements index id label contains)
        as [e1|err1].
      * left. now exists elements, transform.
      * apply (Hlive elements err1); [left; now exists transform | exact P1].
    + left. split; [reflexivity|].
      apply orb_true_iff in Eforced. destruct Eforced as [Eforced|Eid].
      * apply orb_true_iff in Eforced. destruct Eforced as [Efrom|Eidx].
        -- left. now apply isEmpty_false, negb_true_iff.
        -- right. left. destruct (Z.geb_spec index 0); [lia|discriminate].
      * right. right. now apply isEmpty_false, negb_true_iff.
  - destruct (load from) as [[elements transform]|lerr] eqn:El.
    + pose proof (pickElementBySelectors_outcome elements index id label contains)
        as P1.
      destruct (pickElementBySelectors elements index id label contains)
        as [e1|err1].
      * left. now exists elements, transform.
      * apply (Hlive elements err1); [left; now exists transform | exact P1].
    + pose proof (pickElementBySelectors_outcome [] index id label contains)
        as P1.
      destruct (pickElementBySelectors [] index id label contains)
        as [e1|err1]; [destruct P1|].
      apply (Hlive [] err1); [now right | exact P1].
Qed.

End ResolverFacts.

Section SampleFacts.
Context `{GoLib}.

Lemma matchingTextSamplesLoop_firstn (elements : list Element.t)
  (needle : gostring) (out : list gostring) :
  (List.length out < 3)%nat ->
  matchingTextSamplesLoop elements needle out
  = firstn 3 (out ++ List.map textSample (filter (textMatches needle) elements)).
Proof.
  revert out. induction elements as [|elem rest IH]; intros out Hout.
  - cbn [matchingTextSamplesLoop filter List.map]. rewrite app_nil_r.
    symmetry. apply firstn_all2. lia.
  - cbn [matchingTextSamplesLoop filter]. unfold textMatches at 1.
    destruct (Element.Enabled elem); cbn [negb andb]; [|now apply IH].
    destruct (strings.Contains (strings.ToLower (elementText elem)) needle);
      [|now apply IH].
    cbn [List.map]. unfold len. rewrite length_app. cbn [List.length].
    destruct (Z.geb_spec (Z.of_nat (List.length out + 1)) 3) as [Hfull|Hmore].
    + replace (out ++ textSample elem :: List.map textSample
                                           (filter (textMatches needle) rest))
        with ((out ++ [textSample elem])
              ++ List.map textSample (filter (textMatches needle) rest))
        by (now rewrite <- app_assoc).
      rewrite firstn_app.
      replace (3 - List.length (out ++ [textSample elem]))%nat with 0%nat
        by (rewrite length_app; cbn [List.length]; lia).
      rewrite firstn_O, app_nil_r. symmetry. apply firstn_all2.
      rewrite length_app. cbn [List.length]. lia.
    + rewrite IH by (rewrite length_app; cbn [List.length]; lia).
      now rewrite <- app_assoc.
Qed.

(** X17. [matchingTextSamples] returns nothing for an empty needle and
    otherwise the samples, label and value joined by a space and trimmed, of
    the first three enabled elements whose lower-cased text contains the
    needle, in the order of the snapshot. *)
Theorem matchingTextSamples_first_three (elements : list Element.t)
  (needle : gostring) :
  matchingTextSamples elements needle
  = if isEmpty needle then []
    else firstn 3 (List.map textSample (filter (textMatches needle) elements)).
Proof.
  unfold matchingTextSamples. destruct (isEmpty needle); [reflexivity|].
  apply (matchingTextSamplesLoop_firstn elements needle []). simpl. lia.
Qed.

End SampleFacts.

(* ----------------------------------------------------------------- *)
(** ** Text submission *)

Section TextSubmissionFacts.
Context `{GoLib}.

Lemma wrapAppErrCode_Code (appErr : AppError.t) (code msg : gostring) :
  AppError.Code (wrapAppErrCode appErr code msg) = code.
Proof.
  unfold wrapAppErrCode. destruct (streq (AppError.Code appErr) code) eqn:E.
  - now apply streq_true_iff.
  - reflexivity.
Qed.

Lemma splitIntoInputChunks_pieces (text : gostring) (chunkRunes : Z) :
  List.concat (splitIntoInputChunks text chunkRunes) = text
  /\ forall c, In c (splitIntoInputChunks text chunkRunes) -> c <> [].
Proof.
  unfold splitIntoInputChunks, len. cbv zeta.
  destruct text as [|r text]; [simpl; split; [reflexivity | intros c []]|].
  set (t := r :: text).
  assert (Ht : t <> []) by discriminate.
  replace (Z.of_nat (List.length t) =? 0)%Z with false
    by (symmetry; apply Z.eqb_neq; simpl; lia).
  destruct ((chunkRunes <=? 0)%Z || (Z.of_nat (List.length t) <=? chunkRunes)%Z)
    eqn:E.
  - simpl. rewrite app_nil_r. split; [reflexivity | intros c [<-|[]]; exact Ht].
  - apply orb_false_iff in E. destruct E as [E1 E2].
    apply Z.leb_gt in E1.
    pose proof (@chunkLoop_chunked (List.length t) t chunkRunes 0 E1
                  ltac:(lia) ltac:(lia)) as Hch.
    simpl skipn in Hch. change (Z.of_nat 0) with 0%Z in Hch.
    split; [exact (chunked_concat Hch)|].
    intros c Hc. now apply (proj1 (chunked_pieces Hch)).
Qed.

(** The chunks [typeChunks] sends: those before the first one the simulator
    refuses, that one included. *)
Lemma typeChunks_sent (sim : simulator.t) (chunks : list gostring)
  (st : ioState.t) :
  (forall c, In c chunks -> c <> []) ->
  exists k,
    (k <= List.length chunks)%nat
    /\ ioState.sent (snd (typeChunks sim chunks st))
       = ioState.sent st ++ firstn k chunks
    /\ ioState.captures (snd (typeChunks sim chunks st)) = ioState.captures st
    /\ match fst (typeChunks sim chunks st) with
       | None => k = List.length chunks
       | Some err => AppError.Code err = str "IDB_UI_FAILED" /\ (1 <= k)%nat
       end.
Proof.
  revert st. induction chunks as [|chunk rest IH]; intros st Hne.
  - exists 0%nat. simpl. rewrite app_nil_r. repeat split; lia.
  - cbn [typeChunks].
    assert (Hc : chunk <> []) by (apply Hne; now left).
    apply isEmpty_false in Hc. rewrite Hc.
    destruct (simulator.uiText sim (ioState.sent st) chunk) as [err|].
    + exists 1%nat. cbn [fst snd ioState.sent ioState.captures firstn List.length].
      split; [lia|]. split; [reflexivity|]. split; [reflexivity|].
      split; [apply wrapAppErrCode_Code | lia].
    + destruct (IH (ioState.mk (ioState.sent st ++ [chunk]) (ioState.captures st)))
        as (k & Hk & Hs & Hcap & Hr).
      { intros c Hin. apply Hne. now right. }
      exists (S k). cbn [List.length firstn].
      split; [lia|]. split; [|split; [exact Hcap|]].
      * rewrite Hs. cbn [ioState.sent]. now rewrite <- app_assoc.
      * destruct (fst (typeChunks sim rest _)); [|lia].
        destruct Hr; split; [assumption | lia].
Qed.

(** X18. [typeTextInChunks] sends the chunks of [splitIntoInputChunks] one by
    one and in order, and captures no snapshot: when it returns no error it
    has sent all of them, which together are the text; when it returns an
    error, the code is IDB_UI_FAILED and the chunks sent are a non-empty
    prefix of the chunks, ending with the one the simulator refused. *)
Theorem typeTextInChunks_sends (sim : simulator.t) (text : gostring)
  (chunkRunes : Z) (st : ioState.t) :
  let chunks := splitIntoInputChunks text chunkRunes in
  let '(err, st') := typeTextInChunks sim text chunkRunes st in
  ioState.captures st' = ioState.captures st
  /\ match err with
     | None =>
         ioState.sent st' = ioState.sent st ++ chunks
         /\ List.concat chunks = text
     | Some err =>
         AppError.Code err = str "IDB_UI_FAILED"
         /\ exists k, (1 <= k <= List.length chunks)%nat
                      /\ ioState.sent st' = ioState.sent st ++ firstn k chunks
     end.
Proof.
  cbv zeta. unfold typeTextInChunks.
  destruct (splitIntoInputChunks_pieces text chunkRunes) as [Hcat Hne].
  destruct (typeChunks_sent sim (splitIntoInputChunks text chunkRunes) st Hne)
    as (k & Hk & Hs & Hcap & Hr).
  destruct (typeChunks sim (splitIntoInputChunks text chunkRunes) st)
    as [err st'].
  cbn [fst snd] in *. split; [exact Hcap|].
  destruct err as [err|].
  - destruct Hr as [Hcode Hk1]. split; [exact Hcode|].
    exists k. split; [lia | exact Hs].
  - subst k. rewrite firstn_all in Hs. now split.
Qed.

Lemma typedMissingSuffix_done (intended observed : gostring) (comparable : bool) :
  typedMissingSuffix intended observed = Some ([], comparable) ->
  comparable = true -> stripSpace observed = stripSpace intended.
Proof.
  rewrite typedMissingSuffix_eq. intros E Hc. injection E as E.
  destruct (comparablePrefixLoop (stripSpace observed) (stripSpace intended))
    eqn:Hp; [|congruence].
  apply comparablePrefixLoop_iff in Hp.
  destruct (Nat.eqb_spec (List.length (stripSpace observed))
              (List.length (stripSpace intended))) as [Hl|Hl].
  - now apply isPrefixOf_same_length.
  - pose proof (isPrefixOf_length Hp) as Hle.
    assert (Hlt : (List.length (stripSpace observed)
                   < List.length (stripSpace intended))%nat) by lia.
    pose proof (originalIndex_lt intended Hlt) as Hidx.
    injection E as E _. apply (f_equal (@List.length rune)) in E.
    rewrite length_skipn in E. simpl in E. lia.
Qed.

Lemma typedMissingSuffix_total (intended observed : gostring) :
  exists missing comparable,
    typedMissingSuffix intended observed = Some (missing, comparable)
    /\ (comparable = false -> missing = []).
Proof.
  rewrite typedMissingSuffix_eq.
  destruct (comparablePrefixLoop (stripSpace observed) (stripSpace intended)).
  - destruct (List.length (stripSpace observed)
              =? List.length (stripSpace intended))%nat;
      eexists; eexists; split; try reflexivity; discriminate.
  - eexists; eexists; split; [reflexivity | reflexivity].
Qed.

Lemma findFocusedTextInput_In (elements : list Element.t) (elem : Element.t) :
  findFocusedTextInput elements = (elem, true) ->
  In elem elements /\ Element.Focused elem = true
  /\ isTextInputRole (Element.Role elem) = true.
Proof.
  unfold findFocusedTextInput.
  destruct (find _ elements) as [e|] eqn:E; [|discriminate].
  intros Heq. injection Heq as <-. apply find_some in E.
  destruct E as [Hin Hp]. apply andb_true_iff in Hp. destruct Hp as [Hp Hr].
  apply andb_true_iff in Hp. destruct Hp as [_ Hf]. auto.
Qed.

Lemma verifyRounds_outcome (sim : simulator.t) (text : gostring)
  (remaining : nat) :
  forall (attempt : Z) (target : Element.t) (lastObserved : gostring)
         (st : ioState.t),
    (remaining = 0%nat ->
     exists missing, typedMissingSuffix text lastObserved = Some (missing, true)
                     /\ missing <> []) ->
    exists r st',
      verifyRounds sim text remaining attempt target lastObserved st
      = Some (r, st')
      /\ (ioState.captures st <= ioState.captures st'
          <= ioState.captures st + Z.of_nat remaining)%Z
      /\ verifyOutcome sim text st r st'.
Proof.
  induction remaining as [|remaining IH]; intros attempt target lastObserved st Hlast.
  - destruct (Hlast eq_refl) as (missing & Hm & Hne).
    cbn [verifyRounds]. rewrite Hm.
    apply isEmpty_false in Hne. rewrite Hne. cbn [negb].
    eexists; eexists. split; [reflexivity|]. split; [simpl; lia|].
    split; [exists []; now rewrite app_nil_r|].
    right. right. right. reflexivity.
  - cbn [verifyRounds].
    set (st1 := ioState.mk (ioState.sent st) (ioState.captures st + 1)%Z).
    assert (Hst1 : exists more, ioState.sent st1 = ioState.sent st ++ more)
      by (exists []; now rewrite app_nil_r).
    destruct (simulator.snapshot sim (ioState.sent st) (ioState.captures st))
      as [snapshot|err] eqn:Esnap.
    2:{ eexists; eexists. split; [reflexivity|].
        split; [cbn [st1 ioState.captures]; lia|]. split; [exact Hst1|].
        left. eauto. }
    destruct (findBestVerificationTarget (elementSnapshot.Elements snapshot) target)
      as [m0 ok0] eqn:Ebest.
    assert (Hmatched :
      forall matched ok,
        (if negb ok0 then
           let '(focusedElem, hasFocus) :=
             findFocusedTextInput (elementSnapshot.Elements snapshot) in
           if hasFocus then (focusedElem, true) else (m0, ok0)
         else (m0, ok0)) = (matched, ok) ->
        ok = true -> In matched (elementSnapshot.Elements snapshot)).
    { intros matched ok E Hok. destruct ok0; cbn [negb] in E.
      - injection E as <- _. exact (findBestVerificationTarget_In _ _ Ebest).
      - destruct (findFocusedTextInput (elementSnapshot.Elements snapshot))
          as [fe hf] eqn:Ef.
        destruct hf; injection E as <- <-; [|discriminate].
        exact (proj1 (findFocusedTextInput_In _ Ef)). }
    destruct (if negb ok0 then _ else _) as [matched ok].
    specialize (Hmatched matched ok eq_refl).
    destruct ok; cbn [negb].
    2:{ eexists; eexists. split; [reflexivity|].
        split; [cbn [st1 ioState.captures]; lia|]. split; [exact Hst1|].
        right. right. left. reflexivity. }
    specialize (Hmatched eq_refl).
    destruct (isSecureTextInputRole (Element.Role matched)) eqn:Esec.
    { eexists; eexists. split; [reflexivity|].
      split; [cbn [st1 ioState.captures]; lia|]. split; [exact Hst1|].
      exists (ioState.sent st), (ioState.captures st), snapshot, matched.
      split; [exact Esnap|]. split; [exact Hmatched|]. now left. }
    destruct (typedMissingSuffix_total text (observedText matched))
      as (missing & comparable & Hm & Hcmp).
    rewrite Hm. destruct comparable; cbn [negb].
    2:{ eexists; eexists. split; [reflexivity|].
        split; [cbn [st1 ioState.captures]; lia|]. split; [exact Hst1|].
        right. right. right. reflexivity. }
    destruct (isEmpty missing) eqn:Emiss.
    { apply isEmpty_true in Emiss. subst missing.
      eexists; eexists. split; [reflexivity|].
      split; [cbn [st1 ioState.captures]; lia|]. split; [exact Hst1|].
      exists (ioState.sent st), (ioState.captures st), snapshot, matched.
      split; [exact Esnap|]. split; [exact Hmatched|]. right.
      exact (typedMissingSuffix_done _ _ Hm eq_refl). }
    unfold typeTextInChunks.
    destruct (splitIntoInputChunks_pieces missing 4) as [_ Hne].
    destruct (typeChunks_sent sim (splitIntoInputChunks missing 4) st1 Hne)
      as (k & Hk & Hs & Hcap & Hr).
    destruct (typeChunks sim (splitIntoInputChunks missing 4) st1) as [terr st2].
    cbn [fst snd] in *.
    destruct terr as [terr|].
    { eexists; eexists. split; [reflexivity|].
      split; [rewrite Hcap; cbn [st1 ioState.captures]; lia|].
      split; [eexists; rewrite Hs; reflexivity|].
      right. left. exact (proj1 Hr). }
    destruct (IH (attempt + 1)%Z matched (observedText matched) st2)
      as (r & st' & Hv & Hc & (more & Hmore) & Hout).
    { intros _. exists missing. split; [exact Hm|]. now apply isEmpty_false. }
    exists r, st'. split; [exact Hv|].
    split; [rewrite Hcap in Hc; cbn [st1 ioState.captures] in Hc; lia|].
    split; [|exact Hout].
    exists (firstn k (splitIntoInputChunks missing 4) ++ more).
    rewrite Hmore, Hs. cbn [st1 ioState.sent]. now rewrite app_assoc.
Qed.

(** X19. [submitTextInput] never panics and sends nothing for a blank text.
    When it returns no error although a readable target is known, some
    snapshot it captured contains an element that is a secure field or shows
    the intended text in full, white space apart; so the four rounds are
    never exhausted in silence.  An error it returns is the error of a
    snapshot or has the code IDB_UI_FAILED, TYPE_VERIFY_FAILED or
    TYPE_INCOMPLETE.  It captures at most five snapshots, and what it has
    sent is never taken back. *)
Theorem submitTextInput_outcome (sim : simulator.t) (text : gostring)
  (pasteMode : bool) (focused : option Element.t) (st : ioState.t) :
  exists r st',
    submitTextInput sim text pasteMode focused st = Some (r, st')
    /\ (strings.TrimSpace text = [] -> r = None /\ st' = st)
    /\ (ioState.captures st <= ioState.captures st' <= ioState.captures st + 5)%Z
    /\ (exists more, ioState.sent st' = ioState.sent st ++ more)
    /\ match r with
       | None =>
           strings.TrimSpace text = []
           \/ (focused = None
               /\ match simulator.snapshot sim
                          (ioState.sent st ++ splitIntoInputChunks text 4)
                          (ioState.captures st) with
                  | Ok snapshot =>
                      snd (findFocusedTextInput
                             (elementSnapshot.Elements snapshot)) = false
                  | Err _ => True
                  end)
           \/ (exists target, focused = Some target
                 /\ isSecureTextInputRole (Element.Role target) = true)
           \/ exists sent k snapshot matched,
                simulator.snapshot sim sent k = Ok snapshot
                /\ In matched (elementSnapshot.Elements snapshot)
                /\ shownInFull text matched
       | Some err =>
           (exists sent k, simulator.snapshot sim sent k = Err err)
           \/ submitErrorCode (AppError.Code err)
       end.
Proof.
  unfold submitTextInput.
  destruct (isEmpty (strings.TrimSpace text)) eqn:Eblank.
  { apply isEmpty_true in Eblank. exists None, st.
    split; [reflexivity|]. split; [auto|]. split; [lia|].
    split; [exists []; now rewrite app_nil_r | now left]. }
  apply isEmpty_false in Eblank.
  unfold typeTextInChunks.
  destruct (splitIntoInputChunks_pieces text 4) as [_ Hne].
  destruct (typeChunks_sent sim (splitIntoInputChunks text 4) st Hne)
    as (k & Hk & Hs & Hcap & Hr).
  destruct (typeChunks sim (splitIntoInputChunks text 4) st) as [terr st0].
  cbn [fst snd] in *.
  destruct terr as [terr|].
  { exists (Some terr), st0. split; [reflexivity|].
    split; [intros E; contradiction|]. split; [lia|].
    split; [eexists; exact Hs|]. right. left. exact (proj1 Hr). }
  subst k. rewrite firstn_all in Hs.
  set (first := simulator.snapshot sim
                  (ioState.sent st ++ splitIntoInputChunks text 4)
                  (ioState.captures st)).
  assert (Hverify : forall target st1,
            (ioState.captures st <= ioState.captures st1
             <= ioState.captures st + 1)%Z ->
            (exists more, ioState.sent st1 = ioState.sent st ++ more) ->
            isSecureTextInputRole (Element.Role target) = false ->
            exists r st',
              verifyRounds sim text 4 1 target [] st1 = Some (r, st')
              /\ (strings.TrimSpace text = [] -> r = None /\ st' = st)
              /\ (ioState.captures st <= ioState.captures st'
                  <= ioState.captures st + 5)%Z
              /\ (exists more, ioState.sent st' = ioState.sent st ++ more)
              /\ match r with
                 | None =>
                     strings.TrimSpace text = []
                     \/ (focused = None
                         /\ match first with
                            | Ok snapshot =>
                                snd (findFocusedTextInput
                                       (elementSnapshot.Elements snapshot)) = false
                            | Err _ => True
                            end)
                     \/ (exists target, focused = Some target
                           /\ isSecureTextInputRole (Element.Role target) = true)
                     \/ exists sent k snapshot matched,
                          simulator.snapshot sim sent k = Ok snapshot
                          /\ In matched (elementSnapshot.Elements snapshot)
                          /\ shownInFull text matched
                 | Some err =>
                     (exists sent k, simulator.snapshot sim sent k = Err err)
                     \/ submitErrorCode (AppError.Code err)
                 end).
  { intros target st1 Hc1 (more1 & Hm1) Hsec.
    destruct (@verifyRounds_outcome sim text 4 1%Z target [] st1)
      as (r & st' & Hv & Hc & (more & Hmore) & Hout); [discriminate|].
    exists r, st'. split; [exact Hv|]. split; [intros E; contradiction|].
    split; [simpl in Hc; lia|]. split.
    - exists (more1 ++ more). rewrite Hmore, Hm1. now rewrite app_assoc.
    - destruct r; [exact Hout|]. right. right. right. exact Hout. }
  destruct focused as [target|].
  - destruct (isSecureTextInputRole (Element.Role target)) eqn:Esec.
    + exists None, st0. split; [reflexivity|].
      split; [intros E; contradiction|]. split; [lia|].
      split; [eexists; exact Hs|]. right. right. left. now exists target.
    + apply Hverify; [lia | eexists; exact Hs | exact Esec].
  - set (st1 := ioState.mk (ioState.sent st0) (ioState.captures st0 + 1)%Z).
    rewrite Hs, Hcap. fold first.
    destruct first as [snapshot|err] eqn:Efirst.
    + destruct (findFocusedTextInput (elementSnapshot.Elements snapshot))
        as [fe ok] eqn:Efe.
      destruct ok.
      * destruct (isSecureTextInputRole (Element.Role fe)) eqn:Esec.
        -- exists None, st1. split; [reflexivity|].
           split; [intros E; contradiction|].
           split; [cbn [st1 ioState.captures]; lia|].
           split; [eexists; exact Hs|]. right. right. right.
           exists (ioState.sent st ++ splitIntoInputChunks text 4),
             (ioState.captures st), snapshot, fe.
           split; [exact Efirst|].
           split; [exact (proj1 (findFocusedTextInput_In _ Efe)) | now left].
        -- apply Hverify;
             [cbn [st1 ioState.captures]; lia | eexists; exact Hs | exact Esec].
      * exists None, st1. split; [reflexivity|].
        split; [intros E; contradiction|].
        split; [cbn [st1 ioState.captures]; lia|].
        split; [eexists; exact Hs|]. right. left. now split.
    + exists None, st1. split; [reflexivity|].
      split; [intros E; contradiction|].
      split; [cbn [st1 ioState.captures]; lia|].
      split; [eexists; exact Hs|]. right. left. now split.
Qed.

End TextSubmissionFacts.

(** The scenario of a field that echoes only the first ten runes: the engine
    sends the five chunks of the text, reads [hello@exam] back, sends the two
    chunks of the missing [ple.com] and finds the text complete in the next
    snapshot. *)
Example submitTextInput_repairs :
  @submitTextInput exampleLib lossySimulator (str "hello@example.com") false
    (Some (nth 0 (elementSnapshot.Elements (lossyField [])) Element.zero))
    (ioState.mk [] 0)
  = Some (None,
          ioState.mk [str "hell"; str "o@ex"; str "ampl"; str "e.co"; str "m";
                      str "ple."; str "com"] 2).
Proof. vm_compute. reflexivity. Qed.

(* ----------------------------------------------------------------- *)
(** ** Live snapshots *)

Section LiveSnapshotFacts.
Context `{GoLib}.

Lemma Join_empty_sep (parts : list gostring) :
  strings.Join parts [] = List.concat parts.
Proof.
  induction parts as [|p rest IH]; [reflexivity|].
  cbn [strings.Join List.concat]. destruct rest as [|q rest'].
  - simpl. now rewrite app_nil_r.
  - rewrite IH. reflexivity.
Qed.

Lemma fieldsFrom_concat (cur s : gostring) :
  List.concat (fieldsFrom cur s) = cur ++ stripSpace s.
Proof.
  revert cur. induction s as [|r rest IH]; intros cur; simpl.
  - destruct cur; simpl; now rewrite ?app_nil_r.
  - destruct (unicode.IsSpace r); simpl.
    + destruct cur as [|c cur']; simpl; rewrite IH; reflexivity.
    + rewrite IH, <- app_assoc. reflexivity.
Qed.

Lemma normalizeTextForMatch_eq (s : gostring) :
  normalizeTextForMatch s = strings.ToLower (stripSpace s).
Proof.
  unfold normalizeTextForMatch, stringsFields.
  rewrite Join_empty_sep, fieldsFrom_concat. cbn [app].
  now rewrite stripSpace_TrimSpace.
Qed.

Lemma elementHasTypedText_iff (elem : Element.t) (typed : gostring) :
  elementHasTypedText elem (normalizeTextForMatch typed) = true
  <-> showsTyped typed (Element.Value elem)
      \/ showsTyped typed (Element.Label elem).
Proof.
  unfold elementHasTypedText, showsTyped. cbn [existsb].
  rewrite !normalizeTextForMatch_eq.
  destruct (stripSpace typed) as [|r rest] eqn:E.
  - cbn [strings.ToLower List.map isEmpty]. split; [discriminate|].
    intros [[Hne _]|[Hne _]]; now elim Hne.
  - cbn [strings.ToLower List.map isEmpty]. rewrite orb_false_r, orb_true_iff.
    split.
    + intros [Hc|Hc]; [left | right]; (split; [discriminate | exact Hc]).
    + intros [[_ Hc]|[_ Hc]]; [left | right]; exact Hc.
Qed.

(** X20. [normalizeTextForMatch] removes all white space and lower-cases what
    is left, so two texts that differ only in white space are normalized to
    the same string; [elementHasTypedText] finds a typed text exactly when
    it is not blank and the element's value or label contains it, both
    compared that way. *)
Theorem normalizeTextForMatch_strip (s : gostring) (elem : Element.t) :
  normalizeTextForMatch s = strings.ToLower (stripSpace s)
  /\ (elementHasTypedText elem (normalizeTextForMatch s) = true
      <-> showsTyped s (Element.Value elem) \/ showsTyped s (Element.Label elem)).
Proof.
  split; [apply normalizeTextForMatch_eq | apply elementHasTypedText_iff].
Qed.

Lemma countIf_fold {A} (p : A -> bool) (l : list A) (n : Z) :
  fold_left (fun n x => if p x then (n + 1)%Z else n) l n
  = (n + len (filter p l))%Z.
Proof.
  revert n. induction l as [|x l IH]; intros n; simpl.
  - unfold len; simpl. lia.
  - rewrite IH. destruct (p x); unfold len; cbn [List.length]; lia.
Qed.

(** X21. A snapshot [captureElements] returns holds the elements
    [normalizeElements] makes of the decoded tree in reading order, all of
    them, with their number as [AllCount] and the number of the visible
    interactive ones as [InteractiveCount]; a failure of the tool or of the
    decoder is reported as IDB_UI_FAILED. *)
Theorem captureElements_outcome (runIDB : result gostring)
  (decodeJSONOrWrap : gostring -> any + gostring) :
  match captureElements runIDB decodeJSONOrWrap with
  | Err err => AppError.Code err = str "IDB_UI_FAILED"
  | Ok snapshot =>
      exists stdout parsed,
        runIDB = Ok stdout /\ decodeJSONOrWrap stdout = inl parsed
        /\ elementSnapshot.Elements snapshot
           = fst (fst (normalizeElements parsed captureOptions))
        /\ elementSnapshot.AllCount snapshot
           = len (elementSnapshot.Elements snapshot)
        /\ elementSnapshot.InteractiveCount snapshot
           = len (visibleInteractive (elementSnapshot.Elements snapshot))
        /\ (0 <= elementSnapshot.InteractiveCount snapshot
            <= elementSnapshot.AllCount snapshot)%Z
  end.
Proof.
  unfold captureElements.
  destruct runIDB as [stdout|err]; [|apply wrapAppErrCode_Code].
  destruct (decodeJSONOrWrap stdout) as [parsed|parseErr] eqn:Ed; [|reflexivity].
  pose proof (normalizeElements_count_facts parsed captureOptions) as Hcount.
  pose proof (normalizeElements_provenance parsed captureOptions) as Hprov.
  destruct (normalizeElements parsed captureOptions) as [[elements allCount] n]
    eqn:En.
  cbn [fst snd] in *. destruct Hcount as (_ & _ & Hlen & _).
  cbn [captureOptions frameOptions.InteractiveOnly] in Hlen.
  exists stdout, parsed. rewrite En.
  cbn [elementSnapshot.Elements elementSnapshot.AllCount
       elementSnapshot.InteractiveCount].
  split; [reflexivity|]. split; [exact Ed|]. split; [reflexivity|].
  split; [now rewrite Hlen|].
  assert (Hcnt : fold_left
            (fun n elem =>
               if Element.Enabled elem && Element.Visible elem
                  && isInteractiveRole (Element.Role elem)
               then (n + 1)%Z else n) elements 0%Z
          = len (visibleInteractive elements)).
  { rewrite (countIf_fold (fun elem => Element.Enabled elem && Element.Visible elem
                                       && isInteractiveRole (Element.Role elem))).
    unfold visibleInteractive. cbn [Z.add]. f_equal. apply filter_ext_in.
    intros e He. destruct (Hprov e He) as (node & _ & elem & i & l & Hk & ->).
    destruct Hk as (_ & _ & _ & _ & Hen & _).
    cbn [Element.setNearbyLabel Element.setIndex Element.setVisibility
         Element.setOrder Element.Enabled].
    now rewrite Hen. }
  rewrite Hcnt. split; [reflexivity|].
  unfold visibleInteractive, len in *.
  pose proof (filter_length_le
                (fun e => Element.Visible e && isInteractiveRole (Element.Role e))
                elements).
  lia.
Qed.

(** X22. [verifyTypeResult] reports an element of the snapshot whose value or
    label contains the typed text, white space and case apart, or the
    matched secure field whose value is not blank and differs from the value
    the focused element had; it fails with the error of the snapshot, or with
    TYPE_VERIFY_FAILED when no element of the snapshot contains the typed
    text. *)
Theorem verifyTypeResult_outcome (capture : result elementSnapshot.t)
  (typedText : gostring) (focused : option Element.t) :
  match verifyTypeResult capture typedText focused with
  | Ok info =>
      exists snapshot elem,
        capture = Ok snapshot
        /\ In elem (elementSnapshot.Elements snapshot)
        /\ info = verifyInfoOf elem
        /\ (showsTyped typedText (Element.Value elem)
            \/ showsTyped typedText (Element.Label elem)
            \/ (isSecureTextInputRole (Element.Role elem) = true
                /\ strings.TrimSpace (Element.Value elem) <> []
                /\ exists f, focused = Some f
                     /\ strings.TrimSpace (Element.Value elem)
                        <> strings.TrimSpace (Element.Value f)))
  | Err err =>
      capture = Err err
      \/ exists snapshot,
           capture = Ok snapshot
           /\ AppError.Code err = str "TYPE_VERIFY_FAILED"
           /\ forall elem, In elem (elementSnapshot.Elements snapshot) ->
                ~ showsTyped typedText (Element.Value elem)
                /\ ~ showsTyped typedText (Element.Label elem)
  end.
Proof.
  unfold verifyTypeResult.
  destruct capture as [snapshot|err]; [|now left].
  set (elements := elementSnapshot.Elements snapshot).
  set (typedNorm := normalizeTextForMatch typedText).
  assert (Hscan :
    match
      match find (fun elem => elementHasTypedText elem typedNorm) elements with
      | Some elem => Ok (verifyInfoOf elem)
      | None =>
          Err (AppError.mk (str "TYPE_VERIFY_FAILED")
                 (str "typed text could not be verified from latest ui tree")
                 [(str "typed", DString typedText);
                  (str "interactive",
                   DInt (elementSnapshot.InteractiveCount snapshot))])
      end
    with
    | Ok info =>
        exists snapshot0 elem,
          Ok snapshot = Ok snapshot0
          /\ In elem (elementSnapshot.Elements snapshot0)
          /\ info = verifyInfoOf elem
          /\ (showsTyped typedText (Element.Value elem)
              \/ showsTyped typedText (Element.Label elem)
              \/ (isSecureTextInputRole (Element.Role elem) = true
                  /\ strings.TrimSpace (Element.Value elem) <> []
                  /\ exists f, focused = Some f
                       /\ strings.TrimSpace (Element.Value elem)
                          <> strings.TrimSpace (Element.Value f)))
    | Err err =>
        Ok snapshot = Err err
        \/ exists snapshot0,
             Ok snapshot = Ok snapshot0
             /\ AppError.Code err = str "TYPE_VERIFY_FAILED"
             /\ forall elem, In elem (elementSnapshot.Elements snapshot0) ->
                  ~ showsTyped typedText (Element.Value elem)
                  /\ ~ showsTyped typedText (Element.Label elem)
    end).
  { destruct (find (fun elem => elementHasTypedText elem typedNorm) elements)
      as [elem|] eqn:Efind.
    - apply find_some in Efind. destruct Efind as [Hin Hhas].
      apply elementHasTypedText_iff in Hhas.
      exists snapshot, elem. split; [reflexivity|]. split; [exact Hin|].
      split; [reflexivity | tauto].
    - right. exists snapshot. split; [reflexivity|]. split; [reflexivity|].
      intros elem Hin. pose proof (find_none _ _ Efind elem Hin) as Hno.
      cbv beta in Hno.
      assert (Hnot : ~ (showsTyped typedText (Element.Value elem)
                        \/ showsTyped typedText (Element.Label elem))).
      { intros Hs. apply elementHasTypedText_iff in Hs.
        unfold typedNorm in Hno. congruence. }
      tauto. }
  destruct focused as [f|]; [|exact Hscan].
  destruct (findBestVerificationTarget elements f) as [matched ok] eqn:Ebest.
  destruct ok; [|exact Hscan].
  pose proof (findBestVerificationTarget_In _ _ Ebest) as Hin.
  destruct (elementHasTypedText matched typedNorm) eqn:Ehas.
  { apply elementHasTypedText_iff in Ehas.
    exists snapshot, matched. split; [reflexivity|]. split; [exact Hin|].
    split; [reflexivity | tauto]. }
  destruct (isSecureTextInputRole (Element.Role matched)) eqn:Esec;
    cbn [andb]; [|exact Hscan].
  destruct (isEmpty (strings.TrimSpace (Element.Value matched))) eqn:Ev;
    cbn [negb andb]; [exact Hscan|].
  destruct (streq (strings.TrimSpace (Element.Value matched))
              (strings.TrimSpace (Element.Value f))) eqn:Esame;
    cbn [negb]; [exact Hscan|].
  exists snapshot, matched. split; [reflexivity|]. split; [exact Hin|].
  split; [reflexivity|]. right. right. split; [exact Esec|].
  split; [now apply isEmpty_false|].
  exists f. split; [reflexivity|]. intros E.
  apply streq_true_iff in E. congruence.
Qed.

End LiveSnapshotFacts.

(* ----------------------------------------------------------------- *)
(** ** Condition waiter *)

Section WaiterFacts.
Context `{GoLib}.

Lemma waitTimeout_attempts (hasText targetText : gostring)
  (interactiveMin attempts elapsed lastInteractive : Z)
  (lastMatches : list gostring) (lastErr : option AppError.t) :
  AppError.Code (waitTimeout hasText targetText interactiveMin attempts elapsed
                   lastInteractive lastMatches lastErr) = str "WAIT_TIMEOUT"
  /\ mapGet (AppError.Details
               (waitTimeout hasText targetText interactiveMin attempts elapsed
                  lastInteractive lastMatches lastErr)) (str "attempts")
     = Some (DInt attempts).
Proof.
  unfold waitTimeout. cbn [AppError.Code AppError.Details].
  split; [reflexivity|].
  destruct (negb (isEmpty targetText)); destruct lastErr;
    rewrite ?mapGet_mapSet_other by reflexivity; reflexivity.
Qed.

Lemma waitLoop_first (capture : Z -> result elementSnapshot.t) (since : Z -> Z)
  (hasText : gostring) (interactiveMin timeout : Z) (fuel : nat) :
  forall (a k lastInteractive : Z) (lastMatches : list gostring),
    (a < k <= a + Z.of_nat fuel)%Z ->
    (forall j, (a < j < k)%Z ->
               metAt capture hasText interactiveMin j = false
               /\ (since j < timeout)%Z) ->
    metAt capture hasText interactiveMin k = true \/ (timeout <= since k)%Z ->
    match waitLoop fuel capture since hasText
            (strings.ToLower (strings.TrimSpace hasText)) interactiveMin timeout
            a lastInteractive lastMatches with
    | Some (Ok resp) =>
        metAt capture hasText interactiveMin k = true
        /\ waitResponse.attempts resp = k
        /\ waitResponse.elapsedMs resp = milliseconds (since k)
        /\ exists snapshot,
             capture k = Ok snapshot
             /\ waitResponse.interactive resp
                = elementSnapshot.InteractiveCount snapshot
    | Some (Err err) =>
        metAt capture hasText interactiveMin k = false
        /\ AppError.Code err = str "WAIT_TIMEOUT"
        /\ mapGet (AppError.Details err) (str "attempts") = Some (DInt k)
    | None => False
    end.
Proof.
  induction fuel as [|fuel IH]; intros a k li lm Hk Hbefore Hend; [lia|].
  cbn [waitLoop]. cbv zeta.
  destruct (Z.eq_dec (a + 1) k) as [Ek|Ek].
  - (* attempt k *)
    rewrite Ek. unfold metAt in Hend |- *.
    destruct (capture k) as [snapshot|snapErr] eqn:Ec.
    + destruct (conditionMet _ interactiveMin snapshot) eqn:Emet.
      * cbn [waitResponse.attempts waitResponse.elapsedMs
             waitResponse.interactive].
        split; [reflexivity|]. split; [reflexivity|]. split; [reflexivity|].
        now exists snapshot.
      * destruct Hend as [Hend|Hend]; [discriminate|].
        destruct (Z.geb_spec (since k) timeout); [|lia].
        split; [reflexivity | apply waitTimeout_attempts].
    + destruct Hend as [Hend|Hend]; [discriminate|].
      destruct (Z.geb_spec (since k) timeout); [|lia].
      split; [reflexivity | apply waitTimeout_attempts].
  - (* an earlier attempt *)
    destruct (Hbefore (a + 1)%Z ltac:(lia)) as [Hmet Hsince].
    unfold metAt in Hmet.
    destruct (Z.geb_spec (since (a + 1)%Z) timeout); [lia|].
    destruct (capture (a + 1)%Z) as [snapshot|snapErr].
    + rewrite Hmet. apply IH; [lia | | exact Hend].
      intros j Hj. apply Hbefore. lia.
    + apply IH; [lia | | exact Hend].
      intros j Hj. apply Hbefore. lia.
Qed.

(** X23. [waitForCondition] answers at the first attempt at which the
    condition holds in the snapshot or the clock has reached the timeout:
    with the attempt's number, the reading of the clock and the interactive
    count of that snapshot when the condition holds, and with WAIT_TIMEOUT
    and the attempt's number otherwise.  The condition is tested before the
    clock, so a snapshot that meets it succeeds even after the timeout. *)
Theorem waitForCondition_first (capture : Z -> result elementSnapshot.t)
  (since : Z -> Z) (hasText : gostring) (interactiveMin timeout k : Z)
  (fuel : nat) :
  (1 <= k <= Z.of_nat fuel)%Z ->
  (forall j, (1 <= j < k)%Z ->
             metAt capture hasText interactiveMin j = false
             /\ (since j < timeout)%Z) ->
  metAt capture hasText interactiveMin k = true \/ (timeout <= since k)%Z ->
  match waitForCondition fuel capture since hasText interactiveMin timeout with
  | Some (Ok resp) =>
      metAt capture hasText interactiveMin k = true
      /\ waitResponse.attempts resp = k
      /\ waitResponse.elapsedMs resp = milliseconds (since k)
      /\ exists snapshot,
           capture k = Ok snapshot
           /\ waitResponse.interactive resp
              = elementSnapshot.InteractiveCount snapshot
  | Some (Err err) =>
      metAt capture hasText interactiveMin k = false
      /\ AppError.Code err = str "WAIT_TIMEOUT"
      /\ mapGet (AppError.Details err) (str "attempts") = Some (DInt k)
  | None => False
  end.
Proof.
  intros Hk Hbefore Hend. unfold waitForCondition.
  apply waitLoop_first; [lia | | exact Hend].
  intros j Hj. apply Hbefore. lia.
Qed.

End WaiterFacts.

Lemma waitForCondition_first_witness :
  match @waitForCondition exampleLib 5
          (fun n => if (n <? 3)%Z then Ok (elementSnapshot.mk [] 0 0)
                    else Ok (elementSnapshot.mk barElements 2 1))
          (fun n => (n * 700000000)%Z) [] 1 20000000000 with
  | Some (Ok resp) => waitResponse.attempts resp = 3%Z
  | _ => False
  end.
Proof.
  pose proof (@waitForCondition_first exampleLib
                (fun n => if (n <? 3)%Z then Ok (elementSnapshot.mk [] 0 0)
                          else Ok (elementSnapshot.mk barElements 2 1))
                (fun n => (n * 700000000)%Z) [] 1 20000000000 3 5) as P.
  destruct (@waitForCondition exampleLib 5 _ _ [] 1 20000000000) as [[resp|err]|].
  - apply P; [lia | | left; reflexivity].
    intros j Hj. assert (Ej : j = 1%Z \/ j = 2%Z) by lia.
    destruct Ej as [-> | ->]; split; (reflexivity || lia).
  - destruct P as [Hmet _]; [lia | | left; reflexivity | discriminate].
    intros j Hj. assert (Ej : j = 1%Z \/ j = 2%Z) by lia.
    destruct Ej as [-> | ->]; split; (reflexivity || lia).
  - apply P; [lia | | left; reflexivity].
    intros j Hj. assert (Ej : j = 1%Z \/ j = 2%Z) by lia.
    destruct Ej as [-> | ->]; split; (reflexivity || lia).
Defined.

(* ----------------------------------------------------------------- *)
(** ** Flow runner *)

Lemma flowLoop_outcome
  (exec : Z -> uiFlowStep.t -> result (list (gostring * detail)))
  (artifacts : Z -> list (gostring * detail)) (steps : list uiFlowStep.t) :
  forall (i : Z) (results : list (list (gostring * detail))),
    match flowLoop exec artifacts steps i results with
    | Ok results' =>
        List.length results' = (List.length results + List.length steps)%nat
        /\ forall k step, nth_error steps k = Some step ->
             exists stepResult, exec (i + 1 + Z.of_nat k)%Z step = Ok stepResult
    | Err err =>
        exists k step stepErr,
          nth_error steps k = Some step
          /\ exec (i + 1 + Z.of_nat k)%Z step = Err stepErr
          /\ err = flowStepFailed (i + 1 + Z.of_nat k)%Z step stepErr
                     (artifacts (i + 1 + Z.of_nat k)%Z)
          /\ forall m step', (m < k)%nat -> nth_error steps m = Some step' ->
               exists stepResult,
                 exec (i + 1 + Z.of_nat m)%Z step' = Ok stepResult
    end.
Proof.
  induction steps as [|step rest IH]; intros i results.
  - simpl. split; [lia|]. intros [|k] step E; discriminate.
  - cbn [flowLoop].
    destruct (exec (i + 1)%Z step) as [stepResult|stepErr] eqn:Ex.
    + specialize (IH (i + 1)%Z
                    (results
                     ++ [mapSet (mapSet stepResult (str "step") (DInt (i + 1)%Z))
                           (str "name")
                           (DString (strings.TrimSpace (uiFlowStep.Name step)))])).
      destruct (flowLoop exec artifacts rest (i + 1) _) as [results'|err].
      * destruct IH as [Hlen Hall]. split.
        -- rewrite Hlen, length_app. cbn [List.length]. lia.
        -- intros [|k] step' E; cbn [nth_error] in E.
           ++ injection E as <-. exists stepResult.
              now replace (i + 1 + Z.of_nat 0)%Z with (i + 1)%Z by lia.
           ++ destruct (Hall k step' E) as [r Hr]. exists r.
              now replace (i + 1 + Z.of_nat (S k))%Z
                with (i + 1 + 1 + Z.of_nat k)%Z by lia.
      * destruct IH as (k & step' & stepErr & Hnth & Hex & -> & Hbefore).
        exists (S k), step', stepErr.
        replace (i + 1 + Z.of_nat (S k))%Z with (i + 1 + 1 + Z.of_nat k)%Z by lia.
        split; [exact Hnth|]. split; [exact Hex|]. split; [reflexivity|].
        intros [|m] step'' Hm E; cbn [nth_error] in E.
        -- injection E as <-. exists stepResult.
           now replace (i + 1 + Z.of_nat 0)%Z with (i + 1)%Z by lia.
        -- destruct (Hbefore m step'' ltac:(lia) E) as [r Hr]. exists r.
           now replace (i + 1 + Z.of_nat (S m))%Z
             with (i + 1 + 1 + Z.of_nat m)%Z by lia.
    + exists 0%nat, step, stepErr.
      replace (i + 1 + Z.of_nat 0)%Z with (i + 1)%Z by lia.
      split; [reflexivity|]. split; [exact Ex|]. split; [reflexivity|].
      intros m step' Hm. lia.
Qed.

Lemma flowLoop_ext
  (exec exec' : Z -> uiFlowStep.t -> result (list (gostring * detail)))
  (artifacts : Z -> list (gostring * detail)) (steps : list uiFlowStep.t) :
  forall (i : Z) (results : list (list (gostring * detail))),
    (forall n step, (i < n)%Z -> exec n step = exec' n step) ->
    flowLoop exec artifacts steps i results
    = flowLoop exec' artifacts steps i results.
Proof.
  induction steps as [|step rest IH]; intros i results Hext; [reflexivity|].
  cbn [flowLoop]. rewrite <- (Hext (i + 1)%Z step) by lia.
  destruct (exec (i + 1)%Z step); [|reflexivity].
  apply IH. intros n step' Hn. apply Hext. lia.
Qed.

Lemma nth_error_skipn_add {A} (l : list A) (n k : nat) :
  nth_error (skipn n l) k = nth_error l (n + k).
Proof.
  revert l. induction n as [|n IH]; intros l; [reflexivity|].
  destruct l as [|x l]; [now destruct k | apply IH].
Qed.

(** X24. On a flow file with steps and a resume index within them,
    [cmdUIFlow] executes the steps from the resume index on, in order, each
    once, and none before it.  It completes when all of them succeed, with
    one result per executed step; otherwise it stops at the first step that
    fails and reports FLOW_STEP_FAILED with that step's number as [step] and
    as [resumeFrom], the step's error and the captured artifacts. *)
Theorem cmdUIFlow_outcome (file : gostring) (resumeFrom : Z)
  (readFlow : gostring -> result uiFlowFile.t)
  (exec exec' : Z -> uiFlowStep.t -> result (list (gostring * detail)))
  (artifacts : Z -> list (gostring * detail)) (flow : uiFlowFile.t) :
  strings.TrimSpace file <> [] ->
  readFlow file = Ok flow ->
  (1 <= resumeFrom <= len (uiFlowFile.Steps flow))%Z ->
  match cmdUIFlow file resumeFrom 0 readFlow exec artifacts with
  | Ok resp =>
      (forall n, (resumeFrom <= n <= len (uiFlowFile.Steps flow))%Z ->
                 stepSucceeds exec flow n)
      /\ len (flowResponse.steps resp)
         = (len (uiFlowFile.Steps flow) - resumeFrom + 1)%Z
      /\ flowResponse.resumeFrom resp = resumeFrom
  | Err err =>
      exists n step stepErr,
        (resumeFrom <= n <= len (uiFlowFile.Steps flow))%Z
        /\ flowStep flow n = Some step
        /\ exec n step = Err stepErr
        /\ err = flowStepFailed n step stepErr (artifacts n)
        /\ forall m, (resumeFrom <= m < n)%Z -> stepSucceeds exec flow m
  end
  /\ ((forall n step, (resumeFrom <= n)%Z -> exec n step = exec' n step) ->
      cmdUIFlow file resumeFrom 0 readFlow exec artifacts
      = cmdUIFlow file resumeFrom 0 readFlow exec' artifacts).
Proof.
  intros Hfile Hread Hrange. unfold cmdUIFlow.
  apply isEmpty_false in Hfile. rewrite Hfile, Hread.
  destruct (Z.leb_spec resumeFrom 0) as [|_]; [lia|].
  cbn [Z.eqb negb].
  destruct (Z.eqb_spec (len (uiFlowFile.Steps flow)) 0) as [|_]; [lia|].
  destruct (Z.gtb_spec resumeFrom (len (uiFlowFile.Steps flow))) as [|_]; [lia|].
  set (skip := Z.to_nat (resumeFrom - 1)).
  assert (Hstep : forall k,
            nth_error (skipn skip (uiFlowFile.Steps flow)) k
            = flowStep flow (resumeFrom - 1 + 1 + Z.of_nat k)).
  { intros k. rewrite nth_error_skipn_add. unfold flowStep.
    destruct (Z.leb_spec (resumeFrom - 1 + 1 + Z.of_nat k) 0); [lia|].
    f_equal. unfold skip. lia. }
  split.
  - pose proof (flowLoop_outcome exec artifacts
                  (skipn skip (uiFlowFile.Steps flow)) (resumeFrom - 1) [])
      as Hloop.
    destruct (flowLoop exec artifacts (skipn skip (uiFlowFile.Steps flow))
                (resumeFrom - 1) []) as [results|err].
    + destruct Hloop as [Hlen Hall].
      cbn [flowResponse.steps flowResponse.resumeFrom]. split; [|split].
      * intros n Hn. unfold stepSucceeds.
        assert (Hk : (Z.to_nat (n - resumeFrom)
                      < List.length (skipn skip (uiFlowFile.Steps flow)))%nat).
        { rewrite length_skipn. unfold len, skip in *. lia. }
        apply nth_error_Some in Hk.
        destruct (nth_error (skipn skip (uiFlowFile.Steps flow))
                    (Z.to_nat (n - resumeFrom))) as [step|] eqn:E; [|congruence].
        destruct (Hall _ _ E) as [r Hr].
        rewrite Hstep in E.
        replace (resumeFrom - 1 + 1 + Z.of_nat (Z.to_nat (n - resumeFrom)))%Z
          with n in * by lia.
        now exists step, r.
      * unfold len in *. rewrite Hlen, length_skipn. unfold skip.
        cbn [List.length]. lia.
      * reflexivity.
    + destruct Hloop as (k & step & stepErr & Hnth & Hex & -> & Hbefore).
      assert (Hk : (k < List.length (skipn skip (uiFlowFile.Steps flow)))%nat)
        by (apply nth_error_Some; congruence).
      rewrite length_skipn in Hk. rewrite Hstep in Hnth.
      exists (resumeFrom - 1 + 1 + Z.of_nat k)%Z, step, stepErr.
      split; [unfold len, skip in *; lia|]. split; [exact Hnth|].
      split; [exact Hex|]. split; [reflexivity|].
      intros m Hm. unfold stepSucceeds.
      assert (Hmk : (Z.to_nat (m - resumeFrom) < k)%nat) by lia.
      assert (Hml : (Z.to_nat (m - resumeFrom)
                     < List.length (skipn skip (uiFlowFile.Steps flow)))%nat)
        by (rewrite length_skipn; lia).
      apply nth_error_Some in Hml.
      destruct (nth_error (skipn skip (uiFlowFile.Steps flow))
                  (Z.to_nat (m - resumeFrom))) as [step'|] eqn:E; [|congruence].
      destruct (Hbefore _ _ Hmk E) as [r Hr].
      rewrite Hstep in E.
      replace (resumeFrom - 1 + 1 + Z.of_nat (Z.to_nat (m - resumeFrom)))%Z
        with m in * by lia.
      now exists step', r.
  - intros Hext.
    rewrite (@flowLoop_ext exec exec' artifacts
               (skipn skip (uiFlowFile.Steps flow)) (resumeFrom - 1) []);
      [reflexivity|].
    intros n step Hn. apply Hext. lia.
Qed.

(** X25. [cmdUIFlow] rejects with USAGE, before it reads the file, a blank
    file path, a resume index below 1 and positional arguments, and, once the
    file is read, a flow without steps and a resume index beyond the last
    step; no step is executed in any of these cases. *)
Theorem cmdUIFlow_usage (file : gostring) (resumeFrom nArg : Z)
  (readFlow : gostring -> result uiFlowFile.t)
  (exec : Z -> uiFlowStep.t -> result (list (gostring * detail)))
  (artifacts : Z -> list (gostring * detail)) :
  strings.TrimSpace file = [] \/ (resumeFrom <= 0)%Z \/ nArg <> 0%Z
  \/ (exists flow, readFlow file = Ok flow
        /\ (uiFlowFile.Steps flow = []
            \/ (len (uiFlowFile.Steps flow) < resumeFrom)%Z)) ->
  exists err,
    cmdUIFlow file resumeFrom nArg readFlow exec artifacts = Err err
    /\ AppError.Code err = str "USAGE"
    /\ forall exec',
         cmdUIFlow file resumeFrom nArg readFlow exec' artifacts = Err err.
Proof.
  intros Hbad. unfold cmdUIFlow.
  destruct (isEmpty (strings.TrimSpace file)) eqn:Ef.
  { eexists. split; [reflexivity|]. split; reflexivity. }
  destruct (Z.leb_spec resumeFrom 0) as [Hr|Hr].
  { eexists. split; [reflexivity|]. split; reflexivity. }
  destruct (Z.eqb_spec nArg 0) as [Hn|Hn]; cbn [negb].
  2:{ eexists. split; [reflexivity|]. split; reflexivity. }
  apply isEmpty_false in Ef.
  destruct Hbad as [Hbad|[Hbad|[Hbad|(flow & Hread & Hbad)]]];
    [contradiction | lia | contradiction |].
  rewrite Hread.
  destruct (Z.eqb_spec (len (uiFlowFile.Steps flow)) 0) as [Hz|Hz].
  { eexists. split; [reflexivity|]. split; reflexivity. }
  destruct (Z.gtb_spec resumeFrom (len (uiFlowFile.Steps flow))) as [Hg|Hg].
  { eexists. split; [reflexivity|]. split; reflexivity. }
  exfalso. destruct Hbad as [Hbad|Hbad]; [|lia].
  rewrite Hbad in Hz. now apply Hz.
Qed.

Lemma cmdUIFlow_outcome_witness :
  exists err,
    cmdUIFlow (str "flow.json") 1 0 (fun _ => Ok sampleFlow) failsAtSecond
      (fun _ => []) = Err err
    /\ mapGet (AppError.Details err) (str "resumeFrom") = Some (DInt 2).
Proof.
  assert (Hfile : strings.TrimSpace (str "flow.json") <> []) by discriminate.
  assert (Hrange : (1 <= 1 <= len (uiFlowFile.Steps sampleFlow))%Z)
    by (vm_compute; split; discriminate).
  destruct (@cmdUIFlow_outcome (str "flow.json") 1 (fun _ => Ok sampleFlow)
              failsAtSecond failsAtSecond (fun _ => []) sampleFlow Hfile
              eq_refl Hrange) as [P _].
  destruct (cmdUIFlow (str "flow.json") 1 0 (fun _ => Ok sampleFlow)
              failsAtSecond (fun _ => [])) as [resp|err].
  - exfalso. destruct P as [Hall _].
    destruct (Hall 2%Z) as (step & r & _ & Hex);
      [vm_compute; split; discriminate | discriminate].
  - exists err. split; [reflexivity|].
    destruct P as (n & step & stepErr & Hn & Hstep & Hex & -> & Hbefore).
    assert (En : n = 2%Z).
    { destruct (Z.eq_dec n 2) as [E|E]; [exact E|].
      unfold failsAtSecond in Hex. apply Z.eqb_neq in E. rewrite E in Hex.
      discriminate. }
    subst n. reflexivity.
Defined.

Lemma cmdUIFlow_usage_witness :
  exists err,
    cmdUIFlow (str "flow.json") 3 0 (fun _ => Ok sampleFlow) failsAtSecond
      (fun _ => []) = Err err
    /\ AppError.Code err = str "USAGE".
Proof.
  destruct (@cmdUIFlow_usage (str "flow.json") 3 0 (fun _ => Ok sampleFlow)
              failsAtSecond (fun _ => [])) as (err & Herr & Hcode & _).
  - right. right. right. exists sampleFlow. split; [reflexivity|].
    right. vm_compute. reflexivity.
  - exists err. now split.
Defined.

(* ----------------------------------------------------------------- *)
(** ** Coordinate transform *)

Section TransformFacts.
Context `{GoLib}.



End TransformFacts.

(* ----------------------------------------------------------------- *)
(** ** Flow steps *)

Section FlowStepFacts.
Context `{GoLib}.

Lemma streq_refl (s : gostring) : streq s s = true.
Proof. now apply streq_true_iff. Qed.

Lemma streq_false_iff (a b : gostring) : streq a b = false <-> a <> b.
Proof.
  split.
  - intros E Hab. apply streq_true_iff in Hab. congruence.
  - intros Hab. destruct (streq a b) eqn:E; [|reflexivity].
    apply streq_true_iff in E. contradiction.
Qed.

(** X27. [executeFlowStep] rejects with USAGE, whatever the simulator would
    answer and without asking it, a step whose action is none of tap, type,
    clear, swipe and wait, a tap without both coordinates and without exactly
    one selector, a type step with a blank text or with [into] set and not
    exactly one selector, and a clear step without exactly one selector. *)
Theorem executeFlowStep_usage (w : flowWorld.t) (step : uiFlowStep.t) :
  (stepAction step <> str "tap" /\ stepAction step <> str "type"
   /\ stepAction step <> str "clear" /\ stepAction step <> str "swipe"
   /\ stepAction step <> str "wait")
  \/ (stepAction step = str "tap"
      /\ (uiFlowStep.X step = None \/ uiFlowStep.Y step = None)
      /\ stepSelectorCount step <> 1%Z)
  \/ (stepAction step = str "type"
      /\ (strings.TrimSpace (uiFlowStep.Text step) = []
          \/ (uiFlowStep.Into step = Some true /\ stepSelectorCount step <> 1%Z)))
  \/ (stepAction step = str "clear" /\ stepSelectorCount step <> 1%Z) ->
  exists err,
    executeFlowStep w step = Err err
    /\ AppError.Code err = str "USAGE"
    /\ forall w', executeFlowStep w' step = Err err.
Proof.
  unfold stepAction, stepSelectorCount, executeFlowStep.
  destruct (selectorsFromFlowStep step) as [[[index id] label] contains].
  set (action := strings.ToLower (strings.TrimSpace (uiFlowStep.Action step))).
  intros [(Ht & Hy & Hc & Hs & Hw)|[(Ha & Hxy & Hn)|[(Ha & Hbad)|(Ha & Hn)]]].
  - apply streq_false_iff in Ht, Hy, Hc, Hs, Hw.
    rewrite Ht, Hy, Hc, Hs, Hw.
    eexists. split; [reflexivity|]. split; reflexivity.
  - rewrite Ha. cbn [streq]. rewrite streq_refl.
    apply Z.eqb_neq in Hn. rewrite Hn. cbn [negb].
    destruct Hxy as [-> | ->].
    + eexists. split; [reflexivity|]. split; reflexivity.
    + destruct (uiFlowStep.X step);
        eexists; (split; [reflexivity|]); split; reflexivity.
  - rewrite Ha. change (streq (str "type") (str "tap")) with false.
    cbv iota. rewrite streq_refl.
    destruct Hbad as [Hblank|[Hinto Hn]].
    + rewrite Hblank. cbn [isEmpty].
      eexists. split; [reflexivity|]. split; reflexivity.
    + destruct (isEmpty (strings.TrimSpace (uiFlowStep.Text step))).
      * eexists. split; [reflexivity|]. split; reflexivity.
      * rewrite Hinto. apply Z.eqb_neq in Hn. rewrite Hn. cbn [negb andb].
        eexists. split; [reflexivity|]. split; reflexivity.
  - rewrite Ha. change (streq (str "clear") (str "tap")) with false.
    change (streq (str "clear") (str "type")) with false.
    cbv iota. rewrite streq_refl.
    apply Z.eqb_neq in Hn. rewrite Hn. cbn [negb].
    eexists. split; [reflexivity|]. split; reflexivity.
Qed.


End FlowStepFacts.

Lemma executeFlowStep_usage_witness :
  exists err,
    @executeFlowStep exampleLib quietWorld (sampleStep "open" "drag") = Err err
    /\ AppError.Code err = str "USAGE".
Proof.
  destruct (@executeFlowStep_usage exampleLib quietWorld (sampleStep "open" "drag"))
    as (err & Herr & Hcode & _).
  - left. vm_compute. repeat split; discriminate.
  - exists err. now split.
Defined.


(** X29. [wrapAppErrCode] returns an error with the given code: the error
    itself when it already has that code, and otherwise a new error with the
    given message whose details are those of the error together with its
    code as [causeCode] and its message as [causeMessage]; wrapping the result
    again with the same code changes nothing. *)
Theorem wrapAppErrCode_recodes (appErr : AppError.t) (code msg : gostring) :
  let wrapped := wrapAppErrCode appErr code msg in
  AppError.Code wrapped = code
  /\ (AppError.Code appErr = code -> wrapped = appErr)
  /\ (AppError.Code appErr <> code ->
      AppError.Message wrapped = msg
      /\ mapGet (AppError.Details wrapped) (str "causeCode")
         = Some (DString (AppError.Code appErr))
      /\ mapGet (AppError.Details wrapped) (str "causeMessage")
         = Some (DString (AppError.Message appErr))
      /\ forall k, k <> str "causeCode" -> k <> str "causeMessage" ->
           mapGet (AppError.Details wrapped) k
           = mapGet (AppError.Details appErr) k)
  /\ forall msg', wrapAppErrCode wrapped code msg' = wrapped.
Proof.
  cbv zeta. split; [apply wrapAppErrCode_Code|]. split; [|split].
  - intros E. unfold wrapAppErrCode.
    now rewrite (proj2 (streq_true_iff _ _) E).
  - intros Hne. unfold wrapAppErrCode.
    rewrite (proj2 (streq_false_iff _ _) Hne).
    cbn [AppError.Message AppError.Details].
    split; [reflexivity|]. split; [|split].
    + rewrite mapGet_mapSet_other by reflexivity. apply mapGet_mapSet_same.
    + apply mapGet_mapSet_same.
    + intros k Hk1 Hk2.
      rewrite !mapGet_mapSet_other; [reflexivity | |];
        apply streq_false_iff; congruence.
  - intros msg'. unfold wrapAppErrCode at 1.
    now rewrite (proj2 (streq_true_iff _ _) (wrapAppErrCode_Code appErr code msg)).
Qed.
